(** * ivre/zgrabout.py: the zgrab HTTP result parser [zgrap_parser_http]

    A shallow embedding of [zgrap_parser_http] (src/ivre/zgrabout.py) and
    of the fragment of Python it runs on.

    - A decoded JSON document is a [value]; integers are the only numbers
      (JSON numbers with a fraction or an exponent are outside the model).
    - A Python [dict] is an association list in insertion order, with
      distinct keys.  Keys are values: [json.loads] only builds string
      keys, but [dict.update] and [headers[unk['key']] = ...] may store
      any hashable key.
    - A Python [str] is a [string] whose characters are the code points
      below 256; [str.encode()] is then the identity.
    - Python 3 semantics are followed where Python 2 and 3 differ, as
      of CPython 3.11: [int] accepts [1_0] and refuses a text of more
      than 4300 digits, dicts iterate in insertion order.
    - The function mutates its two arguments and logs warnings, raises
      exceptions and returns early: it is written in a state monad over
      [state] whose computations end in [Normal], [Returns] or [Raises].
    - The functions imported from [ivre.utils] and [ivre.xmlnmap] are not
      part of the file; they are the fields of [collaborators]. *)

From Stdlib Require Import String Ascii List ZArith Bool Lia Arith.
From Stdlib Require Import DecimalString DecimalPos Permutation Sorted.
Import ListNotations.

Local Open Scope list_scope.
Local Open Scope string_scope.

(** ** Python values *)

Unset Elimination Schemes.
Inductive value : Type :=
| VNone
| VBool (b : bool)
| VInt (n : Z)
| VStr (s : string)
| VList (l : list value)
| VDict (d : list (value * value)).
Set Elimination Schemes.

Definition dict : Type := list (value * value).

Inductive exn : Type :=
| KeyError | ValueError | TypeError | AttributeError | IndexError.

Inductive result (A : Type) : Type :=
| Ok (a : A)
| Err (e : exn).
Arguments Ok {A} a.
Arguments Err {A} e.

Definition rbind {A B} (r : result A) (f : A -> result B) : result B :=
  match r with Ok a => f a | Err e => Err e end.

(** [bool(v)] *)
Definition truthy (v : value) : bool :=
  match v with
  | VNone => false
  | VBool b => b
  | VInt n => negb (n =? 0)%Z
  | VStr s => negb (s =? "")
  | VList l => match l with [] => false | _ => true end
  | VDict d => match d with [] => false | _ => true end
  end.

(** [v == s] and [v == n] for a string and an integer constant *)
Definition eq_str (v : value) (s : string) : bool :=
  match v with VStr t => (t =? s) | _ => false end.

Definition eq_int (v : value) (n : Z) : bool :=
  match v with
  | VInt m => (m =? n)%Z
  | VBool b => ((if b then 1 else 0) =? n)%Z
  | _ => false
  end.

(** ** Strings *)

Definition dquote : ascii := "034"%char.
Definition CR : ascii := "013"%char.
Definition LF : ascii := "010"%char.
Definition crlf : string := String CR (String LF "").
Definition nl : string := String LF "".

Fixpoint take (n : nat) (s : string) : string :=
  match n, s with
  | S n', String c s' => String c (take n' s')
  | _, _ => ""
  end.

Fixpoint drop (n : nat) (s : string) : string :=
  match n, s with
  | S n', String _ s' => drop n' s'
  | _, _ => s
  end.

(** [s.startswith(p)] *)
Fixpoint startswith (s p : string) : bool :=
  match p, s with
  | "", _ => true
  | String a p', String b s' => (a =? b)%char && startswith s' p'
  | String _ _, "" => false
  end.

(** [s.endswith(p)] *)
Definition endswith (s p : string) : bool :=
  (String.length p <=? String.length s)%nat
  && (drop (String.length s - String.length p) s =? p).

(** [s[:-n]] for [n > 0] *)
Definition slice_to_neg (s : string) (n : nat) : string :=
  take (String.length s - n) s.

(** [p in s] for strings *)
Fixpoint str_contains (s p : string) : bool :=
  startswith s p ||
  match s with
  | "" => false
  | String _ s' => str_contains s' p
  end.

(** [s.split(sep)] for a one-character separator *)
Fixpoint split_all (sep : ascii) (s : string) : list string :=
  match s with
  | "" => [""]
  | String c s' =>
      if (c =? sep)%char then "" :: split_all sep s'
      else match split_all sep s' with
           | w :: ws => String c w :: ws
           | [] => [String c ""]
           end
  end.

(** [s.split(sep, 1)] for a one-character separator *)
Fixpoint split_once (sep : ascii) (s : string) : list string :=
  match s with
  | "" => [""]
  | String c s' =>
      if (c =? sep)%char then [""; s']
      else match split_once sep s' with
           | w :: ws => String c w :: ws
           | [] => [String c ""]
           end
  end.

(** [s.replace(a, b)] for one-character [a] and [b] *)
Fixpoint replace_char (a b : ascii) (s : string) : string :=
  match s with
  | "" => ""
  | String c s' => String (if (c =? a)%char then b else c) (replace_char a b s')
  end.

(** [sep.join(l)] *)
Fixpoint join (sep : string) (l : list string) : string :=
  match l with
  | [] => ""
  | [x] => x
  | x :: xs => x ++ sep ++ join sep xs
  end.

(** [iter(s)]: the one-character strings of [s] *)
Fixpoint chars (s : string) : list string :=
  match s with
  | "" => []
  | String c s' => String c "" :: chars s'
  end.

Fixpoint rev_string (acc s : string) : string :=
  match s with
  | "" => acc
  | String c s' => rev_string (String c acc) s'
  end.

(** *** [int(s)] and ['%d' % n] *)

(** The characters that [int] strips from both ends of its argument,
    among code points < 256: 9 to 13, 32, 133 and 160.  The separators
    28 to 31 are not stripped. *)
Definition is_space (c : ascii) : bool :=
  let n := nat_of_ascii c in
  (((9 <=? n) && (n <=? 13)) || (n =? 32) || (n =? 133) || (n =? 160))%nat.

Fixpoint lstrip (s : string) : string :=
  match s with
  | String c s' => if is_space c then lstrip s' else s
  | "" => ""
  end.

Definition strip (s : string) : string :=
  rev_string "" (lstrip (rev_string "" (lstrip s))).

Definition digit (c : ascii) : option Z :=
  let n := nat_of_ascii c in
  if ((48 <=? n) && (n <=? 57))%nat then Some (Z.of_nat (n - 48)) else None.

Definition is_digit (c : ascii) : bool :=
  match digit c with Some _ => true | None => false end.

(** Decimal digits, single underscores allowed between two digits. *)
Fixpoint digits_val (acc : Z) (after_digit : bool) (s : string) : option Z :=
  match s with
  | "" => if after_digit then Some acc else None
  | String c s' =>
      match digit c with
      | Some d => digits_val (10 * acc + d) true s'
      | None =>
          if (c =? "_")%char && after_digit then digits_val acc false s'
          else None
      end
  end.

(** The number of decimal digits of a text; underscores do not count,
    leading zeros do. *)
Fixpoint count_digits (s : string) : Z :=
  match s with
  | "" => 0
  | String c s' => (if is_digit c then 1 else 0) + count_digits s'
  end.

(** [sys.get_int_max_str_digits()], by default. *)
Definition int_max_str_digits : Z := 4300.

(** The digits of [int(s)] after the sign: a text of more than
    [int_max_str_digits] digits is refused, as a malformed one is. *)
Definition digits_int (s : string) : option Z :=
  if (count_digits s <=? int_max_str_digits)%Z then digits_val 0 false s
  else None.

(** [int(s)]: [None] stands for [ValueError]. *)
Definition py_int (s : string) : option Z :=
  match strip s with
  | String "+" s' => digits_int s'
  | String "-" s' => option_map Z.opp (digits_int s')
  | s' => digits_int s'
  end.

(** ['%d' % n] and [str(n)], for an integer of at most
    [int_max_str_digits] digits: such are the values of [py_int] and the
    integers of a JSON document, which [json.loads] reads under the same
    limit. *)
Definition dec (n : Z) : string := NilZero.string_of_int (Z.to_int n).

(** ** Dictionaries *)

(** Lists and dicts are unhashable: they cannot be keys or set members. *)
Definition hashable (v : value) : bool :=
  match v with
  | VList _ | VDict _ => false
  | _ => true
  end.

(** Equality of two keys: [True == 1] and [False == 0]. *)
Definition key_eqb (a b : value) : bool :=
  match a, b with
  | VNone, VNone => true
  | VStr s, VStr t => (s =? t)
  | VInt m, VInt n => (m =? n)%Z
  | VInt m, VBool b => (m =? (if b then 1 else 0))%Z
  | VBool b, VInt m => (m =? (if b then 1 else 0))%Z
  | VBool a, VBool b => Bool.eqb a b
  | _, _ => false
  end.

Fixpoint dict_get (k : value) (d : dict) : option value :=
  match d with
  | [] => None
  | (k', v) :: d' => if key_eqb k' k then Some v else dict_get k d'
  end.

(** [d[k] = v]: an existing key keeps its place (and its key object). *)
Fixpoint dict_set (k v : value) (d : dict) : dict :=
  match d with
  | [] => [(k, v)]
  | (k', v') :: d' =>
      if key_eqb k' k then (k', v) :: d' else (k', v') :: dict_set k v d'
  end.

(** [del d[k]], for a key that is there *)
Definition dict_del (k : value) (d : dict) : dict :=
  filter (fun kv => negb (key_eqb (fst kv) k)) d.

Definition getk (k : string) (d : dict) : option value := dict_get (VStr k) d.
Definition setk (k : string) (v : value) (d : dict) : dict :=
  dict_set (VStr k) v d.
Definition has_key (k : string) (d : dict) : bool :=
  match getk k d with Some _ => true | None => false end.

(** A dict display [{'k1': v1, ...}] with distinct string keys. *)
Definition entries (l : list (string * value)) : dict :=
  map (fun kv => (VStr (fst kv), snd kv)) l.

Definition obj (l : list (string * value)) : value := VDict (entries l).

(** ** Operations on values of unknown type *)

(** [iter(v)] *)
Definition py_iter (v : value) : result (list value) :=
  match v with
  | VStr s => Ok (map VStr (chars s))
  | VList l => Ok l
  | VDict d => Ok (map fst d)
  | _ => Err TypeError
  end.

(** [k in v] for a string [k] *)
Definition py_in (k : string) (v : value) : result bool :=
  match v with
  | VStr s => Ok (str_contains s k)
  | VList l => Ok (existsb (fun x => eq_str x k) l)
  | VDict d => Ok (has_key k d)
  | _ => Err TypeError
  end.

(** [v[k]] for a string [k] *)
Definition getitem (v : value) (k : string) : result value :=
  match v with
  | VDict d =>
      match getk k d with
      | Some x => Ok x
      | None => Err KeyError
      end
  | _ => Err TypeError
  end.

(** [v[0]] *)
Definition getitem0 (v : value) : result value :=
  match v with
  | VList (x :: _) => Ok x
  | VList [] => Err IndexError
  | VStr (String c _) => Ok (VStr (String c ""))
  | VStr "" => Err IndexError
  | VDict d =>
      match dict_get (VInt 0) d with
      | Some x => Ok x
      | None => Err KeyError
      end
  | _ => Err TypeError
  end.

(** [v.get(k, dflt)]: only a dict has [get]. *)
Definition py_get (v : value) (k : string) (dflt : value) : result value :=
  match v with
  | VDict d =>
      Ok (match getk k d with Some x => x | None => dflt end)
  | _ => Err AttributeError
  end.

(** String methods: only a [str] has them. *)
Definition as_str (v : value) : result string :=
  match v with
  | VStr s => Ok s
  | _ => Err AttributeError
  end.

Definition py_endswith (v : value) (p : string) : result bool :=
  rbind (as_str v) (fun s => Ok (endswith s p)).

Definition py_startswith (v : value) (p : string) : result bool :=
  rbind (as_str v) (fun s => Ok (startswith s p)).

(** [d.update(other)], with the entries stored before an exception. *)
Fixpoint update_pairs (items : list value) (d : dict) : dict * option exn :=
  match items with
  | [] => (d, None)
  | it :: rest =>
      match py_iter it with
      | Err _ => (d, Some TypeError)
      | Ok [k; v] =>
          if hashable k then update_pairs rest (dict_set k v d)
          else (d, Some TypeError)
      | Ok _ => (d, Some ValueError)
      end
  end.

Definition dict_update (d : dict) (other : value) : dict * option exn :=
  match other with
  | VDict o =>
      (fold_left (fun acc kv => dict_set (fst kv) (snd kv) acc) o d, None)
  | _ =>
      match py_iter other with
      | Ok items => update_pairs items d
      | Err e => (d, Some e)
      end
  end.

(** [set(fields).difference(other)], as the list of the fields left: the
    keys of a dict are looked up, the items of another iterable are hashed
    and discarded. *)
Definition set_difference (fields : list string) (other : value)
  : result (list string) :=
  match other with
  | VDict d => Ok (filter (fun f => negb (has_key f d)) fields)
  | _ =>
      rbind (py_iter other) (fun items =>
        if forallb hashable items
        then Ok (filter (fun f => negb (existsb (fun x => eq_str x f) items))
                        fields)
        else Err TypeError)
  end.

(** ** Regular expressions

    A backtracking matcher in continuation-passing style: alternatives are
    tried in the order of Python's [re], greedy repetitions first. *)

Inductive regex : Type :=
| RChar (p : ascii -> bool)
| RSeq (r1 r2 : regex)
| ROpt (r : regex)
| RStar (r : regex).

Definition RPlus (r : regex) : regex := RSeq r (RStar r).

Section Matcher.
Context {A : Type}.

Fixpoint rmatch (r : regex) (s : string) (k : string -> option A)
  : option A :=
  match r with
  | RChar p =>
      match s with
      | String c s' => if p c then k s' else None
      | "" => None
      end
  | RSeq r1 r2 => rmatch r1 s (fun s1 => rmatch r2 s1 k)
  | ROpt r1 =>
      match rmatch r1 s k with
      | Some a => Some a
      | None => k s
      end
  | RStar r1 =>
      (fix loop (fuel : nat) (s : string) {struct fuel} : option A :=
         match fuel with
         | O => k s
         | S fuel' =>
             match rmatch r1 s (fun s1 =>
                     if (String.length s1 <? String.length s)%nat
                     then loop fuel' s1 else None) with
             | Some a => Some a
             | None => k s
             end
         end) (String.length s) s
  end.
End Matcher.

Definition lower (c : ascii) : ascii :=
  let n := nat_of_ascii c in
  if ((65 <=? n) && (n <=? 90))%nat then ascii_of_nat (n + 32) else c.

(** A literal string; with [ci] as under [re.I]. *)
Fixpoint lit (ci : bool) (c : ascii) (s : string) : regex :=
  let one (x : ascii) :=
    RChar (fun y => if ci then (lower y =? lower x)%char else (y =? x)%char) in
  match s with
  | "" => one c
  | String c' s' => RSeq (one c) (lit ci c' s')
  end.

Definition not_char (x : ascii) : regex := RChar (fun y => negb (y =? x)%char).

(** A pattern with one capturing group: [pre(grp)suf]. *)
Record pattern : Type := { pre : regex; grp : regex; suf : regex }.

(** A match of the pattern at the start of [s]: the group's text and the
    text after the match. *)
Definition match_at (p : pattern) (s : string) : option (string * string) :=
  rmatch (pre p) s (fun s1 =>
    rmatch (grp p) s1 (fun s2 =>
      rmatch (suf p) s2 (fun s3 =>
        Some (take (String.length s1 - String.length s2) s1, s3)))).

(** [p.search(s)], as group 1 of the first match *)
Fixpoint re_search (p : pattern) (s : string) : option string :=
  match match_at p s with
  | Some (g, _) => Some g
  | None =>
      match s with
      | "" => None
      | String _ s' => re_search p s'
      end
  end.

(** [[m.group(1) for m in p.finditer(s)]]: the matches do not overlap. *)
Fixpoint finditer_fuel (fuel : nat) (p : pattern) (s : string) : list string :=
  match fuel with
  | O => []
  | S fuel' =>
      match match_at p s with
      | Some (g, rest) => g :: finditer_fuel fuel' p rest
      | None =>
          match s with
          | "" => []
          | String _ s' => finditer_fuel fuel' p s'
          end
      end
  end.

Definition finditer (p : pattern) (s : string) : list string :=
  finditer_fuel (S (String.length s)) p s.

(** The title pattern, compiled with [re.I]: [<title], any characters but
    [>], [>], the group of any characters but [<], and [</title>]; both
    repetitions are greedy stars. *)
Definition _EXPR_TITLE : pattern :=
  {| pre := RSeq (lit true "<" "title")
                 (RSeq (RStar (not_char ">")) (lit false ">" ""));
     grp := RStar (not_char "<");
     suf := lit true "<" "/title>" |}.

(** The OWA version pattern: a double quote, [/owa/], optionally [auth/],
    the group [(?:[0-9]+\.)+[0-9]+] and a final [/]. *)
Definition _EXPR_OWA_VERSION : pattern :=
  {| pre := RSeq (lit false dquote "/owa/") (ROpt (lit false "a" "uth/"));
     grp := RSeq (RPlus (RSeq (RPlus (RChar is_digit)) (lit false "." "")))
                 (RPlus (RChar is_digit));
     suf := lit false "/" "" |}.

(** ** [sorted(l, key=...)] *)

(** [a < b] on lists of integers *)
Fixpoint list_lt (a b : list Z) : bool :=
  match a, b with
  | [], [] => false
  | [], _ :: _ => true
  | _ :: _, [] => false
  | x :: a', y :: b' =>
      if (x <? y)%Z then true
      else if (y <? x)%Z then false
      else list_lt a' b'
  end.

Fixpoint insert_key {A} (x : list Z * A) (l : list (list Z * A))
  : list (list Z * A) :=
  match l with
  | [] => [x]
  | y :: l' =>
      if list_lt (fst y) (fst x) then y :: insert_key x l' else x :: y :: l'
  end.

(** A stable sort on keys computed beforehand, as [sorted] does. *)
Fixpoint sort_keyed {A} (l : list (list Z * A)) : list (list Z * A) :=
  match l with
  | [] => []
  | x :: l' => insert_key x (sort_keyed l')
  end.

Fixpoint map_opt {A B} (f : A -> option B) (l : list A) : option (list B) :=
  match l with
  | [] => Some []
  | x :: l' =>
      match f x, map_opt f l' with
      | Some y, Some ys => Some (y :: ys)
      | _, _ => None
      end
  end.

(** [[int(x) for x in v.split('.')]]; [None] stands for [ValueError]. *)
Definition version_key (v : string) : option (list Z) :=
  map_opt py_int (split_all "." v).

(** [sorted(vs, key=lambda v: [int(x) for x in v.split('.')])] *)
Definition sorted_versions (vs : list string) : option (list string) :=
  option_map (fun ks => map snd (sort_keyed (combine ks vs)))
             (map_opt version_key vs).

(** ** The state and exception monad *)

(** What a call can change: its [data] argument, its [hostrec] argument
    and the log of [utils.LOGGER]. *)
Record state : Type := {
  st_data : value;
  st_hostrec : dict;
  st_log : list string
}.

(** How a block of statements ends: it falls through with a value, it
    executes [return v], or it raises. *)
Inductive ctl (A : Type) : Type :=
| Normal (a : A)
| Returns (v : value)
| Raises (e : exn).
Arguments Normal {A} a.
Arguments Returns {A} v.
Arguments Raises {A} e.

Definition M (A : Type) : Type := state -> state * ctl A.

Definition ret {A} (a : A) : M A := fun s => (s, Normal a).

Definition bind {A B} (m : M A) (f : A -> M B) : M B :=
  fun s =>
    match m s with
    | (s', Normal a) => f a s'
    | (s', Returns v) => (s', Returns v)
    | (s', Raises e) => (s', Raises e)
    end.

Definition return_ {A} (v : value) : M A := fun s => (s, Returns v).
Definition raise {A} (e : exn) : M A := fun s => (s, Raises e).

Definition lift {A} (r : result A) : M A :=
  match r with
  | Ok a => ret a
  | Err e => raise e
  end.

Notation "x <- m ;; k" := (bind m (fun x => k))
  (at level 61, m at next level, right associativity).
Notation "m ;;; k" := (bind m (fun _ => k))
  (at level 61, right associativity).

Definition get_data : M value := fun s => (s, Normal (st_data s)).
Definition get_hostrec : M dict := fun s => (s, Normal (st_hostrec s)).

Definition set_data (v : value) : M unit :=
  fun s => ({| st_data := v; st_hostrec := st_hostrec s; st_log := st_log s |},
            Normal tt).

Definition set_hostrec (h : dict) : M unit :=
  fun s => ({| st_data := st_data s; st_hostrec := h; st_log := st_log s |},
            Normal tt).

(** [utils.LOGGER.warning(msg)] *)
Definition warning (msg : string) : M unit :=
  fun s => ({| st_data := st_data s; st_hostrec := st_hostrec s;
               st_log := (st_log s ++ [msg])%list |}, Normal tt).

Fixpoint for_each {A} (l : list A) (f : A -> M unit) : M unit :=
  match l with
  | [] => ret tt
  | x :: l' => f x ;;; for_each l' f
  end.

(** [try: r  except KeyError: h] *)
Definition except_KeyError {A} (r h : result A) : result A :=
  match r with
  | Err KeyError => h
  | _ => r
  end.

(** ** The functions imported from [ivre.utils] and [ivre.xmlnmap]

    Their code is not in this file.  Each is taken at the type the
    specification gives it (section 6, collaborator contracts):
    [create_ssl_cert] maps base64 text to an output text and a list of
    certificates and fails soft; [add_cert_hostnames cert names] is the
    list of hostnames it appends to [names]; [match_nmap_svc_fp] returns
    a possibly empty mapping; [create_http_ls] an optional script.
    [py_repr] is Python's [repr], used by [%s] on lists and dicts, and
    [set_iter] the order in which a [set] of strings is iterated, which
    Python leaves unspecified. *)
Record collaborators : Type := {
  create_ssl_cert : string -> string * list value;
  add_cert_hostnames : value -> list value -> list value;
  nmap_decode_data : string -> string;
  nmap_encode_data : string -> string;
  match_nmap_svc_fp : string -> string -> string -> dict;
  create_http_ls : string -> value -> option value;
  py_repr : value -> string;
  set_iter : list string -> list string;
  set_iter_perm : forall l, Permutation (nodup string_dec l) (set_iter l)
}.

(** ** [zgrap_parser_http] *)

Section Parser.
Variable E : collaborators.

(** ['%s' % v] *)
Definition py_str (v : value) : string :=
  match v with
  | VStr s => s
  | VInt n => dec n
  | VNone => "None"
  | VBool true => "True"
  | VBool false => "False"
  | _ => py_repr E v
  end.

(** [utils.nmap_decode_data(v)].
    Modelled from the spec: [DecodeBytes(text) -> raw] is specified on
    text; a call on anything else is taken to raise [TypeError]. *)
Definition decode (v : value) : result string :=
  match v with
  | VStr s => Ok (nmap_decode_data E s)
  | _ => Err TypeError
  end.

(** [v[:-n]] *)
Definition py_slice_to_neg (v : value) (n : nat) : result value :=
  match v with
  | VStr s => Ok (VStr (slice_to_neg s n))
  | VList l => Ok (VList (firstn (List.length l - n) l))
  | _ => Err TypeError
  end.

(** [res.setdefault('scripts', []).append(script)]: the list is looked
    up before [script] is evaluated. *)
Definition add_script (res : dict) (script : result value) : result dict :=
  match getk "scripts" res with
  | None =>
      rbind script (fun x => Ok (setk "scripts" (VList [x]) res))
  | Some (VList l) =>
      rbind script (fun x => Ok (setk "scripts" (VList (l ++ [x])%list) res))
  | Some _ => Err AttributeError
  end.

(** Lines 50-51: [if 'result' in data: data.update(data.pop('result'))] *)
Definition reconcile : M unit :=
  data <- get_data ;;
  has <- lift (py_in "result" data) ;;
  if has then
    match data with
    | VDict d =>
        r <- lift (getitem data "result") ;;
        let d1 := dict_del (VStr "result") d in
        set_data (VDict d1) ;;;
        let (d2, e) := dict_update d1 r in
        set_data (VDict d2) ;;;
        match e with
        | Some e => raise e
        | None => ret tt
        end
    | _ => raise AttributeError
    end
  else ret tt.

Definition needed_fields : list string :=
  ["request"; "status_code"; "status_line"].

Definition missing_response_msg : string :=
  "Missing " ++ String dquote "response" ++ String dquote ""
  ++ " field in zgrab HTTP result".

(** ['Missing field%s %s in zgrab HTTP result' % (..., ...)] *)
Definition missing_fields_msg (missing : list string) : string :=
  "Missing field" ++ (if (1 <? List.length missing)%nat then "s" else "")
  ++ " " ++ join ", " (map (fun f => "'" ++ f ++ "'") missing)
  ++ " in zgrab HTTP result".

(** Lines 52-64: the required fields; falls through with [resp]. *)
Definition check_response : M value :=
  data <- get_data ;;
  has <- lift (py_in "response" data) ;;
  if negb has then
    warning missing_response_msg ;;;
    return_ (VDict [])
  else
    resp <- lift (getitem data "response") ;;
    diff <- lift (set_difference needed_fields resp) ;;
    match set_iter E diff with
    | [] => ret resp
    | missing_fields =>
        warning (missing_fields_msg missing_fields) ;;;
        return_ (VDict [])
    end.

(** Lines 67-69 *)
Definition base_record : dict :=
  [(VStr "service_name", VStr "http");
   (VStr "service_method", VStr "probed");
   (VStr "state_state", VStr "open");
   (VStr "state_reason", VStr "response");
   (VStr "protocol", VStr "tcp")].

(** Lines 70-78: [tls], [VNone] when neither key is there. *)
Definition find_tls (req : value) : result value :=
  except_KeyError (getitem req "tls_handshake")
    (except_KeyError
       (rbind (getitem req "tls_log") (fun l => getitem l "handshake_log"))
       (Ok VNone)).

(** Lines 81-84: [tls['server_certificates']['certificate']['raw']],
    [None] when a [KeyError] was caught. *)
Definition leaf_certificate (tls : value) : result (option value) :=
  match rbind (getitem tls "server_certificates") (fun a =>
        rbind (getitem a "certificate") (fun b => getitem b "raw")) with
  | Ok c => Ok (Some c)
  | Err KeyError => Ok None
  | Err e => Err e
  end.

(** Lines 94-95: [add_cert_hostnames(cert, hostrec.setdefault('hostnames', []))].
    Modelled from the spec: [ExtractHostnames] mutates the hostname list
    by appending; on a value that is not a list the append is taken to
    raise [AttributeError]. *)
Definition add_hostnames (cert : value) : M unit :=
  hostrec <- get_hostrec ;;
  match getk "hostnames" hostrec with
  | None =>
      set_hostrec
        (setk "hostnames" (VList (add_cert_hostnames E cert [])) hostrec)
  | Some (VList l) =>
      set_hostrec
        (setk "hostnames" (VList (l ++ add_cert_hostnames E cert l)%list) hostrec)
  | Some _ => raise AttributeError
  end.

(** Lines 79-95 *)
Definition tls_stage (req : value) (res : dict) : M dict :=
  tls <- lift (find_tls req) ;;
  match tls with
  | VNone => ret res
  | _ =>
      let res := setk "service_tunnel" (VStr "ssl") res in
      c <- lift (leaf_certificate tls) ;;
      match c with
      | None => ret res
      | Some cert =>
          raw <- lift (as_str cert) ;;
          let (output, info) := create_ssl_cert E raw in
          match info with
          | [] => ret res
          | _ =>
              res <- lift (add_script res
                       (Ok (obj [("id", VStr "ssl-cert");
                                 ("output", VStr output);
                                 ("ssl-cert", VList info)]))) ;;
              for_each info add_hostnames ;;;
              ret res
          end
      end
  end.

(** Lines 97-107 *)
Definition infer_port (url : value) : result Z :=
  rbind (py_get url "host" (VStr "")) (fun host =>
  rbind (py_in ":" host) (fun has_colon =>
  rbind (if has_colon then
           rbind (getitem url "host") (fun h =>
           rbind (as_str h) (fun s =>
           match nth_error (split_once ":" s) 1 with
           | Some p => Ok (py_int p)
           | None => Err IndexError
           end))
         else Ok None) (fun port =>
  match port with
  | Some p => Ok p
  | None =>
      rbind (py_get url "scheme" VNone) (fun scheme =>
      Ok (if eq_str scheme "https" then 443 else 80)%Z)
  end))).

(** Lines 109-125 *)
Definition git_detector (resp url : value) (port : Z) (res : dict)
  : M unit :=
  path <- lift (py_get url "path" VNone) ;;
  matched <- lift (py_endswith path "/.git/index") ;;
  if matched then
    status <- lift (py_get resp "status_code" VNone) ;;
    if negb (eq_int status 200) then return_ (VDict []) else
    body <- lift (py_get resp "body" (VStr "")) ;;
    dirc <- lift (py_startswith body "DIRC") ;;
    if negb dirc then return_ (VDict []) else
    hostrec <- get_hostrec ;;
    addr <- lift (getitem (VDict hostrec) "addr") ;;
    path <- lift (getitem url "path") ;;
    stem <- lift (py_slice_to_neg path 5) ;;
    let repository := py_str addr ++ ":" ++ dec port ++ py_str stem in
    let res := setk "port" (VInt port) res in
    res <- lift (add_script res
             (Ok (obj [("id", VStr "http-git");
                       ("output", VStr (nl ++ "  " ++ repository ++ nl
                                        ++ "    Git repository found!" ++ nl));
                       ("http-git",
                        VList [obj [("repository", VStr repository);
                                    ("files-found",
                                     VList [VStr ".git/index"])]])]))) ;;
    return_ (VDict res)
  else ret tt.

(** Lines 129-132: the set of the versions found in [body] *)
Definition owa_versions (body : value) : result (list string) :=
  match body with
  | VStr s => Ok (set_iter E (finditer _EXPR_OWA_VERSION s))
  | _ => Err TypeError
  end.

(** Lines 126-155 *)
Definition owa_detector (resp url : value) (port : Z) (res : dict)
  : M unit :=
  path <- lift (py_get url "path" VNone) ;;
  matched <- lift (py_endswith path "/owa/auth/logon.aspx") ;;
  if matched then
    status <- lift (py_get resp "status_code" VNone) ;;
    if negb (eq_int status 200) then return_ (VDict []) else
    body <- lift (py_get resp "body" (VStr "")) ;;
    version <- lift (owa_versions body) ;;
    match version with
    | [] => return_ (VDict [])
    | _ =>
        match sorted_versions version with
        | None => raise ValueError
        | Some version =>
            let res := setk "port" (VInt port) res in
            path <- lift (getitem url "path") ;;
            path <- lift (py_slice_to_neg path 15) ;;
            let path := py_str path in
            let version0 := hd "" version in
            let output :=
              if (1 <? List.length version)%nat
              then "OWA: path " ++ path ++ ", version "
                   ++ join " / " version ++ " (multiple versions found!)"
              else "OWA: path " ++ path ++ ", version " ++ version0 in
            res <- lift (add_script res
                     (Ok (obj [("id", VStr "http-app");
                               ("output", VStr output);
                               ("http-app",
                                VList [obj [("path", VStr path);
                                            ("application", VStr "OWA");
                                            ("version", VStr version0)]])]))) ;;
            return_ (VDict res)
        end
    end
  else ret tt.

(** Lines 96-160: the port, or an early return from a detector *)
Definition port_stage (resp req url : value) (res : dict) : M Z :=
  if truthy url then
    port <- lift (infer_port url) ;;
    git_detector resp url port res ;;;
    owa_detector resp url port res ;;;
    ret port
  else
    handshake <- lift (py_get req "tls_handshake" VNone) ;;
    log <- (if truthy handshake then ret handshake
            else lift (py_get req "tls_log" VNone)) ;;
    if truthy log then ret 443%Z else ret 80%Z.

(** Lines 173-174: the loop over the popped [unknown] list, with the
    headers as they are when an exception stops it.  In
    [headers[unk['key']] = unk['value']] the right-hand side is
    evaluated first. *)
Fixpoint flatten_unknown (items : list value) (headers : dict)
  : dict * option exn :=
  match items with
  | [] => (headers, None)
  | unk :: rest =>
      match getitem unk "value" with
      | Err e => (headers, Some e)
      | Ok v =>
          match getitem unk "key" with
          | Err e => (headers, Some e)
          | Ok k =>
              if hashable k then flatten_unknown rest (dict_set k v headers)
              else (headers, Some TypeError)
          end
      end
  end.

(** The headers are [data['response']['headers']]: a change to them is
    a change to the caller's [data]. *)
Definition write_headers (headers : dict) : M unit :=
  data <- get_data ;;
  match data with
  | VDict d =>
      match getk "response" d with
      | Some (VDict resp) =>
          set_data
            (VDict (setk "response"
                      (VDict (setk "headers" (VDict headers) resp)) d))
      | _ => ret tt
      end
  | _ => ret tt
  end.

(** Lines 172-174 *)
Definition pop_unknown (headers : value) : M value :=
  has <- lift (py_in "unknown" headers) ;;
  if has then
    match headers with
    | VDict h =>
        unknown <- lift (getitem headers "unknown") ;;
        let h1 := dict_del (VStr "unknown") h in
        write_headers h1 ;;;
        items <- lift (py_iter unknown) ;;
        let (h2, e) := flatten_unknown items h1 in
        write_headers h2 ;;;
        match e with
        | Some e => raise e
        | None => ret (VDict h2)
        end
    | VList _ => raise TypeError
    | _ => raise AttributeError
    end
  else ret headers.

(** Lines 175-179: the entries and the output lines of each header *)
Fixpoint header_lines (items : dict) : result (list value * list string) :=
  match items with
  | [] => Ok ([], [])
  | (hdr, values) :: rest =>
      rbind (as_str hdr) (fun hdr =>
      let hdr := replace_char "_" "-" hdr in
      rbind (py_iter values) (fun vals =>
      rbind (header_lines rest) (fun r =>
      let entries :=
        map (fun val => obj [("name", VStr hdr); ("value", val)]) vals in
      let lines := map (fun val => hdr ++ ": " ++ py_str val) vals in
      Ok ((entries ++ fst r)%list, (lines ++ snd r)%list))))
  end.

(** [viewitems(headers)] *)
Definition viewitems (headers : value) : result dict :=
  match headers with
  | VDict h => Ok h
  | _ => Err AttributeError
  end.

(** Lines 167-196; the record and the banner *)
Definition headers_stage (resp req : value) (banner : string) (res : dict)
  : M (dict * string) :=
  headers <- lift (getitem resp "headers") ;;
  name <- lift (rbind (getitem resp "protocol") (fun p => getitem p "name")) ;;
  status_line <- lift (getitem resp "status_line") ;;
  let line := py_str name ++ " " ++ py_str status_line in
  let http_hdrs := [obj [("name", VStr "_status"); ("value", VStr line)]] in
  let output := [line] in
  headers <- pop_unknown headers ;;
  items <- lift (viewitems headers) ;;
  r <- lift (header_lines items) ;;
  let http_hdrs := (http_hdrs ++ fst r)%list in
  let output := (output ++ snd r)%list in
  method <- lift (py_get req "method" VNone) ;;
  let request_type := "(Request type: " ++ py_str method ++ ")" in
  let output :=
    if truthy method then (output ++ [""; request_type])%list
    else output in
  res <- lift (add_script res
           (Ok (obj [("id", VStr "http-headers");
                     ("output", VStr (join nl output));
                     ("http-headers", VList http_hdrs)]))) ;;
  srv <- lift (py_get headers "server" VNone) ;;
  if truthy srv then
    server <- lift (getitem headers "server") ;;
    res <- lift (add_script res
             (rbind (getitem0 server) (fun s0 =>
              Ok (obj [("id", VStr "http-server-header");
                       ("output", s0);
                       ("http-server-header", server)])))) ;;
    s0 <- lift (rbind (getitem0 server) decode) ;;
    ret (res, banner ++ "Server: " ++ s0 ++ crlf ++ crlf)
  else ret (res, banner).

(** Lines 201-215 *)
Definition body_stage (resp url : value) (res : dict) : M dict :=
  body <- lift (getitem resp "body") ;;
  res <- lift (add_script res
           (rbind (as_str body) (fun b =>
            Ok (obj [("id", VStr "http-content");
                     ("output", VStr (nmap_encode_data E b))])))) ;;
  b <- lift (match body with VStr b => Ok b | _ => Err TypeError end) ;;
  res <- match re_search _EXPR_TITLE b with
         | Some title =>
             lift (add_script res
                     (Ok (obj [("id", VStr "http-title");
                               ("output", VStr title);
                               ("http-title",
                                obj [("title", VStr title)])])))
         | None => ret res
         end ;;
  match create_http_ls E b url with
  | Some script_http_ls => lift (add_script res (Ok script_http_ls))
  | None => ret res
  end.

(** Lines 161-216 *)
Definition generic_stage (resp req url : value) (port : Z) (res : dict)
  : M value :=
  let res := setk "port" (VInt port) res in
  name <- lift (rbind (rbind (getitem resp "protocol")
                         (fun p => getitem p "name")) decode) ;;
  status <- lift (rbind (getitem resp "status_line") decode) ;;
  let banner := name ++ " " ++ status ++ crlf in
  headers <- lift (py_get resp "headers" VNone) ;;
  r <- (if truthy headers then headers_stage resp req banner res
        else ret (res, banner)) ;;
  let (res, banner) := r : dict * string in
  let info := match_nmap_svc_fp E banner "tcp" "GetRequest" in
  let res := match info with
             | [] => res
             | _ => fst (dict_update res (VDict info))
             end in
  body <- lift (py_get resp "body" VNone) ;;
  res <- (if truthy body then body_stage resp url res else ret res) ;;
  return_ (VDict res).

(** The body of the function, lines 47-216 *)
Definition parser_body : M value :=
  data <- get_data ;;
  if negb (truthy data) then return_ (VDict []) else
  reconcile ;;;
  resp <- check_response ;;
  req <- lift (getitem resp "request") ;;
  url <- lift (py_get req "url" VNone) ;;
  res <- tls_stage req base_record ;;
  port <- port_stage resp req url res ;;
  generic_stage resp req url port res.

(** What the caller sees after a call: the two arguments as the call
    leaves them, the warnings logged, and the value returned or the
    exception raised. *)
Record outcome : Type := {
  out_data : value;
  out_hostrec : dict;
  out_log : list string;
  out_result : result value
}.

Definition zgrap_parser_http (data : value) (hostrec : dict) : outcome :=
  let (s, c) :=
    parser_body {| st_data := data; st_hostrec := hostrec; st_log := [] |} in
  {| out_data := st_data s;
     out_hostrec := st_hostrec s;
     out_log := st_log s;
     out_result := match c with
                   | Normal v | Returns v => Ok v
                   | Raises e => Err e
                   end |}.
End Parser.

(** ** Reading a returned record *)

(** The [scripts] list of a record, empty when there is none. *)
Definition scripts_of (r : value) : list value :=
  match r with
  | VDict d =>
      match getk "scripts" d with
      | Some (VList l) => l
      | _ => []
      end
  | _ => []
  end.

(** [v[k]] of a record or script, when it is there. *)
Definition field (k : string) (v : value) : option value :=
  match v with
  | VDict d => getk k d
  | _ => None
  end.

(** ** Shapes of the input *)

(** [data] is a non-empty JSON object and [d] is the working shape lines
    50-51 leave: [data] itself, or [data] without its [result] entry and
    with the entries of that entry, a JSON object, merged in. *)
Definition working_shape (data : value) (d : dict) : Prop :=
  exists d0, data = VDict d0 /\ d0 <> [] /\
    match getk "result" d0 with
    | None => d = d0
    | Some (VDict r) =>
        d = fst (dict_update (dict_del (VStr "result") d0) (VDict r))
    | Some _ => False
    end.

(** The working shape passes the required-field check of lines 52-64 and
    its request is a JSON object. *)
Record accepted (d resp req : dict) : Prop := {
  acc_response : getk "response" d = Some (VDict resp);
  acc_request : getk "request" resp = Some (VDict req);
  acc_status_code : has_key "status_code" resp = true;
  acc_status_line : has_key "status_line" resp = true
}.

(** The TLS data of the request, if any, has the types zgrab gives it: the
    lookups of lines 70-84 raise nothing but the [KeyError]s they catch
    and the leaf certificate, when there is one, is text. *)
Definition tls_typed (req : dict) : Prop :=
  exists tls, find_tls (VDict req) = Ok tls /\
    (tls = VNone \/ leaf_certificate tls = Ok None
     \/ exists raw, leaf_certificate tls = Ok (Some (VStr raw))).

(** The host record has no [hostnames] entry yet, or a list. *)
Definition hostnames_typed (hostrec : dict) : Prop :=
  getk "hostnames" hostrec = None
  \/ exists l, getk "hostnames" hostrec = Some (VList l).

(** The [host] entry of the URL, if any, is text. *)
Definition host_typed (url : dict) : Prop :=
  getk "host" url = None \/ exists h, getk "host" url = Some (VStr h).

(** ** Sample collaborators and inputs *)

(** Collaborators that answer in the simplest way: a certificate is
    described by its own text, each certificate yields one hostname,
    the codecs are the identity, no fingerprint matches, no listing. *)
Definition sample : collaborators :=
  {| create_ssl_cert := fun raw =>
       ("certificate " ++ raw,
        if (raw =? "") then [] else [obj [("subject", VStr raw)]]);
     add_cert_hostnames := fun cert _ =>
       [obj [("type", VStr "cert-subject-cn"); ("name", cert)]];
     nmap_decode_data := fun s => s;
     nmap_encode_data := fun s => s;
     match_nmap_svc_fp := fun _ _ _ => [];
     create_http_ls := fun _ _ => None;
     py_repr := fun _ => "<container>";
     set_iter := nodup string_dec;
     set_iter_perm := fun l => Permutation_refl _ |}.

Definition sample_host : dict := [(VStr "addr", VStr "192.0.2.1")].

(** The response of a zgrab result, around a request and further
    entries, and the result around the response. *)
Definition response_of (req : dict) (extra : list (string * value)) : dict :=
  (entries [("request", VDict req);
            ("status_code", VInt 200);
            ("status_line", VStr "200 OK");
            ("protocol", obj [("name", VStr "HTTP/1.1")])]
   ++ entries extra)%list.

Definition result_of (resp : dict) : dict := entries [("response", VDict resp)].

(** A request whose URL has a host but no path. *)
Definition no_path_req : dict :=
  entries [("url", obj [("host", VStr "example.com")])].

Definition no_path_input : value :=
  VDict (result_of (response_of no_path_req [])).

(** A request to [/x/.git/index] over TLS, answered with a Git index
    and, in [git_miss_resp], with a page that is not one. *)
Definition git_url : dict :=
  entries [("host", VStr "example.com:8443");
           ("scheme", VStr "https");
           ("path", VStr "/x/.git/index")].

Definition git_req : dict :=
  entries [("url", VDict git_url);
           ("tls_handshake",
            obj [("server_certificates",
                  obj [("certificate", obj [("raw", VStr "MIIB")])])])].

Definition git_resp : dict := response_of git_req [("body", VStr "DIRC0002")].
Definition git_input : value := VDict (result_of git_resp).

Definition git_miss_resp : dict :=
  response_of git_req [("body", VStr "<html>Not found</html>")].
Definition git_miss_input : value := VDict (result_of git_miss_resp).

(** A request to [/x/.git/index] without TLS data, answered with a Git
    index and, in [git_null_resp], with a body of [null]. *)
Definition git_plain_url : dict :=
  entries [("host", VStr "example.com:8443");
           ("scheme", VStr "http");
           ("path", VStr "/x/.git/index")].

Definition git_plain_req : dict := entries [("url", VDict git_plain_url)].

Definition git_plain_resp : dict :=
  response_of git_plain_req [("body", VStr "DIRC0002")].
Definition git_plain_input : value := VDict (result_of git_plain_resp).

Definition git_null_resp : dict := response_of git_plain_req [("body", VNone)].
Definition git_null_input : value := VDict (result_of git_null_resp).

(** A request without URL whose TLS log has no handshake log. *)
Definition tls_log_req : dict :=
  entries [("tls_log",
            obj [("heartbleed_log",
                  obj [("heartbleed_vulnerable", VBool false)])])].

Definition tls_log_input : value :=
  VDict (result_of (response_of tls_log_req [])).

(** A request whose URL names a port. *)
Definition port_url : dict :=
  entries [("host", VStr "example.com:8080"); ("path", VStr "/")].
Definition port_req : dict := entries [("url", VDict port_url)].
Definition port_resp : dict := response_of port_req [].
Definition port_input : value := VDict (result_of port_resp).

(** A request whose URL writes the port after the separator of code
    point 28, which [int] does not strip. *)
Definition sep_url : dict :=
  entries [("host", VStr ("h:" ++ String (ascii_of_nat 28) "8080"));
           ("scheme", VStr "https");
           ("path", VStr "/")].
Definition sep_req : dict := entries [("url", VDict sep_url)].
Definition sep_resp : dict := response_of sep_req [].
Definition sep_input : value := VDict (result_of sep_resp).

(** A result whose response is [null], and one whose response lacks the
    status code and the status line. *)
Definition null_response_input : value := obj [("response", VNone)].

Definition bare_resp : dict := entries [("request", obj [])].
Definition bare_input : value := VDict (result_of bare_resp).

(** An OWA logon page that names two versions: in [owa_unquoted_resp]
    without a double quote before them, in [owa_resp] in quoted links. *)
Definition owa_url : dict :=
  entries [("host", VStr "example.com");
           ("path", VStr "/owa/auth/logon.aspx")].
Definition owa_req : dict := entries [("url", VDict owa_url)].

Definition owa_unquoted_body : string :=
  "see /owa/auth/15.1.2.3/ and /owa/2.0.0.0/ here".
Definition owa_unquoted_resp : dict :=
  response_of owa_req [("body", VStr owa_unquoted_body)].
Definition owa_unquoted_input : value := VDict (result_of owa_unquoted_resp).

(** The logon page answered with a body of [null]. *)
Definition owa_null_resp : dict := response_of owa_req [("body", VNone)].
Definition owa_null_input : value := VDict (result_of owa_null_resp).

Definition owa_body : string :=
  "<a href=" ++ String dquote "/owa/auth/15.1.2.3/x.css" ++ String dquote ">"
  ++ "<a href=" ++ String dquote "/owa/2.0.0.0/y.js" ++ String dquote ">".
Definition owa_resp : dict := response_of owa_req [("body", VStr owa_body)].
Definition owa_input : value := VDict (result_of owa_resp).

(** A zgrab2 result, under a [result] wrapper, with a named header and
    an [unknown] bucket. *)
Definition headers_bucket : list (string * value) :=
  [("x_custom", VList [VStr "1"])].

Definition sample_headers : dict :=
  entries [("content_type", VList [VStr "text/html"]);
           ("unknown",
            VList [obj [("key", VStr "x_custom");
                        ("value", VList [VStr "1"])]])].

Definition headers_req : dict := entries [("method", VStr "GET")].
Definition headers_resp : dict :=
  response_of headers_req [("headers", VDict sample_headers)].
Definition wrapped_input : value :=
  obj [("result", VDict (result_of headers_resp))].

(** * Statements, invariants and postconditions *)

(** * Running the stages *)
Definition mk_state (data : value) (hostrec : dict) (log : list string) :=
  {| st_data := data; st_hostrec := hostrec; st_log := log |}.

(** The required fields that [resp] lacks, in the order of line 56. *)
Definition lacking (resp : dict) : list string :=
  filter (fun f => negb (has_key f resp)) needed_fields.

Section Continuation.

Variable E : collaborators.

(** The statements after the required-field check, lines 65-216. *)
Definition after_check (resp : value) : M value :=
  req <- lift (getitem resp "request") ;;
  url <- lift (py_get req "url" VNone) ;;
  res <- tls_stage E req base_record ;;
  port <- port_stage E resp req url res ;;
  generic_stage E resp req url port res.

End Continuation.

(** The hostname list of a host record; a record without the entry has
    none yet. *)
Definition hostnames_of (h : dict) : option (list value) :=
  match getk "hostnames" h with
  | None => Some []
  | Some (VList l) => Some l
  | Some _ => None
  end.

(** [h'] is [h] with hostnames appended to its hostname list. *)
Definition host_ext (h h' : dict) : Prop :=
  h' = h
  \/ exists l ext, hostnames_of h = Some l
                   /\ h' = setk "hostnames" (VList (l ++ ext)) h.

(** A computation only ever appends to the hostname list. *)
Definition appends_only {A} (m : M A) : Prop :=
  forall s, host_ext (st_hostrec s) (st_hostrec (fst (m s))).

(** * Postconditions

    [post m Qn Qr]: when [m] falls through its value satisfies [Qn], when
    it returns the value returned satisfies [Qr]. *)
Definition post {A} (m : M A) (Qn : A -> Prop) (Qr : value -> Prop) : Prop :=
  forall s,
    match snd (m s) with
    | Normal a => Qn a
    | Returns v => Qr v
    | Raises _ => True
    end.

(** * The record keeps its entries *)
(** [res'] has the entries of [res], but for [scripts]. *)
Definition same_but_scripts (res res' : dict) : Prop :=
  forall k, k <> "scripts" -> getk k res' = getk k res.

(** The text after the first [:] of a host. *)
Definition after_colon (host : string) : string :=
  nth 1 (split_once ":" host) "".

(** The port written in the host of the URL, if any. *)
Definition explicit_port (url : value) : option Z :=
  match field "host" url with
  | Some (VStr host) =>
      if str_contains host ":" then py_int (after_colon host) else None
  | _ => None
  end.

(** The request has a non-empty entry [k]. *)
Definition entry_truthy (k : string) (req : value) : bool :=
  match field k req with
  | Some v => truthy v
  | None => false
  end.

(** The port of a record, as the statement of port inference gives it,
    with the test the code makes when there is no URL. *)
Definition expected_port (req url : value) : Z :=
  if truthy url then
    match explicit_port url with
    | Some port => port
    | None =>
        match field "scheme" url with
        | Some (VStr "https") => 443
        | _ => 80
        end
    end%Z
  else if entry_truthy "tls_handshake" req || entry_truthy "tls_log" req
       then 443 else 80.

(** [req.get('url')] *)
Definition url_of (req : dict) : value :=
  match getk "url" req with
  | Some url => url
  | None => VNone
  end.

(** The fingerprint matcher yields no entry [k]: it identifies the
    service and leaves the other entries of the record alone. *)
Definition fingerprint_keeps (E : collaborators) (k : string) : Prop :=
  forall banner proto probe,
    getk k (match_nmap_svc_fp E banner proto probe) = None.

(** [v] is a record with a port, and the port is [port] unless the
    fingerprint matcher overrides it. *)
Definition reports (E : collaborators) (port : Z) (v : value) : Prop :=
  exists r, v = VDict r /\ has_key "port" r = true
            /\ (fingerprint_keeps E "port" -> getk "port" r = Some (VInt port)).

(** Lines 198-199: [if info: res.update(info)] *)
Definition merged (r info : dict) : dict :=
  match info with
  | [] => r
  | _ => fst (dict_update r (VDict info))
  end.

Section Reported.

Variable E : collaborators.

(** A call returns [{}] or a record with the port of its request. *)
Definition port_reported (resp v : value) : Prop :=
  v = VDict []
  \/ exists req url,
       getitem resp "request" = Ok req /\ py_get req "url" VNone = Ok url
       /\ reports E (expected_port req url) v.

End Reported.

(** The scripts as the code builds them. *)
Definition ssl_cert_script (output : string) (info : list value) : value :=
  obj [("id", VStr "ssl-cert"); ("output", VStr output);
       ("ssl-cert", VList info)].

(** The [http-git] script of lines 119-124. *)
Definition http_git_script (repository : string) : value :=
  obj [("id", VStr "http-git");
       ("output", VStr (nl ++ "  " ++ repository ++ nl
                        ++ "    Git repository found!" ++ nl));
       ("http-git",
        VList [obj [("repository", VStr repository);
                    ("files-found", VList [VStr ".git/index"])]])].

(** What the TLS step makes of the base record: nothing, the tunnel, or
    the tunnel and an [ssl-cert] script. *)
Inductive tls_result (res : dict) : dict -> Prop :=
| tls_none : tls_result res res
| tls_tunnel : tls_result res (setk "service_tunnel" (VStr "ssl") res)
| tls_cert (output : string) (info : list value) :
    info <> [] ->
    tls_result res
      (setk "scripts" (VList [ssl_cert_script output info])
         (setk "service_tunnel" (VStr "ssl") res)).

(** [resp.get('status_code') == 200] *)
Definition status_is_200 (resp : dict) : bool :=
  match getk "status_code" resp with
  | Some status => eq_int status 200
  | None => false
  end.

(** [resp.get('body', '')] *)
Definition body_or_empty (resp : dict) : value :=
  match getk "body" resp with
  | Some body => body
  | None => VStr ""
  end.

(** The content checks of the two detectors fail. *)
Definition git_check_fails (resp : dict) : Prop :=
  status_is_200 resp = false
  \/ exists body, body_or_empty resp = VStr body
                  /\ startswith body "DIRC" = false.

Definition owa_check_fails (resp : dict) : Prop :=
  status_is_200 resp = false
  \/ exists body, body_or_empty resp = VStr body
                  /\ finditer _EXPR_OWA_VERSION body = [].

(** The scripts a detector finds in the record: none, or [ssl-cert]. *)
Definition tls_scripts (before : list value) : Prop :=
  before = []
  \/ exists output info, info <> [] /\ before = [ssl_cert_script output info].

(** * The matcher only finds words of the pattern *)
(** The words of a regular expression. *)
Inductive lang : regex -> string -> Prop :=
| lang_char (p : ascii -> bool) (c : ascii) :
    p c = true -> lang (RChar p) (String c "")
| lang_seq (r1 r2 : regex) (w1 w2 : string) :
    lang r1 w1 -> lang r2 w2 -> lang (RSeq r1 r2) (w1 ++ w2)
| lang_opt_none (r : regex) : lang (ROpt r) ""
| lang_opt_some (r : regex) (w : string) : lang r w -> lang (ROpt r) w
| lang_star_nil (r : regex) : lang (RStar r) ""
| lang_star_cons (r : regex) (w1 w2 : string) :
    lang r w1 -> lang (RStar r) w2 -> lang (RStar r) (w1 ++ w2).

(** A successful match of [r] consumed a word of [r] and then ran its
    continuation on the rest. *)
Definition sound_at (A : Type) (r : regex) : Prop :=
  forall (s : string) (k : string -> option A) (a : A),
    rmatch r s k = Some a ->
    exists w s', s = w ++ s' /\ lang r w /\ k s' = Some a.

(** * The versions found have a sort key *)
Fixpoint all_digits (s : string) : bool :=
  match s with
  | "" => true
  | String c s' => is_digit c && all_digits s'
  end.

(** A text that [int] does not refuse for its number of digits. *)
Definition int_sized (s : string) : bool :=
  (count_digits s <=? int_max_str_digits)%Z.

(** A version all of whose parts, the texts between its dots, are. *)
Definition within_limit (v : string) : bool :=
  forallb int_sized (split_all "." v).

(** Text made of two or more runs of decimal digits joined by dots. *)
Definition dotted (v : string) : Prop :=
  exists nums,
    v = join "." nums /\ (2 <= List.length nums)%nat
    /\ Forall (fun n => all_digits n = true /\ n <> "") nums.

(** One [[0-9]+\.] of the version group. *)
Definition digits_dot : regex :=
  RSeq (RPlus (RChar is_digit)) (lit false "." "").

(** The [http-app] script of lines 148-154. *)
Definition http_app_script (path output version : string) : value :=
  obj [("id", VStr "http-app");
       ("output", VStr output);
       ("http-app",
        VList [obj [("path", VStr path);
                    ("application", VStr "OWA");
                    ("version", VStr version)]])].

(** The output text of the [http-app] script for the sorted versions. *)
Definition owa_output (path : string) (versions : list string) : string :=
  if (1 <? List.length versions)%nat
  then "OWA: path " ++ path ++ ", version " ++ join " / " versions
       ++ " (multiple versions found!)"
  else "OWA: path " ++ path ++ ", version " ++ hd "" versions.

(** ** The headers, in the words of the specification *)
(** The [unknown] bucket holds entries [{key, value}] with text keys:
    [bucket] lists them as pairs. *)
Definition bucket_reads (unknown : list value) (bucket : list (string * value))
  : Prop :=
  Forall2 (fun unk kv => getitem unk "key" = Ok (VStr (fst kv))
                         /\ getitem unk "value" = Ok (snd kv))
          unknown bucket.

(** [bucket] is the [unknown] bucket of the headers, empty if there is
    none. *)
Definition headers_shape (hdrs : dict) (bucket : list (string * value))
  : Prop :=
  match getk "unknown" hdrs with
  | None => bucket = []
  | Some (VList unknown) => bucket_reads unknown bucket
  | Some _ => False
  end.

(** The header mapping with the bucket flattened into it: the bucket is
    gone and each of its entries is stored under its own key. *)
Definition flattened (hdrs : dict) (bucket : list (string * value)) : dict :=
  fold_left (fun h kv => setk (fst kv) (snd kv) h) bucket
            (dict_del (VStr "unknown") hdrs).

(** The values of a header, none for a value that cannot be iterated. *)
Definition values_of (v : value) : list value :=
  match py_iter v with
  | Ok l => l
  | Err _ => []
  end.

(** A header name with [_] replaced by [-]. *)
Definition header_name (k : value) : string :=
  match k with
  | VStr s => replace_char "_" "-" s
  | _ => ""
  end.

(** An entry [{name, value}] of the structured payload. *)
Definition header_entry (name : string) (val : value) : value :=
  obj [("name", VStr name); ("value", val)].

(** One [{name, value}] entry per header name and value. *)
Definition header_entries (headers : dict) : list value :=
  flat_map (fun kv => map (header_entry (header_name (fst kv)))
                          (values_of (snd kv))) headers.

(** No detector applies: there is no URL, or its path has neither
    signature. *)
Definition no_detector (url : value) : Prop :=
  truthy url = false
  \/ exists path, field "path" url = Some (VStr path)
                  /\ endswith path "/.git/index" = false
                  /\ endswith path "/owa/auth/logon.aspx" = false.

Section HeaderText.

Variable E : collaborators.

(** One [name: value] line per header name and value. *)
Definition header_text (headers : dict) : list string :=
  flat_map (fun kv => map (fun val => header_name (fst kv) ++ ": "
                                      ++ py_str E val)
                          (values_of (snd kv))) headers.

(** The lines added for the method of the request. *)
Definition request_type (req : dict) : list string :=
  match getk "method" req with
  | Some method =>
      if truthy method
      then [""; "(Request type: " ++ py_str E method ++ ")"]
      else []
  | None => []
  end.

(** The [http-headers] script for a status line and flattened headers. *)
Definition http_headers_script (line : string) (headers req : dict) : value :=
  obj [("id", VStr "http-headers");
       ("output",
        VStr (join nl ((line :: header_text headers) ++ request_type req)%list));
       ("http-headers",
        VList (header_entry "_status" (VStr line) :: header_entries headers))].

End HeaderText.

(** The caller's data with the headers of its response replaced. *)
Definition with_headers (d resp headers : dict) : dict :=
  setk "response" (VDict (setk "headers" (VDict headers) resp)) d.


Section Returned.

Variable E : collaborators.


End Returned.

(** * What a call does to its [data] argument

    [data_post m D Qn Qr Qe]: run on a state whose data is [D], [m] leaves
    data that satisfy [Qn a] when it falls through with [a], [Qr v] when
    it returns [v] and [Qe] when it raises. *)
Definition data_post {A} (m : M A) (D : value) (Qn : A -> value -> Prop)
    (Qr : value -> value -> Prop) (Qe : value -> Prop) : Prop :=
  forall s, st_data s = D ->
    match m s with
    | (s', Normal a) => Qn a (st_data s')
    | (s', Returns v) => Qr v (st_data s')
    | (s', Raises _) => Qe (st_data s')
    end.

(** A computation that does not write to the data. *)
Definition keeps_data {A} (m : M A) : Prop :=
  forall s, st_data (fst (m s)) = st_data s.

(** [X'] is [X], or [X] with its [response] entry rewritten. *)
Definition data_ext (X X' : value) : Prop :=
  X' = X \/ exists d v, X = VDict d /\ X' = VDict (setk "response" v d).

(** A computation that at most rewrites the [response] entry. *)
Definition rewrites_response {A} (m : M A) : Prop :=
  forall s, data_ext (st_data s) (st_data (fst (m s))).

(** The shape a call leaves: no [result] wrapper, and no [unknown]
    bucket in the headers of the response. *)
Definition reconciled (D : dict) : Prop :=
  getk "result" D = None
  /\ forall resp hdrs,
       getk "response" D = Some resp -> getitem resp "headers" = Ok hdrs ->
       py_in "unknown" hdrs <> Ok true.

Section Pops.

Variable E : collaborators.

(** What [pop_unknown] does to data [D] on the headers of [resp]. *)
Definition pops (resp D D' : value) (Qe : value -> Prop) : Prop :=
  forall h, getitem resp "headers" = Ok h ->
    data_post (pop_unknown h) D (fun _ X => X = D') (fun _ _ => False) Qe.

End Pops.

(** The keys of a dict are distinct. *)
Fixpoint distinct_keys (d : dict) : bool :=
  match d with
  | [] => true
  | (k, _) :: d' =>
      match dict_get k d' with
      | None => distinct_keys d'
      | Some _ => false
      end
  end.

(** * What a call leaves of the log and of the host record *)
(** A computation that leaves the component [proj] of the state as it
    is, however it ends. *)
Definition preserves {X A} (proj : state -> X) (m : M A) : Prop :=
  forall s, proj (fst (m s)) = proj s.

(** The two warnings of lines 53 and 59-63: the second names a non-empty
    selection of the required fields. *)
Definition warning_text (msg : string) : Prop :=
  msg = missing_response_msg
  \/ exists missing,
       missing <> [] /\ incl missing needed_fields
       /\ msg = missing_fields_msg missing.

(** A computation that logs nothing, or logs one warning and returns the
    empty mapping with the host record as it was. *)
Definition warns {A} (m : M A) : Prop :=
  forall s,
    st_log (fst (m s)) = st_log s
    \/ exists msg,
         warning_text msg
         /\ st_log (fst (m s)) = (st_log s ++ [msg])%list
         /\ st_hostrec (fst (m s)) = st_hostrec s
         /\ snd (m s) = Returns (VDict []).

(** * The hostnames a call appends *)
(** The certificates [create_ssl_cert] reads from the request (lines
    70-86): those of the leaf certificate, when the TLS data of the
    request have one and it is text. *)
Definition certificates (E : collaborators) (req : value) : list value :=
  match find_tls req with
  | Ok VNone => []
  | Ok tls =>
      match leaf_certificate tls with
      | Ok (Some (VStr raw)) => snd (create_ssl_cert E raw)
      | _ => []
      end
  | Err _ => []
  end.

(** Lines 93-95: each certificate in turn appends its hostnames to the
    list the ones before it left. *)
Definition grow_hostnames (E : collaborators) (info l : list value)
  : list value :=
  fold_left (fun acc cert => (acc ++ add_cert_hostnames E cert acc)%list)
            info l.

(** * The entries of a record *)
(** Lines 70-80: the tunnel recorded for a request, [ssl] when TLS data
    are found under [tls_handshake] or under [tls_log.handshake_log]. *)
Definition tunnel_of (req : value) : option value :=
  match find_tls req with
  | Ok VNone => None
  | Ok _ => Some (VStr "ssl")
  | Err _ => None
  end.

(** [v] is the empty mapping, or a record with the entries of the base
    record and the tunnel of [req], but for what the fingerprint matcher
    yields. *)
Definition entries_kept (E : collaborators) (req v : value) : Prop :=
  v = VDict []
  \/ exists r,
       v = VDict r
       /\ (forall k, k <> "scripts" -> k <> "port" -> k <> "service_tunnel" ->
                     fingerprint_keeps E k -> getk k r = getk k base_record)
       /\ (fingerprint_keeps E "service_tunnel" ->
           getk "service_tunnel" r = tunnel_of req).

(** [r] has the entries of [res] but for [scripts], [port] and what the
    fingerprint matcher yields. *)
Definition frames (E : collaborators) (res r : dict) : Prop :=
  forall k, k <> "scripts" -> k <> "port" -> fingerprint_keeps E k ->
            getk k r = getk k res.

(** * The scripts of a record, in order *)
(** Lines 86-92: the [ssl-cert] script, when [create_ssl_cert] finds
    certificates in the leaf certificate of the request. *)
Definition certificate_scripts (E : collaborators) (req : value)
  : list value :=
  match find_tls req with
  | Ok VNone => []
  | Ok tls =>
      match leaf_certificate tls with
      | Ok (Some (VStr raw)) =>
          match snd (create_ssl_cert E raw) with
          | [] => []
          | info => [ssl_cert_script (fst (create_ssl_cert E raw)) info]
          end
      | _ => []
      end
  | Err _ => []
  end.

(** Lines 172-174: the headers once the [unknown] bucket is popped and
    its entries are stored under their own keys. *)
Definition flat_headers (hdrs : dict) : dict :=
  match getk "unknown" hdrs with
  | Some unknown =>
      match py_iter unknown with
      | Ok items => fst (flatten_unknown items (dict_del (VStr "unknown") hdrs))
      | Err _ => hdrs
      end
  | None => hdrs
  end.

(** Line 169: the protocol name and the status line. *)
Definition status_text (E : collaborators) (resp : dict) : string :=
  match rbind (getitem (VDict resp) "protocol") (fun p => getitem p "name"),
        getk "status_line" resp with
  | Ok name, Some line => py_str E name ++ " " ++ py_str E line
  | _, _ => ""
  end.

(** Lines 189-194: the [http-server-header] script of flattened headers
    with a non-empty [server] entry. *)
Definition server_scripts (h : dict) : list value :=
  match getk "server" h with
  | Some server =>
      if truthy server then
        match getitem0 server with
        | Ok s0 => [obj [("id", VStr "http-server-header");
                         ("output", s0);
                         ("http-server-header", server)]]
        | Err _ => []
        end
      else []
  | None => []
  end.

(** Lines 166-194: the scripts added for the headers of a response. *)
Definition header_scripts (E : collaborators) (resp req : dict)
  : list value :=
  match getk "headers" resp with
  | Some (VDict hdrs) =>
      match hdrs with
      | [] => []
      | _ =>
          http_headers_script E (status_text E resp) (flat_headers hdrs) req
          :: server_scripts (flat_headers hdrs)
      end
  | _ => []
  end.

(** Lines 202-215: the scripts added for a body: its content, its title
    when the title pattern is found, and the listing that
    [create_http_ls] may read from it. *)
Definition body_scripts (E : collaborators) (body : string) (url : value)
  : list value :=
  (obj [("id", VStr "http-content");
        ("output", VStr (nmap_encode_data E body))]
   :: match re_search _EXPR_TITLE body with
      | Some title => [obj [("id", VStr "http-title");
                            ("output", VStr title);
                            ("http-title", obj [("title", VStr title)])]]
      | None => []
      end
   ++ match create_http_ls E body url with
      | Some script_http_ls => [script_http_ls]
      | None => []
      end)%list.

(** Lines 200-215: the scripts added for the body of a response, none
    when it has no body or an empty one. *)
Definition body_part (E : collaborators) (resp : dict) (url : value)
  : list value :=
  match getk "body" resp with
  | Some (VStr body) =>
      match body with
      | "" => []
      | _ => body_scripts E body url
      end
  | _ => []
  end.

(** * Lookups without a default *)
(** A URL on which no detector applies and the port is inferred without
    an exception: none (or an empty one), or an object whose host, if
    any, is text and whose path is text without a signature. *)
Definition plain_url (u : value) : Prop :=
  truthy u = false
  \/ exists url path,
       u = VDict url /\ url <> [] /\ host_typed url
       /\ getk "path" url = Some (VStr path)
       /\ endswith path "/.git/index" = false
       /\ endswith path "/owa/auth/logon.aspx" = false.

(** [resp['protocol']['name']], lines 164 and 169 *)
Definition protocol_name (resp : dict) : result value :=
  rbind (getitem (VDict resp) "protocol") (fun p => getitem p "name").

(** * The title pattern *)
(** [s.lower()], on the letters A to Z *)
Fixpoint lower_string (s : string) : string :=
  match s with
  | "" => ""
  | String c s' => String (lower c) (lower_string s')
  end.

(** No character of [s] is [c]. *)
Fixpoint lacks (c : ascii) (s : string) : bool :=
  match s with
  | "" => true
  | String x s' => negb (x =? c)%char && lacks c s'
  end.

(** * The first title of a page *)
(** No opening title tag, [<title] in any case, starts at a position
    of [a] in the text [a ++ rest]. *)
Fixpoint no_open_tag (a rest : string) : bool :=
  match a with
  | "" => true
  | String c a' =>
      negb (startswith (lower_string (a ++ rest)) "<title")
      && no_open_tag a' rest
  end.

Section StarLoop.

Context {A : Type}.

Variable r : regex.

Variable k : string -> option A.

(** The loop of [rmatch] on a star, under a name: [fuel] repetitions
    at most, each consuming at least one character. *)
Fixpoint star_loop (fuel : nat) (s : string) : option A :=
  match fuel with
  | O => k s
  | S fuel' =>
      match rmatch r s (fun s1 =>
              if (String.length s1 <? String.length s)%nat
              then star_loop fuel' s1 else None) with
      | Some a => Some a
      | None => k s
      end
  end.

End StarLoop.

(** * The versions of the OWA detector *)
(** The order of line 136 on versions: by the list of the integers
    between their dots. *)
Definition version_le (a b : string) : Prop :=
  exists ka kb, version_key a = Some ka /\ version_key b = Some kb
                /\ list_lt kb ka = false.

(** The order of [sorted] on the keys of a keyed list. *)
Definition key_le {A} (x y : list Z * A) : Prop :=
  list_lt (fst y) (fst x) = false.

(** The two ways in which the OWA pattern lets a version begin. *)
Definition owa_marker (m : string) : Prop :=
  m = String dquote "/owa/" \/ m = String dquote "/owa/auth/".

(** * The port written in the host *)
(** The value of a decimal numeral read after the digits of [acc]. *)
Fixpoint uint_val (acc : Z) (d : Decimal.uint) : Z :=
  match d with
  | Decimal.Nil => acc
  | Decimal.D0 l => uint_val (10 * acc + 0) l
  | Decimal.D1 l => uint_val (10 * acc + 1) l
  | Decimal.D2 l => uint_val (10 * acc + 2) l
  | Decimal.D3 l => uint_val (10 * acc + 3) l
  | Decimal.D4 l => uint_val (10 * acc + 4) l
  | Decimal.D5 l => uint_val (10 * acc + 5) l
  | Decimal.D6 l => uint_val (10 * acc + 6) l
  | Decimal.D7 l => uint_val (10 * acc + 7) l
  | Decimal.D8 l => uint_val (10 * acc + 8) l
  | Decimal.D9 l => uint_val (10 * acc + 9) l
  end.

(** Lines 104-107: the port of a URL whose host gives none. *)
Definition default_port (url : dict) : Z :=
  match getk "scheme" url with
  | Some scheme => if eq_str scheme "https" then 443 else 80
  | None => 80
  end.

(** * The banner and the fingerprint *)
(** Lines 189-196: the server line of the banner, for flattened headers
    with a non-empty [server] entry. *)
Definition server_line (E : collaborators) (resp : dict) : string :=
  match getk "headers" resp with
  | Some (VDict hdrs) =>
      match hdrs with
      | [] => ""
      | _ =>
          match getk "server" (flat_headers hdrs) with
          | Some server =>
              if truthy server then
                match getitem0 server with
                | Ok (VStr s0) =>
                    "Server: " ++ nmap_decode_data E s0 ++ crlf ++ crlf
                | _ => ""
                end
              else ""
          | None => ""
          end
      end
  | _ => ""
  end.

(** Lines 164-165 and 195-196: the banner rebuilt for the fingerprint
    matcher. *)
Definition banner_of (E : collaborators) (resp : dict) : string :=
  match protocol_name resp, getk "status_line" resp with
  | Ok (VStr name), Some (VStr line) =>
      (nmap_decode_data E name ++ " " ++ nmap_decode_data E line ++ crlf)
      ++ server_line E resp
  | _, _ => ""
  end.

(** Collaborators as in [sample], but for a matcher that reports the
    banner it is given as the product, on port 8000. *)
Definition sample_match : collaborators :=
  {| create_ssl_cert := create_ssl_cert sample;
     add_cert_hostnames := add_cert_hostnames sample;
     nmap_decode_data := nmap_decode_data sample;
     nmap_encode_data := nmap_encode_data sample;
     match_nmap_svc_fp := fun banner _ _ =>
       entries [("service_product", VStr banner); ("port", VInt 8000)];
     create_http_ls := create_http_ls sample;
     py_repr := py_repr sample;
     set_iter := set_iter sample;
     set_iter_perm := set_iter_perm sample |}.

(** A response with a server header, to a request without URL. *)
Definition server_resp : dict :=
  response_of [] [("headers", obj [("server", VList [VStr "nginx"])])].

Definition server_input : value := VDict (result_of server_resp).

(** A response to [/x/.git/index] that is no Git index and whose
    headers have an [unknown] bucket. *)
Definition bucket_miss_resp : dict :=
  response_of git_req [("headers", VDict sample_headers)].

Definition bucket_miss_input : value := VDict (result_of bucket_miss_resp).

(** * The entries of a record, call by call *)
(** [r] has the entries of [res] but for [scripts] and [port]. *)
Definition kept_but_port (res r : dict) : Prop :=
  forall k, k <> "scripts" -> k <> "port" -> getk k r = getk k res.

(** The URL has a path with the signature of a detector. *)
Definition on_detector (url : value) : Prop :=
  exists path,
    field "path" url = Some (VStr path)
    /\ (endswith path "/.git/index" = true
        \/ endswith path "/owa/auth/logon.aspx" = true).

(** Line 199: an entry of the record after the fingerprint [info] is
    merged over it. *)
Definition overridden (info res : dict) (k : string) : option value :=
  match getk k info with
  | Some x => Some x
  | None => getk k res
  end.

(** Collaborators as in [sample], but for a matcher that names the
    service [http-alt] whatever the banner. *)
Definition sample_naming : collaborators :=
  {| create_ssl_cert := create_ssl_cert sample;
     add_cert_hostnames := add_cert_hostnames sample;
     nmap_decode_data := nmap_decode_data sample;
     nmap_encode_data := nmap_encode_data sample;
     match_nmap_svc_fp := fun _ _ _ =>
       entries [("service_name", VStr "http-alt")];
     create_http_ls := create_http_ls sample;
     py_repr := py_repr sample;
     set_iter := set_iter sample;
     set_iter_perm := set_iter_perm sample |}.

(** * Beyond the limit of [int] *)
(** A run of [n] digits. *)
Fixpoint ones (n : nat) : string :=
  match n with
  | O => ""
  | S n' => String "1" (ones n')
  end.

(** An OWA logon page whose version has a part of 4301 digits. *)
Definition owa_long_body : string :=
  String dquote "/owa/" ++ ones 4301 ++ ".1" ++ "/".

Definition owa_long_resp : dict :=
  response_of owa_req [("body", VStr owa_long_body)].

Definition owa_long_input : value := VDict (result_of owa_long_resp).

(** * Proofs *)

(** * Lemmas on keys and dictionaries *)
Lemma key_eqb_sym (a b : value) : key_eqb a b = key_eqb b a.
Proof.
  destruct a, b; simpl; try reflexivity;
    try apply String.eqb_sym; try apply Z.eqb_sym.
  destruct b, b0; reflexivity.
Qed.

Lemma key_eqb_trans (a b c : value) :
  key_eqb a b = true -> key_eqb b c = true -> key_eqb a c = true.
Proof.
  destruct a, b, c; simpl; intros H1 H2; try discriminate; try reflexivity;
    repeat match goal with
      | H : (_ =? _)%Z = true |- _ => apply Z.eqb_eq in H
      | H : (_ =? _)%string = true |- _ => apply String.eqb_eq in H
      | H : Bool.eqb _ _ = true |- _ => apply Bool.eqb_prop in H
      end; subst;
    try apply Z.eqb_refl; try apply String.eqb_refl;
    try apply Bool.eqb_reflx.
  all: repeat match goal with b : bool |- _ => destruct b end;
       try reflexivity; try discriminate; try lia.
Qed.

Lemma key_eqb_refl (k : value) : hashable k = true -> key_eqb k k = true.
Proof.
  destruct k; simpl; intros H; try discriminate; try reflexivity.
  - apply Bool.eqb_reflx.
  - apply Z.eqb_refl.
  - apply String.eqb_refl.
Qed.

Lemma dict_get_set_same (k v : value) (d : dict) :
  hashable k = true -> dict_get k (dict_set k v d) = Some v.
Proof.
  intros Hk. induction d as [|[k' v'] d IH]; simpl.
  - now rewrite key_eqb_refl.
  - destruct (key_eqb k' k) eqn:Hkk; simpl; now rewrite Hkk.
Qed.

Lemma dict_get_set_other (k q v : value) (d : dict) :
  key_eqb k q = false -> dict_get q (dict_set k v d) = dict_get q d.
Proof.
  intros Hkq. induction d as [|[k' v'] d IH]; simpl.
  - now rewrite Hkq.
  - destruct (key_eqb k' k) eqn:Hkk; simpl.
    + destruct (key_eqb k' q) eqn:Hq; [|reflexivity].
      rewrite key_eqb_sym in Hkk.
      now rewrite (key_eqb_trans _ _ _ Hkk Hq) in Hkq.
    + now rewrite IH.
Qed.

Lemma getk_setk_same (k : string) (v : value) (d : dict) :
  getk k (setk k v d) = Some v.
Proof. now apply dict_get_set_same. Qed.

Lemma getk_setk_other (k q : string) (v : value) (d : dict) :
  k <> q -> getk q (setk k v d) = getk q d.
Proof.
  intros H. apply dict_get_set_other. simpl. now apply String.eqb_neq.
Qed.

Lemma dict_set_nonempty (k v : value) (d : dict) : dict_set k v d <> [].
Proof. destruct d as [|[k' v'] d]; simpl; [|destruct (key_eqb k' k)]; discriminate. Qed.

Lemma dict_set_set (k v w : value) (d : dict) :
  hashable k = true ->
  dict_set k w (dict_set k v d) = dict_set k w d.
Proof.
  intros Hk. induction d as [|[k' v'] d IH]; simpl.
  - now rewrite key_eqb_refl.
  - destruct (key_eqb k' k) eqn:Hkk; simpl; rewrite Hkk; [reflexivity|].
    now rewrite IH.
Qed.

Lemma set_iter_nil (E : collaborators) : set_iter E [] = [].
Proof.
  apply Permutation_nil. exact (set_iter_perm E []).
Qed.

Lemma set_iter_in (E : collaborators) (l : list string) (x : string) :
  In x (set_iter E l) <-> In x l.
Proof.
  split; intros H.
  - apply (nodup_In string_dec).
    eapply Permutation_in; [apply Permutation_sym, set_iter_perm|exact H].
  - eapply Permutation_in; [apply set_iter_perm|].
    now apply nodup_In.
Qed.

Lemma set_iter_nonempty (E : collaborators) (l : list string) :
  l <> [] -> set_iter E l <> [].
Proof.
  destruct l as [|x l]; [congruence|]. intros _ H.
  assert (Hx : In x (set_iter E (x :: l))) by (apply set_iter_in; now left).
  now rewrite H in Hx.
Qed.

(** C1 (the code departs from the claim).  The claim: no well-formed
    input, however incomplete, makes the call raise.  On a request whose
    URL has a host but no path, [url.get('path')] is [None] and its
    [endswith] raises [AttributeError], whatever the collaborators and
    the host record are. *)
Theorem url_without_path_raises (E : collaborators) (hostrec : dict) :
  out_result (zgrap_parser_http E no_path_input hostrec) = Err AttributeError.
Proof.
  unfold zgrap_parser_http, parser_body, bind. cbn.
  rewrite set_iter_nil. cbn. reflexivity.
Qed.

Lemma bind_normal {A B} (m : M A) (f : A -> M B) (s s' : state) (a : A) :
  m s = (s', Normal a) -> bind m f s = f a s'.
Proof. intros H. unfold bind. now rewrite H. Qed.

Lemma bind_returns {A B} (m : M A) (f : A -> M B) (s s' : state) (v : value) :
  m s = (s', Returns v) -> bind m f s = (s', Returns v).
Proof. intros H. unfold bind. now rewrite H. Qed.

Lemma bind_raises {A B} (m : M A) (f : A -> M B) (s s' : state) (e : exn) :
  m s = (s', Raises e) -> bind m f s = (s', Raises e).
Proof. intros H. unfold bind. now rewrite H. Qed.

Section Stages.

Variable E : collaborators.

Lemma working_shape_truthy (data : value) (d : dict) :
  working_shape data d -> truthy data = true.
Proof.
  intros (d0 & -> & Hne & _). destruct d0; [congruence|reflexivity].
Qed.

Lemma reconcile_shape (data : value) (d hostrec : dict) (log : list string) :
  working_shape data d ->
  reconcile (mk_state data hostrec log)
  = (mk_state (VDict d) hostrec log, Normal tt).
Proof.
  intros (d0 & -> & Hne & H).
  unfold reconcile, bind, mk_state. cbn. unfold has_key.
  destruct (getk "result" d0) as [r|] eqn:Hr; cbn.
  - destruct r; try contradiction. subst d. cbn. reflexivity.
  - now subst d.
Qed.

Lemma check_response_accepted (d resp req hostrec : dict) (log : list string) :
  accepted d resp req ->
  check_response E (mk_state (VDict d) hostrec log)
  = (mk_state (VDict d) hostrec log, Normal (VDict resp)).
Proof.
  intros [H1 H2 H3 H4].
  assert (H2' : has_key "request" resp = true)
    by (unfold has_key; now rewrite H2).
  unfold check_response, bind, mk_state. cbn. unfold has_key at 1.
  rewrite H1. cbn. rewrite H2', H3, H4. cbn.
  rewrite set_iter_nil. reflexivity.
Qed.

End Stages.

Section Top.

Variable E : collaborators.

Lemma parser_body_shape (data : value) (d hostrec : dict) (log : list string) :
  working_shape data d ->
  parser_body E (mk_state data hostrec log)
  = bind (check_response E) (after_check E) (mk_state (VDict d) hostrec log).
Proof.
  intros H. unfold parser_body.
  rewrite (bind_normal _ _ _ (mk_state data hostrec log) data) by reflexivity.
  rewrite (working_shape_truthy _ _ H). cbn [negb].
  rewrite (bind_normal _ _ _ _ _ (reconcile_shape _ _ _ _ H)).
  reflexivity.
Qed.

Lemma run_result (data : value) (hostrec : dict) (s : state) (c : ctl value) :
  parser_body E (mk_state data hostrec []) = (s, c) ->
  zgrap_parser_http E data hostrec
  = {| out_data := st_data s; out_hostrec := st_hostrec s;
       out_log := st_log s;
       out_result := match c with
                     | Normal v | Returns v => Ok v
                     | Raises e => Err e
                     end |}.
Proof.
  intros H. unfold zgrap_parser_http. fold (mk_state data hostrec []).
  now rewrite H.
Qed.

(** C5, amended: when the working shape has no [response] entry, or its
    response is a JSON object that lacks some of [request],
    [status_code], [status_line], the call returns the empty mapping,
    raises nothing and logs exactly one warning: the one for the
    missing response, or the one that names the missing fields (in the
    order in which the set of them is iterated). *)
Theorem missing_field_warns (data : value) (d hostrec : dict) :
  working_shape data d ->
  getk "response" d = None
  \/ (exists resp, getk "response" d = Some (VDict resp) /\ lacking resp <> []) ->
  let out := zgrap_parser_http E data hostrec in
  out_result out = Ok (VDict [])
  /\ exists msg, out_log out = [msg]
     /\ (getk "response" d = None -> msg = missing_response_msg)
     /\ (forall resp, getk "response" d = Some (VDict resp) ->
         exists missing, Permutation (lacking resp) missing
                         /\ msg = missing_fields_msg missing).
Proof.
  intros Hshape Hmiss out.
  assert (Hrun : exists msg,
    parser_body E (mk_state data hostrec [])
    = (mk_state (VDict d) hostrec [msg], Returns (VDict []))
    /\ (getk "response" d = None -> msg = missing_response_msg)
    /\ (forall resp, getk "response" d = Some (VDict resp) ->
         exists missing, Permutation (lacking resp) missing
                         /\ msg = missing_fields_msg missing)).
  { rewrite (parser_body_shape _ _ _ _ Hshape).
    destruct Hmiss as [Hnone | (resp & Hresp & Hlack)].
    - exists missing_response_msg. split; [|split].
      + unfold check_response, bind, mk_state. cbn. unfold has_key.
        rewrite Hnone. reflexivity.
      + reflexivity.
      + intros resp Hresp. congruence.
    - pose proof (set_iter_nonempty E _ Hlack) as Hne.
      destruct (set_iter E (lacking resp)) as [|f fs] eqn:Hset; [congruence|].
      exists (missing_fields_msg (f :: fs)). split; [|split].
      + unfold check_response, bind, mk_state. cbn -[set_difference].
        unfold has_key. rewrite Hresp. cbn -[set_difference].
        change (set_difference needed_fields (VDict resp))
          with (Ok (lacking resp)).
        cbn -[lacking]. rewrite Hset. reflexivity.
      + intros Hnone. congruence.
      + intros resp' Hresp'. assert (resp' = resp) by congruence. subst resp'.
        exists (f :: fs). split; [|reflexivity].
        rewrite <- Hset.
        eapply Permutation_trans; [|apply set_iter_perm].
        rewrite nodup_fixed_point; [apply Permutation_refl|].
        apply NoDup_filter. unfold needed_fields.
        repeat constructor; simpl; intuition discriminate. }
  destruct Hrun as (msg & Hrun & H1 & H2).
  subst out. rewrite (run_result _ _ _ _ Hrun). cbn.
  split; [reflexivity|]. exists msg. auto.
Qed.

End Top.

Lemma host_ext_refl (h : dict) : host_ext h h.
Proof. now left. Qed.

Lemma host_ext_trans (h1 h2 h3 : dict) :
  host_ext h1 h2 -> host_ext h2 h3 -> host_ext h1 h3.
Proof.
  intros [->|(l & ext & Hl & ->)] H23; [exact H23|].
  destruct H23 as [->|(l' & ext' & Hl' & ->)].
  - right. now exists l, ext.
  - right. exists l, (ext ++ ext')%list. split; [exact Hl|].
    unfold hostnames_of in Hl'. rewrite getk_setk_same in Hl'.
    injection Hl' as <-. unfold setk. rewrite dict_set_set by reflexivity.
    now rewrite app_assoc.
Qed.

Lemma appends_only_bind {A B} (m : M A) (f : A -> M B) :
  appends_only m -> (forall a, appends_only (f a)) -> appends_only (bind m f).
Proof.
  intros Hm Hf s. unfold bind. specialize (Hm s).
  destruct (m s) as [s' [a|v|e]]; simpl in *; try exact Hm.
  eapply host_ext_trans; [exact Hm|apply Hf].
Qed.

Lemma appends_only_ret {A} (a : A) : appends_only (ret a).
Proof. intros s. apply host_ext_refl. Qed.

Lemma appends_only_return {A} (v : value) : appends_only (@return_ A v).
Proof. intros s. apply host_ext_refl. Qed.

Lemma appends_only_raise {A} (e : exn) : appends_only (@raise A e).
Proof. intros s. apply host_ext_refl. Qed.

Lemma appends_only_lift {A} (r : result A) : appends_only (lift r).
Proof. destruct r; intros s; apply host_ext_refl. Qed.

Lemma appends_only_get_data : appends_only get_data.
Proof. intros s. apply host_ext_refl. Qed.

Lemma appends_only_get_hostrec : appends_only get_hostrec.
Proof. intros s. apply host_ext_refl. Qed.

Lemma appends_only_set_data (v : value) : appends_only (set_data v).
Proof. intros s. apply host_ext_refl. Qed.

Lemma appends_only_warning (msg : string) : appends_only (warning msg).
Proof. intros s. apply host_ext_refl. Qed.

Lemma appends_only_add_hostnames (E : collaborators) (cert : value) :
  appends_only (add_hostnames E cert).
Proof.
  intros s. unfold add_hostnames, bind. cbn.
  destruct (getk "hostnames" (st_hostrec s)) as [v|] eqn:Hh.
  - destruct v; try apply host_ext_refl.
    right. exists l, (add_cert_hostnames E cert l). split; [|reflexivity].
    unfold hostnames_of. now rewrite Hh.
  - right. exists [], (add_cert_hostnames E cert []). split; [|reflexivity].
    unfold hostnames_of. now rewrite Hh.
Qed.

Lemma appends_only_for_each {A} (l : list A) (f : A -> M unit) :
  (forall a, appends_only (f a)) -> appends_only (for_each l f).
Proof.
  intros Hf. induction l as [|x l IH]; simpl.
  - apply appends_only_ret.
  - apply appends_only_bind; [apply Hf|intros _; exact IH].
Qed.

Create HintDb appends.

#[local] Hint Resolve appends_only_ret appends_only_return appends_only_raise
  appends_only_lift appends_only_get_data appends_only_get_hostrec
  appends_only_set_data appends_only_warning appends_only_add_hostnames
  appends_only_for_each : appends.

(** Splits a computation along its binds and case distinctions. *)
Ltac appends_step :=
  match goal with
  | |- appends_only (bind _ _) => apply appends_only_bind; [|intros]
  | |- appends_only (if ?c then _ else _) => destruct c
  | |- appends_only (let (_, _) := ?x in _) => destruct x
  | |- appends_only (match ?x with _ => _ end) => destruct x
  end.

Ltac appends := repeat appends_step; auto with appends.

Section Frame.

Variable E : collaborators.

Lemma appends_only_reconcile : appends_only reconcile.
Proof. unfold reconcile. appends. Qed.

Lemma appends_only_check_response : appends_only (check_response E).
Proof. unfold check_response. appends. Qed.

Lemma appends_only_tls_stage (req : value) (res : dict) :
  appends_only (tls_stage E req res).
Proof. unfold tls_stage. appends. Qed.

Lemma appends_only_port_stage (resp req url : value) (res : dict) :
  appends_only (port_stage E resp req url res).
Proof. unfold port_stage, git_detector, owa_detector. appends. Qed.

Lemma appends_only_generic_stage (resp req url : value) (port : Z) (res : dict) :
  appends_only (generic_stage E resp req url port res).
Proof.
  unfold generic_stage, headers_stage, body_stage, pop_unknown, write_headers.
  appends.
Qed.

Lemma appends_only_parser_body : appends_only (parser_body E).
Proof.
  unfold parser_body.
  appends;
    auto using appends_only_reconcile, appends_only_check_response,
      appends_only_tls_stage, appends_only_port_stage,
      appends_only_generic_stage.
Qed.

(** C9: whatever the call does (return or raise), every entry of the
    host record but [hostnames] is as before, and the host record is
    unchanged or its hostname list is the list before the call (empty
    if there was none) with hostnames appended. *)
Theorem hostrec_append_only (data : value) (hostrec : dict) :
  let out := zgrap_parser_http E data hostrec in
  (forall k, key_eqb (VStr "hostnames") k = false ->
             dict_get k (out_hostrec out) = dict_get k hostrec)
  /\ (out_hostrec out = hostrec
      \/ exists before added,
           hostnames_of hostrec = Some before
           /\ getk "hostnames" (out_hostrec out)
              = Some (VList (before ++ added))).
Proof.
  intros out.
  assert (H : host_ext hostrec (out_hostrec out)).
  { subst out. unfold zgrap_parser_http.
    pose proof (appends_only_parser_body
                  {| st_data := data; st_hostrec := hostrec; st_log := [] |}) as H.
    destruct (parser_body E _) as [s c]. exact H. }
  destruct H as [->|(l & ext & Hl & ->)].
  - split; [reflexivity|now left].
  - split.
    + intros k Hk. now apply dict_get_set_other.
    + right. exists l, ext. split; [exact Hl|apply getk_setk_same].
Qed.

End Frame.

Lemma post_bind {A B} (m : M A) (f : A -> M B) (Q1 : A -> Prop)
    (Q2 : B -> Prop) (Qr : value -> Prop) :
  post m Q1 Qr -> (forall a, Q1 a -> post (f a) Q2 Qr) -> post (bind m f) Q2 Qr.
Proof.
  intros Hm Hf s. unfold bind. specialize (Hm s).
  destruct (m s) as [s' [a|v|e]]; simpl in *; auto.
  apply (Hf a Hm).
Qed.

Lemma post_ret {A} (a : A) (Qn : A -> Prop) (Qr : value -> Prop) :
  Qn a -> post (ret a) Qn Qr.
Proof. intros H s. exact H. Qed.

Lemma post_return {A} (v : value) (Qn : A -> Prop) (Qr : value -> Prop) :
  Qr v -> post (return_ v) Qn Qr.
Proof. intros H s. exact H. Qed.

Lemma post_raise {A} (e : exn) (Qn : A -> Prop) (Qr : value -> Prop) :
  post (raise e) Qn Qr.
Proof. intros s. exact I. Qed.

Lemma post_lift {A} (r : result A) (Qr : value -> Prop) :
  post (lift r) (fun a => r = Ok a) Qr.
Proof. intros s. destruct r; simpl; auto. Qed.

Lemma post_lift_ok {A} (r : result A) (Qn : A -> Prop) (Qr : value -> Prop) :
  (forall a, r = Ok a -> Qn a) -> post (lift r) Qn Qr.
Proof. intros H s. destruct r; simpl; auto. Qed.

Lemma post_state {A} (f : state -> state * ctl A) (Qn : A -> Prop)
    (Qr : value -> Prop) :
  (forall s, exists s' a, f s = (s', Normal a) /\ Qn a) -> post f Qn Qr.
Proof. intros H s. destruct (H s) as (s' & a & -> & Ha). exact Ha. Qed.

Lemma post_for_each {A} (l : list A) (f : A -> M unit) (Qr : value -> Prop) :
  (forall a, post (f a) (fun _ => True) Qr) ->
  post (for_each l f) (fun _ => True) Qr.
Proof.
  intros Hf. induction l as [|x l IH]; simpl.
  - now apply post_ret.
  - eapply post_bind; [apply Hf|intros _ _; exact IH].
Qed.

Lemma post_any {A} (m : M A) (Qn : A -> Prop) (Qr : value -> Prop) :
  post m Qn (fun _ => False) -> post m Qn Qr.
Proof.
  intros H s. specialize (H s). destruct (snd (m s)); auto. contradiction.
Qed.

Lemma post_get_data (Qr : value -> Prop) : post get_data (fun _ => True) Qr.
Proof. intros s. exact I. Qed.

Lemma post_get_hostrec (Qr : value -> Prop) :
  post get_hostrec (fun _ => True) Qr.
Proof. intros s. exact I. Qed.

Lemma post_set_data (v : value) (Qr : value -> Prop) :
  post (set_data v) (fun _ => True) Qr.
Proof. intros s. exact I. Qed.

Lemma post_set_hostrec (h : dict) (Qr : value -> Prop) :
  post (set_hostrec h) (fun _ => True) Qr.
Proof. intros s. exact I. Qed.

Lemma post_warning (msg : string) (Qr : value -> Prop) :
  post (warning msg) (fun _ => True) Qr.
Proof. intros s. exact I. Qed.

Create HintDb post.

#[export] Hint Resolve post_get_data post_get_hostrec post_set_data
  post_set_hostrec post_warning : post.

Ltac post_step :=
  match goal with
  | |- post (bind (lift _) _) _ _ =>
      eapply post_bind; [apply post_lift|intros ? ?]
  | |- post (bind (match ?x with _ => _ end) _) _ _ => destruct x eqn:?
  | |- post (bind (ret ?a) _) _ _ =>
      eapply post_bind with (Q1 := fun x => x = a);
      [apply post_ret; reflexivity|intros ? ->]
  | |- post (bind _ _) _ _ =>
      eapply post_bind; [solve [eauto with post]|intros ? ?]
  | |- post (lift _) _ _ => apply post_lift_ok; intros ? ?
  | |- post (if ?c then _ else _) _ _ => destruct c eqn:?
  | |- post (let (_, _) := ?x in _) _ _ => destruct x eqn:?
  | |- post (match ?x with _ => _ end) _ _ => destruct x eqn:?
  | |- post (raise _) _ _ => apply post_raise
  | |- post (ret _) _ _ => apply post_ret
  | |- post (return_ _) _ _ => apply post_return
  end.

Ltac post_auto := repeat post_step.

Lemma same_but_scripts_refl (res : dict) : same_but_scripts res res.
Proof. intros k _. reflexivity. Qed.

Lemma same_but_scripts_trans (r1 r2 r3 : dict) :
  same_but_scripts r1 r2 -> same_but_scripts r2 r3 -> same_but_scripts r1 r3.
Proof. intros H1 H2 k Hk. now rewrite H2, H1. Qed.

Lemma add_script_same (res res' : dict) (x : result value) :
  add_script res x = Ok res' -> same_but_scripts res res'.
Proof.
  unfold add_script. intros H k Hk.
  destruct (getk "scripts" res) as [[]|]; try discriminate;
    destruct x; simpl in H; try discriminate; injection H as <-;
    apply getk_setk_other; congruence.
Qed.

Lemma dict_get_key_eqb (k q : value) (d : dict) :
  key_eqb k q = true -> dict_get q d = dict_get k d.
Proof.
  intros H. induction d as [|[k' v'] d IH]; simpl; [reflexivity|].
  rewrite IH. destruct (key_eqb k' q) eqn:Hq, (key_eqb k' k) eqn:Hk; try reflexivity.
  - rewrite key_eqb_sym in H. now rewrite (key_eqb_trans _ _ _ Hq H) in Hk.
  - now rewrite (key_eqb_trans _ _ _ Hk H) in Hq.
Qed.

Lemma dict_set_has (k q v : value) (d : dict) :
  dict_get q d <> None -> dict_get q (dict_set k v d) <> None.
Proof.
  intros H. destruct (key_eqb k q) eqn:Hkq.
  - rewrite (dict_get_key_eqb _ _ _ Hkq). rewrite dict_get_set_same; [discriminate|].
    destruct k; simpl in *; congruence.
  - now rewrite dict_get_set_other.
Qed.

Lemma merge_has (o d : dict) (q : value) :
  dict_get q d <> None ->
  dict_get q (fold_left (fun acc kv => dict_set (fst kv) (snd kv) acc) o d)
  <> None.
Proof.
  revert d. induction o as [|[k v] o IH]; simpl; intros d H; [exact H|].
  apply IH. now apply dict_set_has.
Qed.

Lemma merge_other (o d : dict) (q : value) :
  dict_get q o = None ->
  dict_get q (fold_left (fun acc kv => dict_set (fst kv) (snd kv) acc) o d)
  = dict_get q d.
Proof.
  revert d. induction o as [|[k v] o IH]; simpl; intros d H; [reflexivity|].
  destruct (key_eqb k q) eqn:Hkq; [discriminate|].
  rewrite IH by exact H. now apply dict_get_set_other.
Qed.

Ltac same_scripts :=
  cbv beta in *;
  repeat match goal with
    | H : add_script _ _ = Ok _ |- _ => apply add_script_same in H
    end;
  eauto using same_but_scripts_trans, same_but_scripts_refl.

Section Port.

Variable E : collaborators.

Lemma post_write_headers (h : dict) (Qr : value -> Prop) :
  post (write_headers h) (fun _ => True) Qr.
Proof. unfold write_headers. post_auto; auto with post. Qed.

Hint Resolve post_write_headers : post.

Lemma post_pop_unknown (h : value) (Qr : value -> Prop) :
  post (pop_unknown h) (fun _ => True) Qr.
Proof. unfold pop_unknown. post_auto; exact I. Qed.

Hint Resolve post_pop_unknown : post.

Lemma post_headers_stage (resp req : value) (banner : string) (res : dict)
    (Qr : value -> Prop) :
  post (headers_stage E resp req banner res)
       (fun r => same_but_scripts res (fst r)) Qr.
Proof.
  unfold headers_stage. post_auto; simpl; same_scripts.
Qed.

Lemma post_body_stage (resp url : value) (res : dict) (Qr : value -> Prop) :
  post (body_stage E resp url res) (same_but_scripts res) Qr.
Proof.
  unfold body_stage. post_auto; same_scripts.
Qed.

Hint Resolve post_headers_stage post_body_stage : post.

Lemma merge_reports (r info : dict) (port : Z) :
  getk "port" r = Some (VInt port) ->
  getk "port" (merged r info) <> None
  /\ (getk "port" info = None ->
      getk "port" (merged r info) = Some (VInt port)).
Proof.
  intros H. assert (Hn : getk "port" r <> None) by congruence.
  unfold merged. destruct info as [|kv info]; [split; auto|].
  cbn [dict_update fst]. split.
  - now apply merge_has.
  - intros Hi. unfold getk. rewrite merge_other; assumption.
Qed.

Lemma reports_merged (res r1 r2 : dict) (port : Z) (banner : string) :
  same_but_scripts (setk "port" (VInt port) res) r1 ->
  same_but_scripts
    match match_nmap_svc_fp E banner "tcp" "GetRequest" with
    | [] => r1
    | _ => fst (dict_update r1
                  (VDict (match_nmap_svc_fp E banner "tcp" "GetRequest")))
    end r2 ->
  reports E port (VDict r2).
Proof.
  intros H1 H2. exists r2. split; [reflexivity|].
  assert (Hp : getk "port" r1 = Some (VInt port)).
  { rewrite H1 by discriminate. apply getk_setk_same. }
  destruct (merge_reports r1 (match_nmap_svc_fp E banner "tcp" "GetRequest")
              port Hp) as [Ha Hb].
  fold (merged r1 (match_nmap_svc_fp E banner "tcp" "GetRequest")) in H2.
  unfold has_key. rewrite H2 by discriminate. split.
  - destruct (getk "port" (merged r1 _)); congruence.
  - intros Hk. apply Hb, Hk.
Qed.

Lemma post_generic_stage (resp req url : value) (port : Z) (res : dict) :
  post (generic_stage E resp req url port res) (fun _ => False)
       (reports E port).
Proof.
  unfold generic_stage. post_auto; cbv beta in *; subst; cbn [fst] in *;
    eapply reports_merged; eauto using same_but_scripts_refl.
Qed.

Lemma reports_script (res res' : dict) (port : Z) (x : result value) :
  add_script (setk "port" (VInt port) res) x = Ok res' ->
  reports E port (VDict res').
Proof.
  intros H. apply add_script_same in H. exists res'.
  assert (Hp : getk "port" res' = Some (VInt port)).
  { rewrite H by discriminate. apply getk_setk_same. }
  unfold has_key. rewrite Hp. auto.
Qed.

Lemma post_git_detector (resp url : value) (port : Z) (res : dict) :
  post (git_detector E resp url port res) (fun _ => True)
       (fun v => v = VDict [] \/ reports E port v).
Proof.
  unfold git_detector. post_auto; cbv beta in *; auto.
  right. eapply reports_script; eassumption.
Qed.

Lemma post_owa_detector (resp url : value) (port : Z) (res : dict) :
  post (owa_detector E resp url port res) (fun _ => True)
       (fun v => v = VDict [] \/ reports E port v).
Proof.
  unfold owa_detector. post_auto; cbv beta in *; auto.
  right. eapply reports_script; eassumption.
Qed.

Lemma infer_port_expected (req url : value) (port : Z) :
  truthy url = true -> infer_port url = Ok port ->
  port = expected_port req url.
Proof.
  intros Ht H. unfold expected_port. rewrite Ht.
  destruct url as [| | | | |u]; try discriminate.
  unfold infer_port in H. cbn [py_get rbind] in H.
  unfold explicit_port. cbn [field].
  assert (Hs : forall p, rbind (py_get (VDict u) "scheme" VNone)
             (fun scheme => Ok (if eq_str scheme "https" then 443 else 80)%Z)
             = Ok p ->
           p = match getk "scheme" u with
               | Some (VStr "https") => 443%Z
               | _ => 80%Z
               end).
  { cbn [py_get rbind]. intros p Hp. injection Hp as <-.
    destruct (getk "scheme" u) as [[]|]; try reflexivity.
    cbn [eq_str]. destruct (s =? "https") eqn:Hs.
    - apply String.eqb_eq in Hs. now subst.
    - apply String.eqb_neq in Hs.
      repeat (destruct s as [|[[] [] [] [] [] [] [] []] s]; try reflexivity).
      congruence. }
  destruct (getk "host" u) as [h|] eqn:Hh.
  - destruct h as [| | |h|l|dd]; cbn [py_in rbind] in H; try discriminate.
    + cbn [getitem] in H. rewrite Hh in H. cbn [rbind as_str] in H.
      destruct (str_contains h ":") eqn:Hc.
      * unfold after_colon.
        destruct (split_once ":" h) as [|a [|b rest]] eqn:Hsp;
          cbn [nth_error rbind nth] in H |- *; try discriminate.
        destruct (py_int b); [now injection H as <-|]. now apply Hs.
      * now apply Hs.
    + destruct (existsb _ l).
      * cbn [getitem] in H. rewrite Hh in H. discriminate.
      * now apply Hs.
    + destruct (has_key ":" dd).
      * cbn [getitem] in H. rewrite Hh in H. discriminate.
      * now apply Hs.
  - cbn [py_in rbind str_contains startswith orb] in H. now apply Hs.
Qed.

Hint Resolve post_git_detector post_owa_detector : post.

Lemma post_port_stage (resp req url : value) (res : dict) :
  post (port_stage E resp req url res)
       (fun port => port = expected_port req url)
       (fun v => v = VDict [] \/ reports E (expected_port req url) v).
Proof.
  unfold port_stage. destruct (truthy url) eqn:Ht.
  - post_step. cbv beta in *.
    rewrite <- (infer_port_expected req url a Ht H).
    post_auto. reflexivity.
  - post_auto; cbv beta in *; unfold expected_port; rewrite Ht.
    all: destruct req as [| | | | |r]; try discriminate;
      cbn [py_get field] in *;
      repeat match goal with H : Ok _ = Ok _ |- _ => injection H as <- end.
    all: unfold entry_truthy; cbn [field];
      destruct (getk "tls_handshake" r) as [h|];
      destruct (getk "tls_log" r) as [l|]; cbn [truthy] in *;
      repeat match goal with H : truthy _ = _ |- _ => rewrite H in * end;
      try reflexivity; try discriminate.
Qed.

End Port.

Section Whole.

Variable E : collaborators.

Lemma post_reconcile (Qr : value -> Prop) :
  post reconcile (fun _ => True) Qr.
Proof. unfold reconcile. post_auto; exact I. Qed.

Lemma post_check_response :
  post (check_response E) (fun _ => True) (fun v => v = VDict []).
Proof. unfold check_response. post_auto; auto. Qed.

Lemma post_add_hostnames (cert : value) (Qr : value -> Prop) :
  post (add_hostnames E cert) (fun _ => True) Qr.
Proof. unfold add_hostnames. post_auto; auto with post. Qed.

Lemma post_tls_stage (req : value) (res : dict) (Qr : value -> Prop) :
  post (tls_stage E req res) (fun _ => True) Qr.
Proof.
  unfold tls_stage. post_auto; auto.
  all: eapply post_bind;
    [apply post_for_each; intros; apply post_add_hostnames
    |intros; now apply post_ret].
Qed.

Lemma post_after_check (resp : value) :
  post (after_check E resp) (fun _ => False) (port_reported E resp).
Proof.
  unfold after_check. post_step. post_step. cbv beta in *.
  eapply post_bind; [apply post_tls_stage|intros res _].
  eapply post_bind with (Q1 := fun port => port = expected_port a a0).
  - intros s. pose proof (post_port_stage E resp a a0 res s) as Hs.
    destruct (snd (port_stage E resp a a0 res s)); auto.
    destruct Hs as [->|Hs]; [now left|]. right. now exists a, a0.
  - intros port ->. intros s.
    pose proof (post_generic_stage E resp a a0 (expected_port a a0) res s) as Hs.
    destruct (snd (generic_stage E resp a a0 (expected_port a a0) res s)); auto.
    right. now exists a, a0.
Qed.

Lemma post_parser_body :
  post (parser_body E) (fun _ => False)
       (fun v => v = VDict [] \/ exists resp, port_reported E resp v).
Proof.
  unfold parser_body. post_step. post_step; [post_step; now left|].
  eapply post_bind; [apply post_reconcile|intros _ _].
  eapply post_bind with (Q1 := fun _ => True).
  - intros s. pose proof (post_check_response s) as Hs.
    destruct (snd (check_response E s)); auto.
  - intros resp _ s. pose proof (post_after_check resp s) as Hs.
    fold (after_check E resp).
    destruct (snd (after_check E resp s)); eauto.
Qed.

Lemma result_post (data : value) (hostrec : dict) (v : value)
    (Q : value -> Prop) :
  post (parser_body E) (fun _ => False) Q ->
  out_result (zgrap_parser_http E data hostrec) = Ok v -> Q v.
Proof.
  intros Hp. unfold zgrap_parser_http.
  specialize (Hp {| st_data := data; st_hostrec := hostrec; st_log := [] |}).
  destruct (parser_body E _) as [s [a|r|e]]; simpl in *; intros H;
    try contradiction; try discriminate.
  now injection H as <-.
Qed.

(** C7: whatever the input and the host record, a value returned by
    the call is a mapping, and it is empty or has a [port] entry. *)
Theorem record_has_port (data : value) (hostrec : dict) (v : value) :
  out_result (zgrap_parser_http E data hostrec) = Ok v ->
  exists res, v = VDict res /\ (res = [] \/ has_key "port" res = true).
Proof.
  intros H. apply (result_post _ _ _ _ post_parser_body) in H.
  destruct H as [->|(resp & [->|(req & url & _ & _ & r & -> & Hp & _)])];
    eauto.
Qed.

(** C3, amended: the port of a returned non-empty record is
    [expected_port]: with a non-empty URL, the integer that [int]
    reads in the text after the first [:] of its host, when the host
    is text with a [:] and [int] accepts that text (white space
    around it, a sign, digits with single underscores between them,
    at most 4300 digits), else 443 for scheme [https], else 80;
    without one, 443 when the request has a non-empty [tls_handshake]
    or [tls_log] entry (whether or not handshake data were found),
    else 80.  The fingerprint matcher is taken not to yield a [port]
    entry. *)
Theorem port_inferred (data : value) (d resp req hostrec res : dict) :
  working_shape data d ->
  accepted d resp req ->
  fingerprint_keeps E "port" ->
  out_result (zgrap_parser_http E data hostrec) = Ok (VDict res) ->
  res <> [] ->
  getk "port" res = Some (VInt (expected_port (VDict req) (url_of req))).
Proof.
  intros Hshape Hacc Hfp Hout Hne.
  unfold zgrap_parser_http in Hout.
  fold (mk_state data hostrec []) in Hout.
  rewrite (parser_body_shape E _ _ _ _ Hshape) in Hout.
  rewrite (bind_normal _ _ _ _ _ (check_response_accepted E _ _ _ _ _ Hacc))
    in Hout.
  pose proof (post_after_check (VDict resp) (mk_state (VDict d) hostrec []))
    as Hp.
  destruct (after_check E (VDict resp) _) as [s [a|r|e]]; simpl in *;
    try contradiction; try discriminate.
  injection Hout as ->.
  destruct Hp as [Hp|(req' & url' & Hreq & Hurl' & r & Hr & _ & Hport)].
  - congruence.
  - cbn [getitem] in Hreq. rewrite (acc_request _ _ _ Hacc) in Hreq.
    injection Hreq as <-. cbn [py_get] in Hurl'. injection Hurl' as <-.
    injection Hr as <-. now apply Hport.
Qed.

End Whole.

(** * Lemmas on strings *)
Lemma string_length_app (a b : string) :
  String.length (a ++ b) = String.length a + String.length b.
Proof. induction a; simpl; congruence. Qed.

Lemma drop_app (a b : string) : drop (String.length a) (a ++ b) = b.
Proof. induction a; simpl; [now destruct b|assumption]. Qed.

Lemma take_app (a b : string) : take (String.length a) (a ++ b) = a.
Proof. induction a; simpl; [now destruct b|congruence]. Qed.

Lemma take_drop (n : nat) (s : string) : take n s ++ drop n s = s.
Proof.
  revert s. induction n as [|n IH]; intros [|c s]; simpl; try reflexivity.
  now rewrite IH.
Qed.

Lemma drop_drop (n m : nat) (s : string) : drop (n + m) s = drop m (drop n s).
Proof.
  revert s. induction n as [|n IH]; intros s; simpl; [reflexivity|].
  destruct s; simpl; [now destruct m|apply IH].
Qed.

Lemma take_take_app (n : nat) (a b : string) :
  take (String.length a + n) (a ++ b) = a ++ take n b.
Proof. induction a; simpl; [reflexivity|congruence]. Qed.

Lemma length_take (n : nat) (s : string) :
  n <= String.length s -> String.length (take n s) = n.
Proof.
  revert s. induction n as [|n IH]; intros [|c s]; simpl; intros H;
    try reflexivity; try lia.
  rewrite IH; lia.
Qed.

Lemma endswith_app (a p : string) : endswith (a ++ p) p = true.
Proof.
  unfold endswith. rewrite string_length_app.
  replace (String.length a + String.length p - String.length p)
    with (String.length a) by lia.
  rewrite drop_app, String.eqb_refl, andb_true_r.
  apply Nat.leb_le. lia.
Qed.

Lemma endswith_split (s p : string) :
  endswith s p = true -> exists a, s = a ++ p.
Proof.
  unfold endswith. intros H. apply andb_prop in H as [_ H].
  apply String.eqb_eq in H.
  remember (String.length s - String.length p) as n eqn:Hn. clear Hn.
  exists (take n s). rewrite <- H. symmetry. apply take_drop.
Qed.

Lemma slice_to_neg_app (a p : string) :
  slice_to_neg (a ++ p) (String.length p) = a.
Proof.
  unfold slice_to_neg. rewrite string_length_app.
  replace (String.length a + String.length p - String.length p)
    with (String.length a) by lia.
  apply take_app.
Qed.

Lemma endswith_tail (a p q : string) (n : nat) :
  String.length q + n = String.length p ->
  endswith (a ++ p) q = (drop n p =? q).
Proof.
  intros H. unfold endswith. rewrite string_length_app.
  replace (String.length a + String.length p - String.length q)
    with (String.length a + n) by lia.
  rewrite drop_drop, drop_app.
  replace (String.length q <=? String.length a + String.length p)%nat with true
    by (symmetry; apply Nat.leb_le; lia).
  reflexivity.
Qed.

(** A path cannot end with both signatures. *)
Lemma owa_path_not_git (path : string) :
  endswith path "/owa/auth/logon.aspx" = true ->
  endswith path "/.git/index" = false.
Proof.
  intros H. apply endswith_split in H as [a ->].
  now rewrite (endswith_tail a _ _ 9).
Qed.

Lemma git_slice (stem : string) :
  slice_to_neg (stem ++ "/.git/index") 5 = stem ++ "/.git/".
Proof.
  unfold slice_to_neg. rewrite string_length_app. simpl String.length.
  replace (String.length stem + 11 - 5) with (String.length stem + 6) by lia.
  now rewrite take_take_app.
Qed.

Lemma owa_slice (stem : string) :
  slice_to_neg (stem ++ "/owa/auth/logon.aspx") 15 = stem ++ "/owa/".
Proof.
  unfold slice_to_neg. rewrite string_length_app. simpl String.length.
  replace (String.length stem + 20 - 15) with (String.length stem + 5) by lia.
  now rewrite take_take_app.
Qed.

Section Typed.

Variable E : collaborators.

Lemma for_each_hostnames (info : list value) (data : value) (h : dict)
    (log : list string) :
  hostnames_typed h ->
  exists h',
    for_each info (add_hostnames E) (mk_state data h log)
    = (mk_state data h' log, Normal tt)
    /\ hostnames_typed h' /\ host_ext h h'.
Proof.
  revert h. induction info as [|cert info IH]; intros h Hh; simpl.
  - exists h. auto using host_ext_refl.
  - assert (H1 : exists h1,
             add_hostnames E cert (mk_state data h log)
             = (mk_state data h1 log, Normal tt)
             /\ hostnames_typed h1 /\ host_ext h h1).
    { unfold add_hostnames, bind. cbn -[getk setk].
      destruct Hh as [Hh|[l Hh]]; rewrite Hh.
      - eexists. split; [reflexivity|]. split.
        + right. eexists. apply getk_setk_same.
        + right. exists [], (add_cert_hostnames E cert []).
          unfold hostnames_of. now rewrite Hh.
      - eexists. split; [reflexivity|]. split.
        + right. eexists. apply getk_setk_same.
        + right. exists l, (add_cert_hostnames E cert l).
          unfold hostnames_of. now rewrite Hh. }
    destruct H1 as (h1 & Hrun & Ht & Hext).
    destruct (IH h1 Ht) as (h' & Hrun' & Ht' & Hext').
    exists h'. rewrite (bind_normal _ _ _ _ _ Hrun). split; [exact Hrun'|].
    eauto using host_ext_trans.
Qed.

Lemma tls_stage_typed (req res h : dict) (data : value) (log : list string) :
  tls_typed req -> hostnames_typed h -> getk "scripts" res = None ->
  exists h' res',
    tls_stage E (VDict req) res (mk_state data h log)
    = (mk_state data h' log, Normal res')
    /\ tls_result res res' /\ host_ext h h'
    /\ (find_tls (VDict req) = Ok VNone -> res' = res).
Proof.
  intros (tls & Hfind & Htls) Hh Hs. unfold tls_stage.
  rewrite Hfind. rewrite (bind_normal _ _ _ (mk_state data h log) tls)
    by reflexivity.
  assert (Hnone : tls = VNone ->
    exists h' res', ret res (mk_state data h log)
                    = (mk_state data h' log, Normal res')
      /\ tls_result res res' /\ host_ext h h'
      /\ (Ok tls = Ok VNone -> res' = res)).
  { intros _. exists h, res. repeat split; auto using host_ext_refl.
    constructor. }
  assert (Hsome : tls <> VNone ->
    exists h' res',
      (c <- lift (leaf_certificate tls) ;;
       match c with
       | None => ret (setk "service_tunnel" (VStr "ssl") res)
       | Some cert =>
           raw <- lift (as_str cert) ;;
           let (output, info) := create_ssl_cert E raw in
           match info with
           | [] => ret (setk "service_tunnel" (VStr "ssl") res)
           | _ =>
               res <- lift (add_script (setk "service_tunnel" (VStr "ssl") res)
                        (Ok (obj [("id", VStr "ssl-cert");
                                  ("output", VStr output);
                                  ("ssl-cert", VList info)]))) ;;
               for_each info (add_hostnames E) ;;;
               ret res
           end
       end) (mk_state data h log)
      = (mk_state data h' log, Normal res')
      /\ tls_result res res' /\ host_ext h h'
      /\ (Ok tls = Ok VNone -> res' = res)).
  { intros Hne. destruct Htls as [->|[Hleaf|[raw Hleaf]]]; [congruence| |].
    - rewrite Hleaf. exists h. eexists. split; [reflexivity|].
      repeat split; auto using host_ext_refl; [constructor|congruence].
    - rewrite Hleaf. cbn [bind lift ret as_str].
      destruct (create_ssl_cert E raw) as [output info].
      destruct info as [|c info].
      + exists h. eexists. split; [reflexivity|].
        repeat split; auto using host_ext_refl; [constructor|congruence].
      + unfold add_script. rewrite getk_setk_other by discriminate.
        rewrite Hs. cbn [rbind bind lift ret].
        destruct (for_each_hostnames (c :: info) data h log Hh)
          as (h' & Hrun & _ & Hext).
        rewrite (bind_normal _ _ _ _ _ Hrun).
        exists h'. eexists. split; [reflexivity|].
        repeat split; auto; [now constructor|congruence]. }
  destruct tls; auto; apply Hsome; discriminate.
Qed.

End Typed.

Lemma split_once_colon (s : string) :
  str_contains s ":" = true -> exists a b, split_once ":" s = [a; b].
Proof.
  induction s as [|c s IH]; [discriminate|].
  cbn [str_contains startswith split_once]. intros H.
  destruct (c =? ":")%char eqn:Hc; [eauto|].
  rewrite Ascii.eqb_sym in Hc. rewrite Hc in H. cbn [andb orb] in H.
  destruct (IH H) as (a & b & ->). eauto.
Qed.

Section Detectors.

Variable E : collaborators.

Lemma typed_prefix (data : value) (d resp req hostrec : dict) :
  working_shape data d -> accepted d resp req ->
  tls_typed req -> hostnames_typed hostrec ->
  exists h1 res1,
    parser_body E (mk_state data hostrec [])
    = bind (port_stage E (VDict resp) (VDict req) (url_of req) res1)
        (fun port =>
           generic_stage E (VDict resp) (VDict req) (url_of req) port res1)
        (mk_state (VDict d) h1 [])
    /\ tls_result base_record res1 /\ host_ext hostrec h1
    /\ (find_tls (VDict req) = Ok VNone -> res1 = base_record).
Proof.
  intros Hshape Hacc Htls Hh.
  destruct (tls_stage_typed E req base_record hostrec (VDict d) []
              Htls Hh eq_refl) as (h1 & res1 & Hrun & Hres & Hext & Hnone).
  exists h1, res1. split; [|auto].
  rewrite (parser_body_shape E _ _ _ _ Hshape).
  rewrite (bind_normal _ _ _ _ _ (check_response_accepted E _ _ _ _ _ Hacc)).
  unfold after_check. cbn [getitem]. rewrite (acc_request _ _ _ Hacc).
  cbn [lift bind ret py_get]. fold (url_of req).
  now rewrite (bind_normal _ _ _ _ _ Hrun).
Qed.

Lemma infer_port_typed (req : value) (url : dict) :
  url <> [] -> host_typed url ->
  infer_port (VDict url) = Ok (expected_port req (VDict url)).
Proof.
  intros Hne Hh.
  assert (Ht : truthy (VDict url) = true) by (destruct url; [congruence|reflexivity]).
  assert (H : exists p, infer_port (VDict url) = Ok p).
  { unfold infer_port. cbn [py_get rbind].
    destruct Hh as [Hh|[h Hh]]; rewrite Hh; cbn [py_in rbind].
    - cbn. eauto.
    - destruct (str_contains h ":") eqn:Hc; cbn [rbind]; [|eauto].
      cbn [getitem]. rewrite Hh. cbn [rbind as_str].
      destruct (split_once_colon h Hc) as (a & b & Hsp). rewrite Hsp.
      cbn [nth_error].
      destruct (py_int b); cbn; eauto. }
  destruct H as [p H]. rewrite H. f_equal.
  now apply infer_port_expected.
Qed.

End Detectors.

Section Runs.

Variable E : collaborators.

Lemma git_detector_skip (resp : value) (url res : dict) (port : Z)
    (path : string) (s : state) :
  getk "path" url = Some (VStr path) ->
  endswith path "/.git/index" = false ->
  git_detector E resp (VDict url) port res s = (s, Normal tt).
Proof.
  intros Hp He. unfold git_detector. cbn [py_get]. rewrite Hp.
  cbn [lift bind ret py_endswith as_str rbind]. now rewrite He.
Qed.

Lemma git_detector_fails (resp url res : dict) (port : Z) (path : string)
    (s : state) :
  getk "path" url = Some (VStr path) ->
  endswith path "/.git/index" = true ->
  git_check_fails resp ->
  git_detector E (VDict resp) (VDict url) port res s
  = (s, Returns (VDict [])).
Proof.
  intros Hp He Hf. unfold git_detector. cbn [py_get]. rewrite Hp.
  cbn [lift bind ret py_endswith as_str rbind]. rewrite He.
  cbn [lift bind ret].
  unfold git_check_fails, status_is_200, body_or_empty in Hf.
  destruct Hf as [Hf|(body & Hb & Hf)].
  - destruct (getk "status_code" resp) as [v|]; [now rewrite Hf|reflexivity].
  - destruct (negb _); [reflexivity|]. rewrite Hb.
    cbn [lift bind ret py_startswith as_str rbind]. now rewrite Hf.
Qed.

Lemma git_detector_found (resp url res res' : dict) (port : Z)
    (stem body : string) (addr : value) (s : state) :
  getk "path" url = Some (VStr (stem ++ "/.git/index")) ->
  status_is_200 resp = true ->
  getk "body" resp = Some (VStr body) ->
  startswith body "DIRC" = true ->
  getk "addr" (st_hostrec s) = Some addr ->
  add_script (setk "port" (VInt port) res)
    (Ok (http_git_script
           (py_str E addr ++ ":" ++ dec port ++ stem ++ "/.git/")))
  = Ok res' ->
  git_detector E (VDict resp) (VDict url) port res s
  = (s, Returns (VDict res')).
Proof.
  intros Hp Hs Hb Hd Ha Hadd. unfold git_detector. cbn [py_get]. rewrite Hp.
  cbn [lift bind ret py_endswith as_str rbind]. rewrite endswith_app.
  cbn [lift bind ret]. unfold status_is_200 in Hs.
  destruct (getk "status_code" resp) as [v|]; [|discriminate].
  rewrite Hs, Hb. cbn [negb lift bind ret py_startswith as_str rbind].
  rewrite Hd. cbn [negb lift bind ret get_hostrec getitem]. rewrite Ha, Hp.
  cbn [lift bind ret py_slice_to_neg]. rewrite git_slice.
  cbn [py_str]. unfold http_git_script in Hadd. rewrite Hadd. reflexivity.
Qed.

Lemma owa_detector_skip (resp : value) (url res : dict) (port : Z)
    (path : string) (s : state) :
  getk "path" url = Some (VStr path) ->
  endswith path "/owa/auth/logon.aspx" = false ->
  owa_detector E resp (VDict url) port res s = (s, Normal tt).
Proof.
  intros Hp He. unfold owa_detector. cbn [py_get]. rewrite Hp.
  cbn [lift bind ret py_endswith as_str rbind]. now rewrite He.
Qed.

Lemma owa_detector_fails (resp url res : dict) (port : Z) (path : string)
    (s : state) :
  getk "path" url = Some (VStr path) ->
  endswith path "/owa/auth/logon.aspx" = true ->
  owa_check_fails resp ->
  owa_detector E (VDict resp) (VDict url) port res s
  = (s, Returns (VDict [])).
Proof.
  intros Hp He Hf. unfold owa_detector. cbn [py_get]. rewrite Hp.
  cbn [lift bind ret py_endswith as_str rbind]. rewrite He.
  cbn [lift bind ret].
  unfold owa_check_fails, status_is_200, body_or_empty in Hf.
  destruct Hf as [Hf|(body & Hb & Hf)].
  - destruct (getk "status_code" resp) as [v|]; [now rewrite Hf|reflexivity].
  - destruct (negb _); [reflexivity|]. rewrite Hb.
    cbn [lift bind ret owa_versions]. rewrite Hf, set_iter_nil. reflexivity.
Qed.

(** C4, amended: when the path of the URL ends with [/.git/index] and
    the status is not 200 or the body, absent or a text, does not start
    with [DIRC], or the path ends with [/owa/auth/logon.aspx] and the
    status is not 200 or the version pattern is nowhere in the body,
    absent or a text, the call returns the empty mapping: it does not
    go on to the generic path.  The TLS data, the host of the URL and
    the hostnames of the host record have the types zgrab gives them,
    so that lines 70-107 raise nothing. *)
Theorem detector_hard_fail (data : value) (d resp req url hostrec : dict)
    (path : string) :
  working_shape data d -> accepted d resp req ->
  tls_typed req -> hostnames_typed hostrec ->
  getk "url" req = Some (VDict url) -> url <> [] -> host_typed url ->
  getk "path" url = Some (VStr path) ->
  (endswith path "/.git/index" = true /\ git_check_fails resp)
  \/ (endswith path "/owa/auth/logon.aspx" = true /\ owa_check_fails resp) ->
  out_result (zgrap_parser_http E data hostrec) = Ok (VDict []).
Proof.
  intros Hshape Hacc Htls Hh Hurl Hne Hhost Hpath Hfail.
  destruct (typed_prefix E _ _ _ _ _ Hshape Hacc Htls Hh)
    as (h1 & res1 & Hrun & _).
  assert (Hu : url_of req = VDict url) by (unfold url_of; now rewrite Hurl).
  rewrite Hu in Hrun.
  assert (Hport : port_stage E (VDict resp) (VDict req) (VDict url) res1
                    (mk_state (VDict d) h1 [])
                  = (mk_state (VDict d) h1 [], Returns (VDict []))).
  { unfold port_stage.
    replace (truthy (VDict url)) with true
      by (destruct url; [congruence|reflexivity]).
    rewrite (infer_port_typed (VDict req) url Hne Hhost).
    cbn [lift bind ret].
    destruct Hfail as [[He Hf]|[He Hf]].
    - now rewrite (bind_returns _ _ _ _ _
                     (git_detector_fails _ _ _ _ _ _ Hpath He Hf)).
    - rewrite (bind_normal _ _ _ _ _
                 (git_detector_skip _ _ _ _ _ _ Hpath
                    (owa_path_not_git _ He))).
      now rewrite (bind_returns _ _ _ _ _
                     (owa_detector_fails _ _ _ _ _ _ Hpath He Hf)). }
  rewrite (bind_returns _ _ _ _ _ Hport) in Hrun.
  now rewrite (run_result E _ _ _ _ Hrun).
Qed.

End Runs.

(** C4 as stated fails on a body of [null], which does not start with
    [DIRC] and has no version: with the path of a detector and status
    200, line 112 raises [AttributeError] and line 131 [TypeError]. *)
Lemma null_body_raises :
  (status_is_200 git_null_resp = true
   /\ getk "body" git_null_resp = Some VNone
   /\ out_result (zgrap_parser_http sample git_null_input sample_host)
      = Err AttributeError)
  /\ (status_is_200 owa_null_resp = true
      /\ getk "body" owa_null_resp = Some VNone
      /\ out_result (zgrap_parser_http sample owa_null_input sample_host)
         = Err TypeError).
Proof. repeat split. Qed.

Section Git.

Variable E : collaborators.

Lemma detector_script (res1 : dict) :
  tls_result base_record res1 ->
  exists before,
    tls_scripts before
    /\ (res1 = base_record -> before = [])
    /\ forall (port : Z) (x : value),
         add_script (setk "port" (VInt port) res1) (Ok x)
         = Ok (setk "scripts" (VList (before ++ [x])%list)
                 (setk "port" (VInt port) res1)).
Proof.
  intros [| |output info Hi].
  - exists []. split; [now left|]. split; reflexivity.
  - exists []. split; [now left|]. split; reflexivity.
  - exists [ssl_cert_script output info]. split; [right; eauto|].
    split; [discriminate|reflexivity].
Qed.

(** C2, amended: for a path [stem/.git/index], status 200 and a body
    that starts with [DIRC], the call returns a record with the
    inferred port whose last script is the [http-git] script, with
    [files-found] equal to [.git/index] and the repository
    [<addr>:<port><stem>/.git/]: the path without its last five
    characters, [index], so that the slash stays.  Before that script
    there is nothing or one [ssl-cert] script, and nothing when the
    request has no TLS data. *)
Theorem git_repository_found (data : value) (d resp req url hostrec : dict)
    (stem body : string) (addr : value) :
  working_shape data d -> accepted d resp req ->
  tls_typed req -> hostnames_typed hostrec ->
  getk "url" req = Some (VDict url) -> host_typed url ->
  getk "path" url = Some (VStr (stem ++ "/.git/index")) ->
  status_is_200 resp = true ->
  getk "body" resp = Some (VStr body) -> startswith body "DIRC" = true ->
  getk "addr" hostrec = Some addr ->
  let port := expected_port (VDict req) (VDict url) in
  let repository := py_str E addr ++ ":" ++ dec port ++ stem ++ "/.git/" in
  exists res before,
    out_result (zgrap_parser_http E data hostrec) = Ok (VDict res)
    /\ getk "port" res = Some (VInt port)
    /\ scripts_of (VDict res) = (before ++ [http_git_script repository])%list
    /\ tls_scripts before
    /\ (find_tls (VDict req) = Ok VNone -> before = []).
Proof.
  intros Hshape Hacc Htls Hh Hurl Hhost Hpath Hs Hb Hd Ha port repository.
  destruct (typed_prefix E _ _ _ _ _ Hshape Hacc Htls Hh)
    as (h1 & res1 & Hrun & Hres & Hext & Hnone).
  assert (Hu : url_of req = VDict url) by (unfold url_of; now rewrite Hurl).
  rewrite Hu in Hrun.
  assert (Hne : url <> []) by (intros ->; discriminate).
  destruct (detector_script res1 Hres) as (before & Hbefore & Hb0 & Hadd).
  assert (Ha1 : getk "addr" h1 = Some addr).
  { destruct Hext as [->|(l & ext & _ & ->)]; [exact Ha|].
    now rewrite getk_setk_other by discriminate. }
  exists (setk "scripts" (VList (before ++ [http_git_script repository])%list)
            (setk "port" (VInt port) res1)), before.
  split; [|split; [|split; [|split]]].
  - assert (Hport : port_stage E (VDict resp) (VDict req) (VDict url) res1
                      (mk_state (VDict d) h1 [])
                    = (mk_state (VDict d) h1 [],
                       Returns (VDict (setk "scripts"
                         (VList (before ++ [http_git_script repository])%list)
                         (setk "port" (VInt port) res1))))).
    { unfold port_stage.
      replace (truthy (VDict url)) with true
        by (destruct url; [congruence|reflexivity]).
      rewrite (infer_port_typed (VDict req) url Hne Hhost).
      cbn [lift bind ret]. fold port.
      now rewrite (bind_returns _ _ _ _ _
                     (git_detector_found E resp url res1 _ port stem body
                        addr (mk_state (VDict d) h1 [])
                        Hpath Hs Hb Hd Ha1 (Hadd port _))). }
    rewrite (bind_returns _ _ _ _ _ Hport) in Hrun.
    now rewrite (run_result E _ _ _ _ Hrun).
  - rewrite getk_setk_other by discriminate. apply getk_setk_same.
  - cbn [scripts_of]. now rewrite getk_setk_same.
  - exact Hbefore.
  - intros Hf. auto.
Qed.

End Git.

(** C2 as stated fails on [git_plain_input], whose request has no TLS
    data, so that no certificate is looked for: the one script of the
    record is the [http-git] script, and its repository keeps the slash
    before [index]. *)
Lemma git_repository_keeps_slash :
  let out := zgrap_parser_http sample git_plain_input sample_host in
  exists res,
    out_result out = Ok (VDict res)
    /\ scripts_of (VDict res) = [http_git_script "192.0.2.1:8443/x/.git/"]
    /\ scripts_of (VDict res) <> [http_git_script "192.0.2.1:8443/x/.git"].
Proof.
  eexists. split; [reflexivity|]. split; [reflexivity|].
  cbn. discriminate.
Qed.

Lemma append_assoc (a b c : string) : (a ++ b) ++ c = a ++ (b ++ c).
Proof. induction a; simpl; congruence. Qed.

Lemma append_nil_r (a : string) : a ++ "" = a.
Proof. induction a; simpl; congruence. Qed.

Section Sound.

Context {A : Type}.

Lemma star_sound (r : regex) (k : string -> option A) :
  sound_at A r ->
  forall (fuel : nat) (s : string) (a : A),
    (fix loop (fuel : nat) (s : string) {struct fuel} : option A :=
       match fuel with
       | O => k s
       | S fuel' =>
           match rmatch r s (fun s1 =>
                   if (String.length s1 <? String.length s)%nat
                   then loop fuel' s1 else None) with
           | Some a => Some a
           | None => k s
           end
       end) fuel s = Some a ->
    exists w s', s = w ++ s' /\ lang (RStar r) w /\ k s' = Some a.
Proof.
  intros Hr. induction fuel as [|fuel IH]; intros s a H.
  - exists "", s. repeat split; [constructor|exact H].
  - match type of H with
    | match ?m with _ => _ end = _ => destruct m as [a'|] eqn:Hm
    end.
    + injection H as ->. apply Hr in Hm as (w1 & s1 & -> & Hw1 & Hk).
      destruct (String.length s1 <? String.length (w1 ++ s1))%nat;
        [|discriminate].
      apply IH in Hk as (w2 & s' & -> & Hw2 & Hk).
      exists (w1 ++ w2), s'. rewrite append_assoc.
      repeat split; [now constructor|exact Hk].
    + exists "", s. repeat split; [constructor|exact H].
Qed.

Lemma rmatch_sound (r : regex) : sound_at A r.
Proof.
  induction r as [p|r1 IH1 r2 IH2|r IH|r IH]; intros s k a H.
  - destruct s as [|c s]; [discriminate|]. simpl in H.
    destruct (p c) eqn:Hp; [|discriminate].
    exists (String c ""), s. repeat split; [now constructor|exact H].
  - simpl in H. apply IH1 in H as (w1 & s1 & -> & Hw1 & H).
    apply IH2 in H as (w2 & s' & -> & Hw2 & H).
    exists (w1 ++ w2), s'. rewrite append_assoc.
    repeat split; [now constructor|exact H].
  - simpl in H. destruct (rmatch r s k) as [a'|] eqn:Hm.
    + injection H as ->. apply IH in Hm as (w & s' & -> & Hw & H).
      exists w, s'. repeat split; [now apply lang_opt_some|exact H].
    + exists "", s. repeat split; [constructor|exact H].
  - simpl in H. now apply (star_sound r k IH) in H.
Qed.

End Sound.

Lemma match_at_sound (p : pattern) (s g rest : string) :
  match_at p s = Some (g, rest) -> lang (grp p) g.
Proof.
  unfold match_at. intros H.
  apply rmatch_sound in H as (w1 & s1 & -> & _ & H).
  apply rmatch_sound in H as (w2 & s2 & -> & Hw2 & H).
  apply rmatch_sound in H as (w3 & s3 & -> & _ & H).
  injection H as <- <-. rewrite string_length_app.
  replace (String.length w2 + String.length (w3 ++ s3)
           - String.length (w3 ++ s3)) with (String.length w2) by lia.
  now rewrite take_app.
Qed.

Lemma finditer_sound (p : pattern) (s g : string) :
  In g (finditer p s) -> lang (grp p) g.
Proof.
  unfold finditer. generalize (S (String.length s)) as fuel. intros fuel.
  revert s. induction fuel as [|fuel IH]; intros s; simpl; [tauto|].
  destruct (match_at p s) as [[g' rest]|] eqn:Hm.
  - intros [<-|H]; [now apply match_at_sound in Hm|now apply IH in H].
  - destruct s; [simpl; tauto|apply IH].
Qed.

Lemma all_digits_app (a b : string) :
  all_digits (a ++ b) = all_digits a && all_digits b.
Proof. induction a; simpl; [reflexivity|]. now rewrite IHa, andb_assoc. Qed.

Lemma star_digits (w : string) :
  lang (RStar (RChar is_digit)) w -> all_digits w = true.
Proof.
  remember (RStar (RChar is_digit)) as r eqn:Hr. intros H.
  induction H; try discriminate; [reflexivity|].
  injection Hr as ->. rewrite all_digits_app, IHlang2 by reflexivity.
  inversion H as [p c Hc| | | | |]; subst. simpl. now rewrite Hc.
Qed.

Lemma plus_digits (w : string) :
  lang (RPlus (RChar is_digit)) w -> all_digits w = true /\ w <> "".
Proof.
  intros H. inversion H as [|r1 r2 w1 w2 H1 H2| | | |]; subst.
  inversion H1 as [p c Hc| | | | |]; subst. simpl.
  rewrite Hc, (star_digits _ H2).
  split; [reflexivity|discriminate].
Qed.

Lemma digit_cases (c : ascii) :
  is_digit c = true ->
  is_space c = false /\ c <> "+"%char /\ c <> "-"%char /\ c <> "."%char
  /\ exists d, digit c = Some d.
Proof.
  destruct c as [[] [] [] [] [] [] [] []]; cbv; intros H; try discriminate;
    repeat split; try discriminate; eauto.
Qed.

Lemma digits_val_ok (w : string) (acc : Z) (after : bool) :
  all_digits w = true -> w <> "" \/ after = true ->
  exists n, digits_val acc after w = Some n.
Proof.
  revert acc after. induction w as [|c w IH]; intros acc after Hd Hn.
  - destruct Hn as [Hn| ->]; [congruence|]. simpl. eauto.
  - simpl in Hd. apply andb_prop in Hd as [Hc Hw].
    destruct (digit_cases c Hc) as (_ & _ & _ & _ & d & Hdc).
    cbn [digits_val]. rewrite Hdc. apply IH; auto.
Qed.

Lemma rev_string_app (acc s : string) :
  rev_string acc s = rev_string "" s ++ acc.
Proof.
  revert acc. induction s as [|c s IH]; intros acc; simpl; [reflexivity|].
  rewrite IH, (IH (String c "")), append_assoc. reflexivity.
Qed.

Lemma rev_string_append (a b : string) :
  rev_string "" (a ++ b) = rev_string "" b ++ rev_string "" a.
Proof.
  induction a as [|x a IHa]; simpl.
  - now rewrite append_nil_r.
  - rewrite (rev_string_app (String x "") (a ++ b)), IHa.
    rewrite (rev_string_app (String x "") a). now rewrite append_assoc.
Qed.

Lemma rev_string_involutive (s : string) :
  rev_string "" (rev_string "" s) = s.
Proof.
  induction s as [|c s IH]; simpl; [reflexivity|].
  rewrite (rev_string_app (String c "") s), rev_string_append, IH.
  reflexivity.
Qed.

Lemma all_digits_rev (s : string) :
  all_digits (rev_string "" s) = all_digits s.
Proof.
  induction s as [|c s IH]; simpl; [reflexivity|].
  rewrite rev_string_app, all_digits_app, IH. simpl.
  now rewrite andb_true_r, andb_comm.
Qed.

Lemma lstrip_digits (s : string) : all_digits s = true -> lstrip s = s.
Proof.
  destruct s as [|c s]; [reflexivity|]. simpl. intros H.
  apply andb_prop in H as [Hc _].
  destruct (digit_cases c Hc) as (-> & _). reflexivity.
Qed.

Lemma strip_digits (w : string) : all_digits w = true -> strip w = w.
Proof.
  intros H. unfold strip. rewrite (lstrip_digits _ H).
  rewrite lstrip_digits by now rewrite all_digits_rev.
  apply rev_string_involutive.
Qed.

(** On digits alone [int] reads no sign. *)
Lemma py_int_plain (w : string) :
  all_digits w = true -> py_int w = digits_int w.
Proof.
  intros Hd. unfold py_int. rewrite (strip_digits _ Hd).
  destruct w as [|c w]; [reflexivity|].
  simpl in Hd. apply andb_prop in Hd as [Hc _].
  destruct (digit_cases c Hc) as (_ & Hp & Hm & _).
  destruct c as [[] [] [] [] [] [] [] []]; try reflexivity; congruence.
Qed.

Lemma py_int_digits (w : string) :
  all_digits w = true -> w <> "" -> int_sized w = true ->
  exists n, py_int w = Some n.
Proof.
  intros Hd Hn Hs. rewrite (py_int_plain _ Hd). unfold digits_int.
  unfold int_sized in Hs. rewrite Hs.
  exact (digits_val_ok w 0 false Hd (or_introl Hn)).
Qed.

(** [int] refuses digits beyond the limit. *)
Lemma py_int_long (w : string) :
  all_digits w = true -> int_sized w = false -> py_int w = None.
Proof.
  intros Hd Hs. rewrite (py_int_plain _ Hd). unfold digits_int.
  unfold int_sized in Hs. now rewrite Hs.
Qed.

Lemma split_all_digits (w : string) :
  all_digits w = true -> split_all "." w = [w].
Proof.
  induction w as [|c w IH]; [reflexivity|]. simpl. intros H.
  apply andb_prop in H as [Hc Hw].
  destruct (digit_cases c Hc) as (_ & _ & _ & Hdot & _).
  apply Ascii.eqb_neq in Hdot. rewrite Hdot, (IH Hw). reflexivity.
Qed.

Lemma split_all_dot (w rest : string) :
  all_digits w = true ->
  split_all "." (w ++ String "." rest) = w :: split_all "." rest.
Proof.
  induction w as [|c w IH]; [reflexivity|]. simpl. intros H.
  apply andb_prop in H as [Hc Hw].
  destruct (digit_cases c Hc) as (_ & _ & _ & Hdot & _).
  apply Ascii.eqb_neq in Hdot. rewrite Hdot, (IH Hw). reflexivity.
Qed.

Lemma digits_dot_word (w : string) :
  lang digits_dot w ->
  exists d, w = d ++ "." /\ all_digits d = true /\ d <> "".
Proof.
  intros H. inversion H as [|r1 r2 w1 w2 H1 H2| | | |]; subst.
  apply plus_digits in H1 as [Hd Hn].
  inversion H2 as [p c Hc| | | | |]; subst.
  apply Ascii.eqb_eq in Hc. subst c. eauto.
Qed.

Lemma join_dot_cons (d rest : string) (ds : list string) :
  join "." (d :: ds ++ [rest]) = d ++ "." ++ join "." (ds ++ [rest]).
Proof. destruct ds; reflexivity. Qed.

Lemma star_dotted_words (w : string) :
  lang (RStar digits_dot) w ->
  exists ds,
    Forall (fun n => all_digits n = true /\ n <> "") ds
    /\ forall last, w ++ last = join "." (ds ++ [last]).
Proof.
  remember (RStar digits_dot) as r eqn:Hr. intros H.
  induction H as [| | | | |r' w1 w2 H1 _ H2 IH2]; try discriminate.
  - exists []. split; [constructor|reflexivity].
  - assert (Hr' : r' = digits_dot) by congruence. subst r'.
    destruct (IH2 Hr) as (ds & Hds & Hjoin).
    apply digits_dot_word in H1 as (n & -> & Hn & Hne).
    exists (n :: ds). split; [now constructor|].
    intros last. cbn [app]. rewrite join_dot_cons, <- Hjoin.
    now rewrite !append_assoc.
Qed.

(** Every word of the group of the OWA pattern is dotted. *)
Lemma owa_group_dotted (g : string) :
  lang (grp _EXPR_OWA_VERSION) g -> dotted g.
Proof.
  intros H. cbn [grp _EXPR_OWA_VERSION] in H. fold digits_dot in H.
  inversion H as [|r1 r2 w1 w2 H1 H2| | | |]; subst.
  inversion H1 as [|r1 r2 w3 w4 H3 H4| | | |]; subst.
  apply digits_dot_word in H3 as (n & -> & Hn & Hne).
  apply plus_digits in H2 as [Hd2 Hn2].
  apply star_dotted_words in H4 as (ds & Hds & Hjoin).
  exists (n :: ds ++ [w2]). split; [|split].
  - rewrite join_dot_cons, <- Hjoin. now rewrite !append_assoc.
  - cbn [List.length]. rewrite length_app. simpl. lia.
  - constructor; [now split|]. apply Forall_app. split; [exact Hds|].
    now repeat constructor.
Qed.

(** Splitting at the dots gives back the runs of digits. *)
Lemma split_all_join (nums : list string) :
  Forall (fun n => all_digits n = true /\ n <> "") nums -> nums <> [] ->
  split_all "." (join "." nums) = nums.
Proof.
  induction nums as [|x [|y l] IH]; intros Hf Hne; [congruence| |].
  - inversion Hf as [|x' l' [Hx _] _]; subst. now apply split_all_digits.
  - inversion Hf as [|x' l' [Hx _] Hl]; subst.
    change (join "." (x :: y :: l))
      with (x ++ String "." (join "." (y :: l))).
    rewrite (split_all_dot _ _ Hx), IH; [reflexivity|exact Hl|discriminate].
Qed.

(** [int] reads runs of digits unless one is beyond the limit. *)
Lemma map_opt_py_int (nums : list string) :
  Forall (fun n => all_digits n = true /\ n <> "") nums ->
  if forallb int_sized nums
  then exists ks, map_opt py_int nums = Some ks
  else map_opt py_int nums = None.
Proof.
  induction 1 as [|x l [Hx Hne] _ IH]; cbn [forallb map_opt]; [eauto|].
  destruct (int_sized x) eqn:Hs; cbn [andb].
  - destruct (py_int_digits x Hx Hne Hs) as [n ->].
    destruct (forallb int_sized l).
    + destruct IH as [ks ->]. eauto.
    + now rewrite IH.
  - now rewrite (py_int_long x Hx Hs).
Qed.

(** A dotted version has a sort key unless one of its parts is beyond
    the limit of [int]. *)
Lemma version_key_dotted (v : string) :
  dotted v ->
  if within_limit v then exists ks, version_key v = Some ks
  else version_key v = None.
Proof.
  intros (nums & -> & Hlen & Hf). unfold within_limit, version_key.
  rewrite (split_all_join nums Hf) by (intros ->; simpl in Hlen; lia).
  now apply map_opt_py_int.
Qed.

Lemma found_version_key (body v : string) :
  In v (finditer _EXPR_OWA_VERSION body) -> within_limit v = true ->
  exists ks, version_key v = Some ks.
Proof.
  intros H Hl. apply finditer_sound, owa_group_dotted in H.
  apply version_key_dotted in H. now rewrite Hl in H.
Qed.

Lemma found_version_long (body v : string) :
  In v (finditer _EXPR_OWA_VERSION body) -> within_limit v = false ->
  version_key v = None.
Proof.
  intros H Hl. apply finditer_sound, owa_group_dotted in H.
  apply version_key_dotted in H. now rewrite Hl in H.
Qed.

(** * Sorting by key *)
Lemma list_lt_irrefl (a : list Z) : list_lt a a = false.
Proof. induction a as [|x a IH]; simpl; [reflexivity|]. now rewrite Z.ltb_irrefl. Qed.

Lemma list_lt_trans (a b c : list Z) :
  list_lt a b = true -> list_lt b c = true -> list_lt a c = true.
Proof.
  revert b c. induction a as [|x a IH]; intros [|y b] [|z c]; simpl;
    try discriminate; try reflexivity.
  destruct (x <? y)%Z eqn:Hxy, (y <? x)%Z eqn:Hyx, (y <? z)%Z eqn:Hyz,
    (z <? y)%Z eqn:Hzy, (x <? z)%Z eqn:Hxz, (z <? x)%Z eqn:Hzx;
    try discriminate; try reflexivity; try lia; intros H1 H2;
    try (exfalso; lia).
  eauto.
Qed.

Lemma list_lt_total (a b : list Z) :
  list_lt a b = false -> list_lt b a = false -> a = b.
Proof.
  revert b. induction a as [|x a IH]; intros [|y b]; simpl;
    try discriminate; try reflexivity.
  destruct (x <? y)%Z eqn:Hxy, (y <? x)%Z eqn:Hyx; try discriminate.
  intros H1 H2. assert (x = y) by lia. subst. f_equal. now apply IH.
Qed.

Lemma list_lt_between (z x y : list Z) :
  list_lt z x = true -> list_lt z y = false -> list_lt y x = true.
Proof.
  intros Hzx Hzy. destruct (list_lt y z) eqn:Hyz.
  - eapply list_lt_trans; eassumption.
  - now rewrite (list_lt_total _ _ Hyz Hzy).
Qed.

Lemma insert_key_perm {A} (x : list Z * A) (l : list (list Z * A)) :
  Permutation (x :: l) (insert_key x l).
Proof.
  induction l as [|y l IH]; simpl; [apply Permutation_refl|].
  destruct (list_lt (fst y) (fst x)); [|apply Permutation_refl].
  eapply Permutation_trans; [apply perm_swap|]. now apply perm_skip.
Qed.

Lemma sort_keyed_perm {A} (l : list (list Z * A)) :
  Permutation l (sort_keyed l).
Proof.
  induction l as [|x l IH]; simpl; [apply Permutation_refl|].
  eapply Permutation_trans; [apply perm_skip, IH|apply insert_key_perm].
Qed.

(** The head of a sorted list has a least key. *)
Lemma sort_keyed_head {A} (l : list (list Z * A)) (h : list Z * A)
    (t : list (list Z * A)) :
  sort_keyed l = h :: t ->
  forall z, In z l -> list_lt (fst z) (fst h) = false.
Proof.
  revert h t. induction l as [|x l IH]; intros h t Hs z Hz; [contradiction|].
  simpl in Hs. destruct (sort_keyed l) as [|y t'] eqn:Hl.
  - assert (l = []).
    { apply Permutation_nil, Permutation_sym. rewrite <- Hl.
      apply sort_keyed_perm. }
    subst l. simpl in Hs. injection Hs as <- <-.
    destruct Hz as [<-|[]]. apply list_lt_irrefl.
  - simpl in Hs. destruct (list_lt (fst y) (fst x)) eqn:Hyx;
      injection Hs as <- <-.
    + destruct Hz as [<-|Hz]; [|now apply (IH y t')].
      destruct (list_lt (fst x) (fst y)) eqn:Hxy; [|reflexivity].
      now rewrite <- (list_lt_trans _ _ _ Hxy Hyx), list_lt_irrefl.
    + destruct Hz as [<-|Hz]; [apply list_lt_irrefl|].
      destruct (list_lt (fst z) (fst x)) eqn:Hzx; [|reflexivity].
      now rewrite (list_lt_between _ _ _ Hzx (IH y t' eq_refl z Hz)) in Hyx.
Qed.

Lemma map_opt_some {A B} (f : A -> option B) (l : list A) :
  (forall x, In x l -> exists y, f x = Some y) ->
  exists ys, map_opt f l = Some ys.
Proof.
  induction l as [|x l IH]; intros H; simpl; [eauto|].
  destruct (H x (or_introl eq_refl)) as [y ->].
  destruct IH as [ys ->]; [intros; apply H; now right|]. eauto.
Qed.

Lemma map_opt_combine {A B} (f : A -> option B) (l : list A) (ys : list B) :
  map_opt f l = Some ys ->
  map snd (combine ys l) = l
  /\ forall y x, In (y, x) (combine ys l) -> f x = Some y.
Proof.
  revert ys. induction l as [|x l IH]; intros ys H; simpl in H.
  - injection H as <-. split; [reflexivity|contradiction].
  - destruct (f x) as [y|] eqn:Hx; [|discriminate].
    destruct (map_opt f l) as [ys'|]; [|discriminate]. injection H as <-.
    destruct (IH ys' eq_refl) as [H1 H2]. simpl. split; [now rewrite H1|].
    intros y' x' [Heq|Hin]; [now injection Heq as <- <-|now apply H2].
Qed.

(** [sorted] succeeds on versions that have keys; it lists them all and
    puts one with a least key first. *)
Lemma sorted_versions_spec (vs : list string) :
  (forall v, In v vs -> exists k, version_key v = Some k) -> vs <> [] ->
  exists sorted,
    sorted_versions vs = Some sorted
    /\ Permutation vs sorted
    /\ forall v, In v vs ->
         exists k0 k, version_key (hd "" sorted) = Some k0
                      /\ version_key v = Some k /\ list_lt k k0 = false.
Proof.
  intros Hk Hne. destruct (map_opt_some _ _ Hk) as [ks Hks].
  destruct (map_opt_combine _ _ _ Hks) as [Hsnd Hin].
  unfold sorted_versions. rewrite Hks. cbn [option_map].
  set (L := combine ks vs) in *.
  exists (map snd (sort_keyed L)). split; [reflexivity|].
  pose proof (sort_keyed_perm L) as Hperm. split.
  - rewrite <- Hsnd at 1. now apply Permutation_map.
  - destruct (sort_keyed L) as [|h t] eqn:Hs.
    + apply Permutation_sym, Permutation_nil in Hperm.
      rewrite Hperm in Hsnd. simpl in Hsnd. congruence.
    + intros v Hv. rewrite <- Hsnd in Hv. apply in_map_iff in Hv as (z & <- & Hz).
      exists (fst h), (fst z). cbn [map hd]. split; [|split].
      * apply Hin. destruct h. simpl.
        eapply Permutation_in; [apply Permutation_sym, Hperm|now left].
      * apply Hin. now destruct z.
      * eapply sort_keyed_head; eassumption.
Qed.

Section Owa.

Variable E : collaborators.

Lemma owa_detector_found (resp url res res' : dict) (port : Z)
    (stem body : string) (versions : list string) (s : state) :
  getk "path" url = Some (VStr (stem ++ "/owa/auth/logon.aspx")) ->
  status_is_200 resp = true ->
  getk "body" resp = Some (VStr body) ->
  set_iter E (finditer _EXPR_OWA_VERSION body) <> [] ->
  sorted_versions (set_iter E (finditer _EXPR_OWA_VERSION body))
  = Some versions ->
  add_script (setk "port" (VInt port) res)
    (Ok (http_app_script (stem ++ "/owa/")
           (owa_output (stem ++ "/owa/") versions) (hd "" versions)))
  = Ok res' ->
  owa_detector E (VDict resp) (VDict url) port res s
  = (s, Returns (VDict res')).
Proof.
  intros Hp Hs Hb Hne Hsort Hadd. unfold owa_detector. cbn [py_get].
  rewrite Hp. cbn [lift bind ret py_endswith as_str rbind].
  rewrite endswith_app. cbn [lift bind ret]. unfold status_is_200 in Hs.
  destruct (getk "status_code" resp) as [v|]; [|discriminate].
  rewrite Hs, Hb. cbn [negb lift bind ret owa_versions].
  destruct (set_iter E (finditer _EXPR_OWA_VERSION body)) as [|v0 vs] eqn:Hv;
    [congruence|].
  rewrite Hsort. cbn [getitem]. rewrite Hp.
  cbn [lift bind ret py_slice_to_neg]. rewrite owa_slice. cbn [py_str].
  unfold http_app_script, owa_output in Hadd. rewrite Hadd. reflexivity.
Qed.

(** C6, amended: for a path [stem/owa/auth/logon.aspx], status 200 and
    a body in which the version pattern, which begins with a double
    quote, is found, and when no part of a version found has more
    digits than [int] accepts (4300), the call returns a record whose
    last script (the only one but for an [ssl-cert] script) is the
    [http-app] script; [versions] lists the distinct versions found,
    its head is the version reported and no version found has a
    smaller key in the order of integer lists; the output joins all of
    [versions] with [ / ] and the remark on multiple versions when
    there are several. *)
Theorem owa_version_found (data : value) (d resp req url hostrec : dict)
    (stem body : string) :
  working_shape data d -> accepted d resp req ->
  tls_typed req -> hostnames_typed hostrec ->
  getk "url" req = Some (VDict url) -> host_typed url ->
  getk "path" url = Some (VStr (stem ++ "/owa/auth/logon.aspx")) ->
  status_is_200 resp = true ->
  getk "body" resp = Some (VStr body) ->
  finditer _EXPR_OWA_VERSION body <> [] ->
  forallb within_limit (finditer _EXPR_OWA_VERSION body) = true ->
  let port := expected_port (VDict req) (VDict url) in
  let path := stem ++ "/owa/" in
  exists res before versions,
    out_result (zgrap_parser_http E data hostrec) = Ok (VDict res)
    /\ getk "port" res = Some (VInt port)
    /\ scripts_of (VDict res)
       = (before ++ [http_app_script path (owa_output path versions)
                       (hd "" versions)])%list
    /\ tls_scripts before
    /\ Permutation (nodup string_dec (finditer _EXPR_OWA_VERSION body))
         versions
    /\ forall v, In v (finditer _EXPR_OWA_VERSION body) ->
         exists k0 k, version_key (hd "" versions) = Some k0
                      /\ version_key v = Some k /\ list_lt k k0 = false.
Proof.
  intros Hshape Hacc Htls Hh Hurl Hhost Hpath Hs Hb Hfound Hlim port path.
  destruct (typed_prefix E _ _ _ _ _ Hshape Hacc Htls Hh)
    as (h1 & res1 & Hrun & Hres & Hext & Hnone).
  assert (Hu : url_of req = VDict url) by (unfold url_of; now rewrite Hurl).
  rewrite Hu in Hrun.
  assert (Hne : url <> []) by (intros ->; discriminate).
  destruct (detector_script res1 Hres) as (before & Hbefore & Hb0 & Hadd).
  set (found := finditer _EXPR_OWA_VERSION body) in *.
  destruct (sorted_versions_spec (set_iter E found)) as (versions & Hsort & Hperm & Hmin).
  { intros v Hv. apply set_iter_in in Hv.
    apply found_version_key with body; [exact Hv|].
    exact (proj1 (forallb_forall _ _) Hlim v Hv). }
  { now apply set_iter_nonempty. }
  exists (setk "scripts"
            (VList (before ++ [http_app_script path (owa_output path versions)
                                 (hd "" versions)]))
            (setk "port" (VInt port) res1)), before, versions.
  split; [|split; [|split; [|split; [|split]]]].
  - assert (Hport : port_stage E (VDict resp) (VDict req) (VDict url) res1
                      (mk_state (VDict d) h1 [])
                    = (mk_state (VDict d) h1 [],
                       Returns (VDict (setk "scripts"
                         (VList (before ++ [http_app_script path
                                              (owa_output path versions)
                                              (hd "" versions)]))
                         (setk "port" (VInt port) res1))))).
    { unfold port_stage.
      replace (truthy (VDict url)) with true
        by (destruct url; [congruence|reflexivity]).
      rewrite (infer_port_typed (VDict req) url Hne Hhost).
      cbn [lift bind ret]. fold port.
      rewrite (bind_normal _ _ _ _ _
                 (git_detector_skip E _ _ _ _ _ _ Hpath
                    (owa_path_not_git _ (endswith_app _ _)))).
      now rewrite (bind_returns _ _ _ _ _
                     (owa_detector_found resp url res1 _ port stem body
                        versions (mk_state (VDict d) h1 [])
                        Hpath Hs Hb (set_iter_nonempty E _ Hfound) Hsort
                        (Hadd port _))). }
    rewrite (bind_returns _ _ _ _ _ Hport) in Hrun.
    now rewrite (run_result E _ _ _ _ Hrun).
  - rewrite getk_setk_other by discriminate. apply getk_setk_same.
  - cbn [scripts_of]. now rewrite getk_setk_same.
  - exact Hbefore.
  - eapply Permutation_trans; [apply set_iter_perm|exact Hperm].
  - intros v Hv. apply Hmin. now apply set_iter_in.
Qed.

End Owa.

(** C6 as stated fails: version markers that no double quote precedes
    are not found, and the call returns the empty mapping. *)
Lemma owa_unquoted_marker_ignored :
  str_contains owa_unquoted_body "/owa/2.0.0.0/" = true
  /\ out_result (zgrap_parser_http sample owa_unquoted_input sample_host)
     = Ok (VDict []).
Proof. split; reflexivity. Qed.

(** * Lemmas on the headers *)
Lemma dict_del_absent (k : value) (d : dict) :
  dict_get k d = None -> dict_del k d = d.
Proof.
  unfold dict_del. induction d as [|[k' v'] d IH]; simpl; [reflexivity|].
  destruct (key_eqb k' k); [discriminate|]. intros H. simpl. now rewrite IH.
Qed.

Lemma dict_get_del_same (k : value) (d : dict) :
  dict_get k (dict_del k d) = None.
Proof.
  unfold dict_del. induction d as [|[k' v'] d IH]; simpl; [reflexivity|].
  destruct (key_eqb k' k) eqn:Hk; simpl; [exact IH|]. now rewrite Hk.
Qed.

Lemma dict_get_del_other (k q : value) (d : dict) :
  key_eqb k q = false -> dict_get q (dict_del k d) = dict_get q d.
Proof.
  intros Hkq. unfold dict_del.
  induction d as [|[k' v'] d IH]; simpl; [reflexivity|].
  destruct (key_eqb k' k) eqn:Hk; simpl.
  - destruct (key_eqb k' q) eqn:Hq; [|exact IH].
    rewrite key_eqb_sym in Hk. now rewrite (key_eqb_trans _ _ _ Hk Hq) in Hkq.
  - now rewrite IH.
Qed.

Lemma flatten_unknown_reads (unknown : list value)
    (bucket : list (string * value)) (h : dict) :
  bucket_reads unknown bucket ->
  flatten_unknown unknown h
  = (fold_left (fun h kv => setk (fst kv) (snd kv) h) bucket h, None).
Proof.
  intros H. revert h. induction H as [|unk kv unknown bucket [Hk Hv] _ IH];
    intros h; simpl; [reflexivity|].
  rewrite Hv, Hk. simpl. apply IH.
Qed.

Section Headers.

Variable E : collaborators.

Lemma header_lines_spec (h : dict) (r : list value * list string) :
  header_lines E h = Ok r ->
  fst r = header_entries h /\ snd r = header_text E h.
Proof.
  revert r. induction h as [|[k v] h IH]; intros r H; simpl in H.
  - injection H as <-. split; reflexivity.
  - destruct k; try discriminate. cbn [as_str rbind] in H.
    destruct (py_iter v) as [vals|] eqn:Hv; [|discriminate].
    cbn [rbind] in H.
    destruct (header_lines E h) as [r'|]; [|discriminate].
    cbn [rbind] in H. injection H as <-.
    destruct (IH r' eq_refl) as [H1 H2].
    cbn [fst snd header_entries header_text flat_map header_name values_of].
    unfold values_of. rewrite Hv. rewrite H1, H2. split; reflexivity.
Qed.

End Headers.

Section Pop.

Variable E : collaborators.

Lemma write_headers_run (d resp h hostrec : dict) (log : list string) :
  getk "response" d = Some (VDict resp) ->
  write_headers h (mk_state (VDict d) hostrec log)
  = (mk_state (VDict (with_headers d resp h)) hostrec log, Normal tt).
Proof.
  intros H. unfold write_headers, bind. cbn -[getk setk]. now rewrite H.
Qed.

Lemma with_headers_twice (d resp h1 h2 : dict) :
  with_headers (with_headers d resp h1) (setk "headers" (VDict h1) resp) h2
  = with_headers d resp h2.
Proof.
  unfold with_headers, setk. now rewrite !dict_set_set by reflexivity.
Qed.

Lemma with_headers_response (d resp h : dict) :
  getk "response" (with_headers d resp h)
  = Some (VDict (setk "headers" (VDict h) resp)).
Proof. apply getk_setk_same. Qed.

(** Lines 172-174 on typed headers: the bucket is flattened, in the
    local mapping and in the caller's data alike. *)
Lemma pop_unknown_run (d resp hdrs hostrec : dict)
    (bucket : list (string * value)) (log : list string) :
  getk "response" d = Some (VDict resp) ->
  headers_shape hdrs bucket ->
  pop_unknown (VDict hdrs) (mk_state (VDict d) hostrec log)
  = (mk_state (if has_key "unknown" hdrs
               then VDict (with_headers d resp (flattened hdrs bucket))
               else VDict d) hostrec log,
     Normal (VDict (flattened hdrs bucket))).
Proof.
  intros Hresp Hshape. unfold pop_unknown, headers_shape, has_key in *.
  cbn [py_in getitem]. unfold has_key.
  destruct (getk "unknown" hdrs) as [u|] eqn:Hu.
  - destruct u as [| | | |unknown|]; try contradiction.
    cbn [lift bind ret].
    rewrite (bind_normal _ _ _ _ _ (write_headers_run _ _ _ _ _ Hresp)).
    cbn [py_iter lift bind ret].
    rewrite (flatten_unknown_reads _ _ _ Hshape).
    rewrite (bind_normal _ _ _ _ _
               (write_headers_run _ _ _ _ _ (with_headers_response _ _ _))).
    rewrite with_headers_twice. reflexivity.
  - subst bucket. cbn [lift bind ret]. unfold flattened. simpl fold_left.
    now rewrite dict_del_absent.
Qed.

End Pop.






Section HeadersScript.

Variable E : collaborators.

Hint Resolve post_write_headers : post.




End HeadersScript.

Section HeadersTheorem.

Variable E : collaborators.




Lemma post_port_no_detector (resp req : dict) (url : value) (res : dict) :
  no_detector url ->
  post (port_stage E (VDict resp) (VDict req) url res)
       (fun _ => True) (fun _ => False).
Proof.
  intros Hno. unfold port_stage. destruct (truthy url) eqn:Ht.
  - destruct Hno as [Hno|(path & Hpath & Hgit & Howa)]; [congruence|].
    destruct url as [| | | | |u]; try discriminate. cbn [field] in Hpath.
    post_step.
    eapply post_bind with (Q1 := fun _ => True).
    { intros s. now rewrite (git_detector_skip E _ _ _ _ _ s Hpath Hgit). }
    intros _ _.
    eapply post_bind with (Q1 := fun _ => True).
    { intros s. now rewrite (owa_detector_skip E _ _ _ _ _ s Hpath Howa). }
    intros _ _. now post_step.
  - post_auto; exact I.
Qed.



End HeadersTheorem.

Lemma data_post_bind {A B} (m : M A) (f : A -> M B) (D : value)
    (Q1 : A -> value -> Prop) (Q2 : B -> value -> Prop)
    (Qr : value -> value -> Prop) (Qe : value -> Prop) :
  data_post m D Q1 Qr Qe ->
  (forall a D', Q1 a D' -> data_post (f a) D' Q2 Qr Qe) ->
  data_post (bind m f) D Q2 Qr Qe.
Proof.
  intros Hm Hf s Hs. unfold bind. specialize (Hm s Hs).
  destruct (m s) as [s' [a|v|e]]; auto.
  now apply (Hf a (st_data s')).
Qed.

Lemma keeps_data_bind {A B} (m : M A) (f : A -> M B) :
  keeps_data m -> (forall a, keeps_data (f a)) -> keeps_data (bind m f).
Proof.
  intros Hm Hf s. unfold bind. specialize (Hm s).
  destruct (m s) as [s' [a|v|e]]; simpl in *; try exact Hm.
  now rewrite Hf.
Qed.

Lemma keeps_data_ret {A} (a : A) : keeps_data (ret a).
Proof. intros s. reflexivity. Qed.

Lemma keeps_data_return {A} (v : value) : keeps_data (@return_ A v).
Proof. intros s. reflexivity. Qed.

Lemma keeps_data_raise {A} (e : exn) : keeps_data (@raise A e).
Proof. intros s. reflexivity. Qed.

Lemma keeps_data_lift {A} (r : result A) : keeps_data (lift r).
Proof. destruct r; intros s; reflexivity. Qed.

Lemma keeps_data_get_data : keeps_data get_data.
Proof. intros s. reflexivity. Qed.

Lemma keeps_data_get_hostrec : keeps_data get_hostrec.
Proof. intros s. reflexivity. Qed.

Lemma keeps_data_set_hostrec (h : dict) : keeps_data (set_hostrec h).
Proof. intros s. reflexivity. Qed.

Lemma keeps_data_warning (msg : string) : keeps_data (warning msg).
Proof. intros s. reflexivity. Qed.

Lemma keeps_data_for_each {A} (l : list A) (f : A -> M unit) :
  (forall a, keeps_data (f a)) -> keeps_data (for_each l f).
Proof.
  intros Hf. induction l as [|x l IH]; simpl.
  - apply keeps_data_ret.
  - apply keeps_data_bind; [apply Hf|intros _; exact IH].
Qed.

Create HintDb keeps.

#[export] Hint Resolve keeps_data_ret keeps_data_return keeps_data_raise
  keeps_data_lift keeps_data_get_data keeps_data_get_hostrec
  keeps_data_set_hostrec keeps_data_warning keeps_data_for_each : keeps.

Ltac keeps_step :=
  match goal with
  | |- keeps_data (bind _ _) => apply keeps_data_bind; [|intros]
  | |- keeps_data (if ?c then _ else _) => destruct c
  | |- keeps_data (let (_, _) := ?x in _) => destruct x
  | |- keeps_data (match ?x with _ => _ end) => destruct x
  end.

Ltac keeps := repeat keeps_step; auto with keeps.

(** A computation that keeps the data and has a postcondition. *)
Lemma data_post_keeps {A} (m : M A) (D : value) (Qn : A -> Prop)
    (Qr : value -> Prop) :
  keeps_data m -> post m Qn Qr ->
  data_post m D (fun a D' => D' = D /\ Qn a) (fun v D' => D' = D /\ Qr v)
    (fun D' => D' = D).
Proof.
  intros Hk Hp s Hs. specialize (Hk s). specialize (Hp s).
  destruct (m s) as [s' [a|v|e]]; simpl in *;
    [split; [congruence|assumption]|split; [congruence|assumption]
    |congruence].
Qed.

Lemma data_post_lift {A} (r : result A) (D : value)
    (Qr : value -> value -> Prop) (Qe : value -> Prop) :
  Qe D -> data_post (lift r) D (fun a D' => D' = D /\ r = Ok a) Qr Qe.
Proof. intros H s Hs. destruct r; simpl; [auto|now rewrite Hs]. Qed.

Lemma data_post_ret {A} (a : A) (D : value) (Qn : A -> value -> Prop)
    (Qr : value -> value -> Prop) (Qe : value -> Prop) :
  Qn a D -> data_post (ret a) D Qn Qr Qe.
Proof. intros H s Hs. simpl. now rewrite Hs. Qed.

Lemma data_post_return {A} (v : value) (D : value) (Qn : A -> value -> Prop)
    (Qr : value -> value -> Prop) (Qe : value -> Prop) :
  Qr v D -> data_post (return_ v) D Qn Qr Qe.
Proof. intros H s Hs. simpl. now rewrite Hs. Qed.

Lemma data_post_raise {A} (e : exn) (D : value) (Qn : A -> value -> Prop)
    (Qr : value -> value -> Prop) (Qe : value -> Prop) :
  Qe D -> data_post (raise e) D Qn Qr Qe.
Proof. intros H s Hs. simpl. now rewrite Hs. Qed.

Lemma data_post_weaken {A} (m : M A) (D : value) (Qn Qn' : A -> value -> Prop)
    (Qr Qr' : value -> value -> Prop) (Qe Qe' : value -> Prop) :
  (forall a X, Qn a X -> Qn' a X) -> (forall v X, Qr v X -> Qr' v X) ->
  (forall X, Qe X -> Qe' X) ->
  data_post m D Qn Qr Qe -> data_post m D Qn' Qr' Qe'.
Proof.
  intros H1 H2 H3 Hm s Hs. specialize (Hm s Hs).
  destruct (m s) as [s' [a|v|e]]; auto.
Qed.

Lemma data_post_bind_ret {A B} (a : A) (f : A -> M B) (D : value)
    (Qn : B -> value -> Prop) (Qr : value -> value -> Prop)
    (Qe : value -> Prop) :
  data_post (f a) D Qn Qr Qe -> data_post (bind (ret a) f) D Qn Qr Qe.
Proof. intros H s Hs. exact (H s Hs). Qed.

Ltac data_step :=
  match goal with
  | |- data_post (bind (ret _) _) _ _ _ _ =>
      apply data_post_bind_ret; cbv beta
  | |- data_post (bind (lift _) _) _ _ _ _ =>
      eapply data_post_bind;
      [apply data_post_lift; first [assumption|exact I|reflexivity]
      |intros ? ? [-> ?]]
  | |- data_post (if ?c then _ else _) _ _ _ _ => destruct c eqn:?
  | |- data_post (let (_, _) := ?x in _) _ _ _ _ => destruct x eqn:?
  | |- data_post (match ?x with _ => _ end) _ _ _ _ => destruct x eqn:?
  | |- data_post (raise _) _ _ _ _ =>
      apply data_post_raise; first [assumption|exact I|reflexivity]
  | |- data_post (ret _) _ _ _ _ => apply data_post_ret
  | |- data_post (return_ _) _ _ _ _ => apply data_post_return
  end.

Section DataFrame.

Variable E : collaborators.

Lemma keeps_data_add_hostnames (cert : value) :
  keeps_data (add_hostnames E cert).
Proof. unfold add_hostnames. keeps. Qed.

Lemma keeps_data_check_response : keeps_data (check_response E).
Proof. unfold check_response. keeps. Qed.

Lemma keeps_data_tls_stage (req : value) (res : dict) :
  keeps_data (tls_stage E req res).
Proof.
  unfold tls_stage. keeps;
    apply keeps_data_for_each, keeps_data_add_hostnames.
Qed.

Lemma keeps_data_port_stage (resp req url : value) (res : dict) :
  keeps_data (port_stage E resp req url res).
Proof. unfold port_stage, git_detector, owa_detector. keeps. Qed.

Lemma keeps_data_body_stage (resp url : value) (res : dict) :
  keeps_data (body_stage E resp url res).
Proof. unfold body_stage. keeps. Qed.

End DataFrame.

Lemma data_ext_refl (X : value) : data_ext X X.
Proof. now left. Qed.

Lemma data_ext_trans (X1 X2 X3 : value) :
  data_ext X1 X2 -> data_ext X2 X3 -> data_ext X1 X3.
Proof.
  intros [->|(d & v & -> & ->)] H23; [exact H23|].
  destruct H23 as [->|(d' & v' & Hd & ->)].
  - right. eauto.
  - injection Hd as <-. right. exists d, v'. split; [reflexivity|].
    unfold setk. now rewrite dict_set_set.
Qed.

Lemma rewrites_response_bind {A B} (m : M A) (f : A -> M B) :
  rewrites_response m -> (forall a, rewrites_response (f a)) ->
  rewrites_response (bind m f).
Proof.
  intros Hm Hf s. unfold bind. specialize (Hm s).
  destruct (m s) as [s' [a|v|e]]; simpl in *; try exact Hm.
  eapply data_ext_trans; [exact Hm|apply Hf].
Qed.

Lemma rewrites_response_keeps {A} (m : M A) :
  keeps_data m -> rewrites_response m.
Proof. intros H s. rewrite H. apply data_ext_refl. Qed.

Lemma rewrites_response_write_headers (h : dict) :
  rewrites_response (write_headers h).
Proof.
  intros s. unfold write_headers, bind. cbn -[getk setk].
  destruct (st_data s) as [| | | | |d] eqn:Hd; cbn; try apply data_ext_refl;
    try (rewrite Hd; apply data_ext_refl).
  destruct (getk "response" d) as [[| | | | |resp]|]; cbn -[getk setk];
    try (rewrite Hd; apply data_ext_refl).
  right. eauto.
Qed.

Ltac rewrites_step :=
  match goal with
  | |- rewrites_response (bind _ _) => apply rewrites_response_bind; [|intros]
  | |- rewrites_response (if ?c then _ else _) => destruct c
  | |- rewrites_response (let (_, _) := ?x in _) => destruct x
  | |- rewrites_response (match ?x with _ => _ end) => destruct x
  end.

Ltac rewrites :=
  repeat rewrites_step;
  first [ apply rewrites_response_write_headers
        | apply rewrites_response_keeps; auto with keeps ].

Section Mutation.

Variable E : collaborators.

Lemma rewrites_response_pop_unknown (h : value) :
  rewrites_response (pop_unknown h).
Proof. unfold pop_unknown. rewrites. Qed.

Lemma rewrites_response_generic (resp req url : value) (port : Z) (res : dict) :
  rewrites_response (generic_stage E resp req url port res).
Proof.
  unfold generic_stage, headers_stage.
  repeat rewrites_step;
    first [ apply rewrites_response_pop_unknown
          | apply rewrites_response_keeps;
            auto using keeps_data_body_stage with keeps ].
Qed.

Lemma rewrites_response_after_check (resp : value) :
  rewrites_response (after_check E resp).
Proof.
  unfold after_check.
  repeat rewrites_step;
    first [ apply rewrites_response_generic
          | apply rewrites_response_keeps;
            auto using keeps_data_tls_stage, keeps_data_port_stage
              with keeps ].
Qed.

Lemma rewrites_response_checked :
  rewrites_response (bind (check_response E) (after_check E)).
Proof.
  apply rewrites_response_bind;
    [apply rewrites_response_keeps, keeps_data_check_response
    |apply rewrites_response_after_check].
Qed.

End Mutation.

Section DataPost.

Variable E : collaborators.

Ltac data_auto := repeat data_step.

Lemma data_post_headers_stage (resp req : value) (banner : string)
    (res : dict) (D D' : value) (Qe : value -> Prop) :
  pops resp D D' Qe -> Qe D -> Qe D' ->
  data_post (headers_stage E resp req banner res) D
    (fun _ X => X = D') (fun _ _ => False) Qe.
Proof.
  intros Hpop HD HD'. unfold headers_stage.
  data_step. data_step. data_step.
  eapply data_post_bind; [now apply Hpop|]. intros h X ->.
  data_auto; reflexivity.
Qed.

Lemma data_post_body (resp url : value) (res : dict) (D : value)
    (Qr : value -> value -> Prop) (Qe : value -> Prop) :
  Qe D ->
  data_post (body_stage E resp url res) D (fun _ X => X = D) Qr Qe.
Proof.
  intros HD s Hs.
  pose proof (keeps_data_body_stage E resp url res s) as Hk.
  pose proof (post_body_stage E resp url res (fun _ => False) s) as Hp.
  destruct (body_stage E resp url res s) as [s' [a|v|e]]; simpl in *;
    [congruence|contradiction|now rewrite Hk, Hs].
Qed.

Lemma data_post_generic (resp req url : value) (port : Z) (res : dict)
    (D D' : value) (Qe : value -> Prop) :
  pops resp D D' Qe -> Qe D -> Qe D' ->
  data_post (generic_stage E resp req url port res) D
    (fun _ _ => False)
    (fun _ X => X = D'
                \/ (X = D /\ exists h, py_get resp "headers" VNone = Ok h
                                       /\ truthy h = false)) Qe.
Proof.
  intros Hpop HD HD'. unfold generic_stage.
  data_step. data_step. data_step.
  destruct (truthy a1) eqn:Ht.
  - eapply data_post_bind;
      [eapply data_post_weaken;
         [| | |apply data_post_headers_stage; eassumption];
         [intros ? ? HX; exact HX|intros ? ? []|auto]|].
    intros [res1 banner1] X ->. data_step.
    destruct (truthy a2).
    + eapply data_post_bind; [now apply data_post_body|].
      intros ? ? ->. cbv beta. data_step. now left.
    + data_step. data_step. now left.
  - data_step. data_step.
    destruct (truthy a2).
    + eapply data_post_bind; [now apply data_post_body|].
      intros ? ? ->. cbv beta. data_step. right. eauto.
    + data_step. data_step. right. eauto.
Qed.

Lemma data_post_silent {A} (m : M A) (D : value) (Qn : A -> Prop)
    (Qr : value -> value -> Prop) (Qe : value -> Prop) :
  keeps_data m -> post m Qn (fun _ => False) -> Qe D ->
  data_post m D (fun _ X => X = D) Qr Qe.
Proof.
  intros Hk Hp HD s Hs. specialize (Hk s). specialize (Hp s).
  destruct (m s) as [s' [a|v|e]]; simpl in *;
    [congruence|contradiction|now rewrite Hk, Hs].
Qed.

Lemma data_post_quiet {A} (m : M A) (D : value) :
  keeps_data m ->
  data_post m D (fun _ X => X = D) (fun _ X => X = D) (fun X => X = D).
Proof.
  intros Hk s Hs. specialize (Hk s).
  destruct (m s) as [s' [a|v|e]]; simpl in *; congruence.
Qed.

(** On the generic path of a request with headers, the data end up
    as [pop_unknown] leaves them. *)
Lemma data_post_after_check_headers (resp req : dict) (D D' : value) :
  getk "request" resp = Some (VDict req) ->
  no_detector (url_of req) ->
  pops (VDict resp) D D' (fun _ => True) ->
  data_post (after_check E (VDict resp)) D (fun _ _ => False)
    (fun _ X => X = D'
                \/ (X = D /\ exists h, py_get (VDict resp) "headers" VNone = Ok h
                                       /\ truthy h = false))
    (fun _ => True).
Proof.
  intros Hreq Hno Hpop. unfold after_check. cbn [getitem]. rewrite Hreq.
  cbn [lift]. do 2 data_step.
  match goal with
  | H : py_get _ "url" _ = Ok _ |- _ => cbn [py_get] in H; injection H as <-
  end.
  fold (url_of req).
  eapply data_post_bind;
    [apply (data_post_silent _ _ (fun _ => True));
       [apply keeps_data_tls_stage|apply post_tls_stage|exact I]|].
  intros res X ->.
  eapply data_post_bind;
    [apply (data_post_silent _ _ (fun _ => True));
       [apply keeps_data_port_stage
       |now apply post_port_no_detector|exact I]|].
  intros port X ->. cbv beta. now apply data_post_generic.
Qed.

(** On reconciled data nothing is written. *)
Lemma data_post_after_check_quiet (resp D : value) :
  pops resp D D (fun X => X = D) ->
  data_post (after_check E resp) D (fun _ X => X = D) (fun _ X => X = D)
    (fun X => X = D).
Proof.
  intros Hpop. unfold after_check.
  data_step. data_step.
  eapply data_post_bind;
    [apply data_post_quiet, keeps_data_tls_stage|].
  intros res X ->.
  eapply data_post_bind;
    [apply data_post_quiet, keeps_data_port_stage|].
  intros port X ->. cbv beta.
  eapply data_post_weaken;
    [| | |apply (data_post_generic _ _ _ _ _ D D (fun X => X = D));
          auto].
  - intros ? ? [].
  - intros ? ? [->|[-> _]]; reflexivity.
  - auto.
Qed.

Lemma pops_flatten (d resp hdrs : dict) (bucket : list (string * value)) :
  getk "response" d = Some (VDict resp) ->
  getk "headers" resp = Some (VDict hdrs) ->
  headers_shape hdrs bucket ->
  pops (VDict resp) (VDict d)
       (if has_key "unknown" hdrs
        then VDict (with_headers d resp (flattened hdrs bucket))
        else VDict d) (fun _ => True).
Proof.
  intros Hresp Hh Hshape h Hget s Hs.
  cbn [getitem] in Hget. rewrite Hh in Hget. injection Hget as <-.
  destruct s as [data hostrec log]. simpl in Hs. subst data.
  fold (mk_state (VDict d) hostrec log).
  now rewrite (pop_unknown_run d resp hdrs hostrec bucket log Hresp Hshape).
Qed.

Lemma pops_reconciled (D : dict) (resp : value) :
  reconciled D -> getk "response" D = Some resp ->
  pops resp (VDict D) (VDict D) (fun X => X = VDict D).
Proof.
  intros [_ Hrec] Hresp h Hget s Hs. specialize (Hrec resp h Hresp Hget).
  unfold pop_unknown, bind.
  destruct (py_in "unknown" h) as [[]|]; simpl; congruence.
Qed.

Lemma data_post_parser_body_quiet (D : dict) :
  reconciled D ->
  data_post (parser_body E) (VDict D) (fun _ X => X = VDict D)
    (fun _ X => X = VDict D) (fun X => X = VDict D).
Proof.
  intros Hrec s Hs. unfold parser_body.
  rewrite (bind_normal _ _ _ s (st_data s)) by reflexivity.
  rewrite Hs. destruct (negb (truthy (VDict D))); [exact Hs|].
  assert (Hr : reconcile s = (s, Normal tt)).
  { unfold reconcile, bind. cbn -[getk]. rewrite Hs. cbn -[getk].
    unfold has_key. destruct Hrec as [-> _]. reflexivity. }
  rewrite (bind_normal _ _ _ _ _ Hr).
  assert (Hc : match check_response E s with
               | (s', Normal resp) =>
                   st_data s' = VDict D /\ getk "response" D = Some resp
               | (s', _) => st_data s' = VDict D
               end).
  { unfold check_response, bind. cbn -[getk set_difference]. rewrite Hs.
    cbn -[getk set_difference]. unfold has_key.
    destruct (getk "response" D) as [resp|]; cbn -[getk set_difference];
      [|exact Hs].
    destruct (set_difference needed_fields resp) as [diff|]; cbn;
      [|exact Hs].
    destruct (set_iter E diff); cbn; auto. }
  unfold bind at 1.
  destruct (check_response E s) as [s1 [resp|v|e]]; try exact Hc.
  destruct Hc as [Hs1 Hresp].
  apply (data_post_after_check_quiet resp (VDict D)
           (pops_reconciled D resp Hrec Hresp) s1 Hs1).
Qed.

End DataPost.

Lemma merge_lookup (o d : dict) (k x : value) :
  distinct_keys o = true -> dict_get k o = Some x ->
  dict_get k (fold_left (fun acc kv => dict_set (fst kv) (snd kv) acc) o d)
  = Some x.
Proof.
  revert d. induction o as [|[k' v'] o IH]; intros d Hd Hk; [discriminate|].
  simpl in *. destruct (dict_get k' o) eqn:Hk'; [discriminate|].
  destruct (key_eqb k' k) eqn:Hkk.
  - injection Hk as <-. rewrite merge_other.
    + rewrite (dict_get_key_eqb _ _ _ Hkk). apply dict_get_set_same.
      destruct k'; simpl in *; congruence.
    + now rewrite (dict_get_key_eqb _ _ _ Hkk).
  - now apply IH.
Qed.

Lemma flattened_other (hdrs : dict) (bucket : list (string * value))
    (k : string) :
  ~ In k (map fst bucket) -> k <> "unknown" ->
  getk k (flattened hdrs bucket) = getk k hdrs.
Proof.
  intros Hk Hu. unfold flattened.
  assert (H : forall h, getk k (fold_left (fun h kv => setk (fst kv) (snd kv) h)
                                  bucket h) = getk k h).
  { induction bucket as [|[k' v'] b IH]; intros h; simpl; [reflexivity|].
    rewrite IH by (simpl in Hk; tauto).
    apply getk_setk_other. simpl in Hk. intros ->. tauto. }
  rewrite H. apply dict_get_del_other. cbn [key_eqb].
  apply String.eqb_neq. congruence.
Qed.

Lemma flattened_unknown (hdrs : dict) (bucket : list (string * value)) :
  (forall kv, In kv bucket -> fst kv <> "unknown") ->
  getk "unknown" (flattened hdrs bucket) = None.
Proof.
  intros H. unfold flattened.
  assert (Hf : forall h, getk "unknown"
                 (fold_left (fun h kv => setk (fst kv) (snd kv) h) bucket h)
               = getk "unknown" h).
  { induction bucket as [|[k' v'] b IH]; intros h; simpl; [reflexivity|].
    rewrite IH by (intros kv Hkv; apply H; now right).
    apply getk_setk_other. apply (H (k', v')). now left. }
  rewrite Hf. apply dict_get_del_same.
Qed.

Lemma flattened_bucket (hdrs : dict) (bucket : list (string * value))
    (k : string) (x : value) :
  NoDup (map fst bucket) -> In (k, x) bucket ->
  getk k (flattened hdrs bucket) = Some x.
Proof.
  unfold flattened. generalize (dict_del (VStr "unknown") hdrs) as h.
  induction bucket as [|[k' v'] b IH]; intros h Hnd Hin; [contradiction|].
  simpl in *. inversion Hnd as [|? ? Hnotin Hnd']; subst.
  destruct Hin as [Heq|Hin].
  - injection Heq as -> ->.
    assert (H : forall h', getk k (fold_left
                  (fun h kv => setk (fst kv) (snd kv) h) b h') = getk k h').
    { clear IH Hnd Hnd'. induction b as [|[k2 v2] b IHb]; intros h'; simpl;
        [reflexivity|].
      rewrite IHb by (simpl in Hnotin; tauto).
      apply getk_setk_other. simpl in Hnotin. intros ->. tauto. }
    rewrite H. apply getk_setk_same.
  - now apply IH.
Qed.

Section InPlace.

Variable E : collaborators.

Lemma out_data_ext (data : value) (d hostrec : dict) :
  working_shape data d ->
  data_ext (VDict d) (out_data (zgrap_parser_http E data hostrec)).
Proof.
  intros Hshape. unfold zgrap_parser_http.
  fold (mk_state data hostrec []).
  rewrite (parser_body_shape E _ _ _ _ Hshape).
  pose proof (rewrites_response_checked E (mk_state (VDict d) hostrec []))
    as H.
  destruct (bind (check_response E) (after_check E) _) as [s c]. exact H.
Qed.

(** C10: the call changes the caller's data in place.  After it the
    data are the working shape but for the [response] entry: the
    [result] wrapper is gone and its entries are at the top level.
    When the call returns on the generic path and the headers had an
    [unknown] bucket, the headers in the data are the flattened ones,
    without the bucket and with its entries.  A second call on data so
    reconciled leaves them as they are. *)
Theorem input_mutated_in_place (data : value) (d hostrec : dict) :
  working_shape data d ->
  let out := zgrap_parser_http E data hostrec in
  exists D,
    out_data out = VDict D
    /\ (forall k, k <> "response" -> getk k D = getk k d)
    /\ (forall r, field "result" data = Some (VDict r) ->
          (getk "result" r = None -> getk "result" D = None)
          /\ (distinct_keys r = true ->
              forall k x, k <> "response" -> getk k r = Some x ->
                          getk k D = Some x))
    /\ (forall resp req hdrs bucket v,
          accepted d resp req -> no_detector (url_of req) ->
          getk "headers" resp = Some (VDict hdrs) ->
          headers_shape hdrs bucket -> has_key "unknown" hdrs = true ->
          out_result out = Ok v ->
          D = with_headers d resp (flattened hdrs bucket)
          /\ ((forall kv, In kv bucket -> fst kv <> "unknown") ->
              getk "unknown" (flattened hdrs bucket) = None)
          /\ (NoDup (map fst bucket) ->
              forall k x, In (k, x) bucket ->
                          getk k (flattened hdrs bucket) = Some x))
    /\ (reconciled D ->
        forall hostrec',
          out_data (zgrap_parser_http E (VDict D) hostrec') = VDict D).
Proof.
  intros Hshape out.
  assert (HD : exists D, out_data out = VDict D
                         /\ forall k, k <> "response" -> getk k D = getk k d).
  { destruct (out_data_ext data d hostrec Hshape) as [H|(d' & v & Hd & H)].
    - exists d. split; [exact H|reflexivity].
    - injection Hd as <-. exists (setk "response" v d).
      split; [exact H|]. intros k Hk. now apply getk_setk_other. }
  destruct HD as (D & HD & Htop). exists D.
  split; [exact HD|]. split; [exact Htop|]. split; [|split].
  - intros r Hr. destruct Hshape as (d0 & -> & Hne & Hd).
    cbn [field] in Hr. rewrite Hr in Hd. subst d.
    cbn [dict_update fst] in Htop. split.
    + intros Hnone. rewrite Htop by discriminate. unfold getk.
      rewrite merge_other by exact Hnone. apply dict_get_del_same.
    + intros Hdist k x Hk Hkx. rewrite Htop by exact Hk.
      now apply merge_lookup.
  - intros resp req hdrs bucket v Hacc Hno Hh Hhs Hunk Hv.
    split; [|split; [apply flattened_unknown
                    |intros Hnd k x Hin; now apply flattened_bucket]].
    subst out. unfold zgrap_parser_http in HD, Hv.
    fold (mk_state data hostrec []) in HD, Hv.
    rewrite (parser_body_shape E _ _ _ _ Hshape) in HD, Hv.
    rewrite (bind_normal _ _ _ _ _
               (check_response_accepted E _ _ _ _ _ Hacc)) in HD, Hv.
    pose proof (data_post_after_check_headers E resp req (VDict d) _
                  (acc_request _ _ _ Hacc) Hno
                  (pops_flatten d resp hdrs bucket
                     (acc_response _ _ _ Hacc) Hh Hhs)
                  (mk_state (VDict d) hostrec []) eq_refl) as Hp.
    rewrite Hunk in Hp.
    destruct (after_check E (VDict resp) _) as [s [a|r|e]]; simpl in *;
      try contradiction; try discriminate.
    destruct Hp as [Hp|[_ (h & Hget & Ht)]].
    + congruence.
    + rewrite Hh in Hget. injection Hget as <-.
      unfold has_key in Hunk. destruct hdrs; [discriminate|discriminate].
  - intros Hrec hostrec'. unfold zgrap_parser_http.
    pose proof (data_post_parser_body_quiet E D Hrec
                  {| st_data := VDict D; st_hostrec := hostrec';
                     st_log := [] |} eq_refl) as Hq.
    destruct (parser_body E _) as [s [a|r|e]]; exact Hq.
Qed.

End InPlace.

(** * The theorems at sample inputs *)
Lemma sample_keeps (k : string) : fingerprint_keeps sample k.
Proof. intros banner proto probe. reflexivity. Defined.

Lemma git_shape : working_shape git_input (result_of git_resp).
Proof.
  exists (result_of git_resp).
  split; [reflexivity|]. split; [discriminate|reflexivity].
Defined.

Lemma git_accepted : accepted (result_of git_resp) git_resp git_req.
Proof. split; reflexivity. Defined.

Lemma git_tls : tls_typed git_req.
Proof.
  eexists. split; [reflexivity|]. right. right. eexists. reflexivity.
Defined.

Lemma sample_hostnames : hostnames_typed sample_host.
Proof. left. reflexivity. Defined.

Lemma git_host : host_typed git_url.
Proof. right. eexists. reflexivity. Defined.

Lemma git_plain_shape :
  working_shape git_plain_input (result_of git_plain_resp).
Proof.
  exists (result_of git_plain_resp).
  split; [reflexivity|]. split; [discriminate|reflexivity].
Defined.

Lemma git_plain_accepted :
  accepted (result_of git_plain_resp) git_plain_resp git_plain_req.
Proof. split; reflexivity. Defined.

Lemma git_plain_tls : tls_typed git_plain_req.
Proof. exists VNone. split; [reflexivity|now left]. Defined.

Lemma git_plain_host : host_typed git_plain_url.
Proof. right. eexists. reflexivity. Defined.

(** C2: the amended statement on [git_plain_input]: the repository is
    [192.0.2.1:8443/x/.git/], in the only script of the record. *)
Lemma git_repository_found_witness :
  exists res,
    out_result (zgrap_parser_http sample git_plain_input sample_host)
    = Ok (VDict res)
    /\ getk "port" res = Some (VInt 8443)
    /\ scripts_of (VDict res) = [http_git_script "192.0.2.1:8443/x/.git/"].
Proof.
  destruct (git_repository_found sample git_plain_input
              (result_of git_plain_resp) git_plain_resp git_plain_req
              git_plain_url sample_host "/x" "DIRC0002"
              (VStr "192.0.2.1") git_plain_shape git_plain_accepted
              git_plain_tls sample_hostnames eq_refl git_plain_host eq_refl
              eq_refl eq_refl eq_refl eq_refl)
    as (res & before & H1 & H2 & H3 & _ & H5).
  exists res. split; [exact H1|]. split; [exact H2|].
  now rewrite (H5 eq_refl) in H3.
Defined.

Lemma port_shape : working_shape port_input (result_of port_resp).
Proof.
  exists (result_of port_resp).
  split; [reflexivity|]. split; [discriminate|reflexivity].
Defined.

Lemma port_accepted : accepted (result_of port_resp) port_resp port_req.
Proof. split; reflexivity. Defined.

(** C3: a request without URL whose TLS log has no handshake log: no
    handshake data are found and no tunnel is recorded, yet the port is
    443, where the claim gives 80. *)
Lemma port_443_without_handshake :
  find_tls (VDict tls_log_req) = Ok VNone
  /\ exists res,
       out_result (zgrap_parser_http sample tls_log_input sample_host)
       = Ok (VDict res)
       /\ getk "service_tunnel" res = None
       /\ getk "port" res = Some (VInt 443)
       /\ getk "port" res <> Some (VInt 80).
Proof.
  split; [reflexivity|]. eexists. split; [reflexivity|].
  split; [reflexivity|]. split; [reflexivity|discriminate].
Qed.

Lemma sep_shape : working_shape sep_input (result_of sep_resp).
Proof.
  exists (result_of sep_resp).
  split; [reflexivity|]. split; [discriminate|reflexivity].
Defined.

Lemma sep_accepted : accepted (result_of sep_resp) sep_resp sep_req.
Proof. split; reflexivity. Defined.

(** C3: the amended statement on [port_input], where the host
    [example.com:8080] gives port 8080, and on [sep_input], where [int]
    refuses the text after the colon and the scheme gives 443. *)
Lemma port_inferred_witness :
  (exists res,
     out_result (zgrap_parser_http sample port_input sample_host)
     = Ok (VDict res)
     /\ getk "port" res = Some (VInt 8080))
  /\ exists res,
       out_result (zgrap_parser_http sample sep_input sample_host)
       = Ok (VDict res)
       /\ getk "port" res = Some (VInt 443).
Proof.
  split; eexists; (split; [reflexivity|]).
  - refine (port_inferred sample port_input (result_of port_resp) port_resp
              port_req sample_host _ port_shape port_accepted
              (sample_keeps "port") eq_refl _).
    discriminate.
  - refine (port_inferred sample sep_input (result_of sep_resp) sep_resp
              sep_req sample_host _ sep_shape sep_accepted
              (sample_keeps "port") eq_refl _).
    discriminate.
Defined.

Lemma git_miss_shape : working_shape git_miss_input (result_of git_miss_resp).
Proof.
  exists (result_of git_miss_resp).
  split; [reflexivity|]. split; [discriminate|reflexivity].
Defined.

Lemma git_miss_accepted :
  accepted (result_of git_miss_resp) git_miss_resp git_req.
Proof. split; reflexivity. Defined.

(** C4: the statement on [git_miss_input]: right path, status 200, a
    body that is no Git index. *)
Lemma detector_hard_fail_witness :
  out_result (zgrap_parser_http sample git_miss_input sample_host)
  = Ok (VDict []).
Proof.
  apply (detector_hard_fail sample git_miss_input (result_of git_miss_resp)
           git_miss_resp git_req git_url sample_host "/x/.git/index"
           git_miss_shape git_miss_accepted git_tls sample_hostnames
           eq_refl).
  - discriminate.
  - exact git_host.
  - reflexivity.
  - left. split; [reflexivity|]. right. eexists. split; reflexivity.
Defined.

(** C5: a response that is [null] lacks every required field, and the
    call raises [TypeError] instead of returning the empty mapping. *)
Lemma null_response_raises :
  getk "response" (entries [("response", VNone)]) = Some VNone
  /\ out_result (zgrap_parser_http sample null_response_input sample_host)
     = Err TypeError.
Proof. split; reflexivity. Qed.

Lemma bare_shape : working_shape bare_input (result_of bare_resp).
Proof.
  exists (result_of bare_resp).
  split; [reflexivity|]. split; [discriminate|reflexivity].
Defined.

(** C5: the amended statement on [bare_input], whose response has a
    request only. *)
Lemma missing_field_warns_witness :
  out_result (zgrap_parser_http sample bare_input sample_host) = Ok (VDict [])
  /\ out_log (zgrap_parser_http sample bare_input sample_host)
     = ["Missing fields 'status_code', 'status_line' in zgrab HTTP result"].
Proof.
  destruct (missing_field_warns sample bare_input (result_of bare_resp)
              sample_host bare_shape) as (H1 & msg & H2 & _ & H3).
  - right. exists bare_resp. split; [reflexivity|discriminate].
  - split; [exact H1|]. reflexivity.
Defined.

Lemma owa_shape : working_shape owa_input (result_of owa_resp).
Proof.
  exists (result_of owa_resp).
  split; [reflexivity|]. split; [discriminate|reflexivity].
Defined.

Lemma owa_accepted : accepted (result_of owa_resp) owa_resp owa_req.
Proof. split; reflexivity. Defined.

Lemma owa_tls : tls_typed owa_req.
Proof. eexists. split; [reflexivity|]. now left. Defined.

Lemma owa_host : host_typed owa_url.
Proof. right. eexists. reflexivity. Defined.

Lemma owa_found :
  finditer _EXPR_OWA_VERSION owa_body = ["15.1.2.3"; "2.0.0.0"].
Proof. vm_compute. reflexivity. Defined.

Lemma owa_found_nonempty : finditer _EXPR_OWA_VERSION owa_body <> [].
Proof. rewrite owa_found. discriminate. Defined.

(** C6: the amended statement on [owa_input]: both versions are listed
    and [2.0.0.0], whose key is least, is the version reported. *)
Lemma owa_version_found_witness :
  exists res before versions,
    out_result (zgrap_parser_http sample owa_input sample_host) = Ok (VDict res)
    /\ scripts_of (VDict res)
       = (before ++ [http_app_script "/owa/" (owa_output "/owa/" versions)
                       (hd "" versions)])%list
    /\ Permutation ["15.1.2.3"; "2.0.0.0"] versions
    /\ hd "" versions = "2.0.0.0".
Proof.
  destruct (owa_version_found sample owa_input (result_of owa_resp) owa_resp
              owa_req owa_url sample_host "" owa_body owa_shape owa_accepted
              owa_tls sample_hostnames eq_refl owa_host eq_refl eq_refl
              eq_refl owa_found_nonempty eq_refl)
    as (res & before & versions & H1 & _ & H3 & _ & H5 & H6).
  rewrite owa_found in H5, H6.
  exists res, before, versions. split; [exact H1|]. split; [exact H3|].
  split; [exact H5|].
  destruct (H6 "2.0.0.0" (or_intror (or_introl eq_refl)))
    as (k0 & k & Hk0 & Hk & Hlt).
  vm_compute in Hk. injection Hk as <-.
  assert (Hin : In (hd "" versions) ["15.1.2.3"; "2.0.0.0"]).
  { apply Permutation_sym in H5. apply (Permutation_in _ H5).
    destruct versions as [|v vs]; [|now left].
    apply Permutation_nil in H5. vm_compute in H5. discriminate. }
  destruct Hin as [Hv|[Hv|[]]]; [|now symmetry].
  rewrite <- Hv in Hk0. vm_compute in Hk0. injection Hk0 as <-.
  discriminate.
Defined.

(** C7: the statement on [port_input]. *)
Lemma record_has_port_witness :
  exists v res,
    out_result (zgrap_parser_http sample port_input sample_host) = Ok v
    /\ v = VDict res /\ (res = [] \/ has_key "port" res = true).
Proof.
  eexists.
  destruct (record_has_port sample port_input sample_host _ eq_refl)
    as (res & H1 & H2).
  exists res. split; [reflexivity|]. split; assumption.
Defined.

Lemma headers_shape_sample : headers_shape sample_headers headers_bucket.
Proof. repeat constructor. Defined.

Lemma wrapped_shape : working_shape wrapped_input (result_of headers_resp).
Proof.
  eexists. split; [reflexivity|]. split; [discriminate|reflexivity].
Defined.

Lemma headers_accepted :
  accepted (result_of headers_resp) headers_resp headers_req.
Proof. split; reflexivity. Defined.


(** C10: the statement on [wrapped_input]: the wrapper and the bucket
    are gone from the caller's data, and a second call finds the data
    reconciled and leaves them as they are. *)
Lemma input_mutated_in_place_witness :
  exists D,
    out_data (zgrap_parser_http sample wrapped_input sample_host) = VDict D
    /\ getk "result" D = None
    /\ D = with_headers (result_of headers_resp) headers_resp
             (entries [("content_type", VList [VStr "text/html"]);
                       ("x_custom", VList [VStr "1"])])
    /\ forall hostrec',
         out_data (zgrap_parser_http sample (VDict D) hostrec') = VDict D.
Proof.
  destruct (input_mutated_in_place sample wrapped_input
              (result_of headers_resp) sample_host wrapped_shape)
    as (D & HD & Htop & Hres & Hflat & Hquiet).
  destruct (Hflat headers_resp headers_req sample_headers headers_bucket _
              headers_accepted (or_introl eq_refl) eq_refl
              headers_shape_sample eq_refl eq_refl) as (HDeq & _).
  exists D. split; [exact HD|].
  split; [rewrite Htop by discriminate; reflexivity|].
  split; [exact HDeq|].
  apply Hquiet. subst D. split; [reflexivity|].
  intros resp hdrs Hresp Hh. cbv in Hresp. injection Hresp as <-.
  cbv in Hh. injection Hh as <-. cbv. discriminate.
Defined.

Lemma preserves_bind {X A B} (proj : state -> X) (m : M A) (f : A -> M B) :
  preserves proj m -> (forall a, preserves proj (f a)) ->
  preserves proj (bind m f).
Proof.
  intros Hm Hf s. unfold bind. specialize (Hm s).
  destruct (m s) as [s' [a|v|e]]; simpl in *; try exact Hm.
  now rewrite Hf.
Qed.

Lemma preserves_ret {X A} (proj : state -> X) (a : A) : preserves proj (ret a).
Proof. intros s. reflexivity. Qed.

Lemma preserves_return {X A} (proj : state -> X) (v : value) :
  preserves proj (@return_ A v).
Proof. intros s. reflexivity. Qed.

Lemma preserves_raise {X A} (proj : state -> X) (e : exn) :
  preserves proj (@raise A e).
Proof. intros s. reflexivity. Qed.

Lemma preserves_lift {X A} (proj : state -> X) (r : result A) :
  preserves proj (lift r).
Proof. destruct r; intros s; reflexivity. Qed.

Lemma preserves_get_data {X} (proj : state -> X) : preserves proj get_data.
Proof. intros s. reflexivity. Qed.

Lemma preserves_get_hostrec {X} (proj : state -> X) :
  preserves proj get_hostrec.
Proof. intros s. reflexivity. Qed.

Lemma preserves_for_each {X A} (proj : state -> X) (l : list A)
    (f : A -> M unit) :
  (forall a, preserves proj (f a)) -> preserves proj (for_each l f).
Proof.
  intros Hf. induction l as [|x l IH]; simpl.
  - apply preserves_ret.
  - apply preserves_bind; [apply Hf|intros _; exact IH].
Qed.

Lemma log_set_data (v : value) : preserves st_log (set_data v).
Proof. intros s. reflexivity. Qed.

Lemma log_set_hostrec (h : dict) : preserves st_log (set_hostrec h).
Proof. intros s. reflexivity. Qed.

Lemma hostrec_set_data (v : value) : preserves st_hostrec (set_data v).
Proof. intros s. reflexivity. Qed.

Lemma hostrec_warning (msg : string) : preserves st_hostrec (warning msg).
Proof. intros s. reflexivity. Qed.

Create HintDb preserves.

#[export] Hint Resolve preserves_ret preserves_return preserves_raise
  preserves_lift preserves_get_data preserves_get_hostrec preserves_for_each
  log_set_data log_set_hostrec hostrec_set_data hostrec_warning : preserves.

Ltac preserves_step :=
  match goal with
  | |- preserves _ (bind _ _) => apply preserves_bind; [|intros]
  | |- preserves _ (if ?c then _ else _) => destruct c
  | |- preserves _ (let (_, _) := ?x in _) => destruct x
  | |- preserves _ (match ?x with _ => _ end) => destruct x
  end.

Ltac preserved := repeat preserves_step; auto with preserves.

Lemma log_add_hostnames (E : collaborators) (cert : value) :
  preserves st_log (add_hostnames E cert).
Proof. unfold add_hostnames. preserved. Qed.

#[export] Hint Resolve log_add_hostnames : preserves.

Section Kept.

Variable E : collaborators.

Lemma log_reconcile : preserves st_log reconcile.
Proof. unfold reconcile. preserved. Qed.

Lemma hostrec_reconcile : preserves st_hostrec reconcile.
Proof. unfold reconcile. preserved. Qed.

Lemma hostrec_check_response : preserves st_hostrec (check_response E).
Proof. unfold check_response. preserved. Qed.

Lemma log_tls_stage (req : value) (res : dict) :
  preserves st_log (tls_stage E req res).
Proof. unfold tls_stage. preserved. Qed.

Lemma log_port_stage (resp req url : value) (res : dict) :
  preserves st_log (port_stage E resp req url res).
Proof. unfold port_stage, git_detector, owa_detector. preserved. Qed.

Lemma hostrec_port_stage (resp req url : value) (res : dict) :
  preserves st_hostrec (port_stage E resp req url res).
Proof. unfold port_stage, git_detector, owa_detector. preserved. Qed.

Lemma log_generic_stage (resp req url : value) (port : Z) (res : dict) :
  preserves st_log (generic_stage E resp req url port res).
Proof.
  unfold generic_stage, headers_stage, body_stage, pop_unknown, write_headers.
  preserved.
Qed.

Lemma hostrec_generic_stage (resp req url : value) (port : Z) (res : dict) :
  preserves st_hostrec (generic_stage E resp req url port res).
Proof.
  unfold generic_stage, headers_stage, body_stage, pop_unknown, write_headers.
  preserved.
Qed.

Lemma log_after_check (resp : value) : preserves st_log (after_check E resp).
Proof.
  unfold after_check. preserved;
    auto using log_tls_stage, log_port_stage, log_generic_stage.
Qed.

Lemma set_difference_incl (fields l : list string) (other : value) :
  set_difference fields other = Ok l -> incl l fields.
Proof.
  unfold set_difference. intros H x Hx.
  destruct other; simpl in H; try discriminate;
    try (destruct (forallb _ _); try discriminate);
    injection H as <-; apply filter_In in Hx; tauto.
Qed.

Lemma warns_check_response : warns (check_response E).
Proof.
  intros s. unfold check_response, bind, get_data.
  destruct (py_in "response" (st_data s)) as [[|]|e]; cbn [lift ret raise negb];
    [|right|now left].
  - destruct (getitem (st_data s) "response") as [resp|e]; cbn; [|now left].
    destruct (set_difference needed_fields resp) as [diff|e] eqn:Hd;
      cbn -[needed_fields]; [|now left].
    destruct (set_iter E diff) as [|f fs] eqn:Hs; [now left|right].
    exists (missing_fields_msg (f :: fs)). split; [|now cbn].
    right. exists (f :: fs). split; [discriminate|]. split; [|reflexivity].
    intros x Hx. rewrite <- Hs in Hx. apply set_iter_in in Hx.
    now apply (set_difference_incl _ _ _ Hd).
  - exists missing_response_msg. split; [now left|now cbn].
Qed.

Lemma warns_bind_left {A B} (m : M A) (f : A -> M B) :
  warns m -> (forall a, preserves st_log (f a)) -> warns (bind m f).
Proof.
  intros Hm Hf s. unfold bind. specialize (Hm s).
  destruct (m s) as [s' c] eqn:Hms; simpl in Hm.
  destruct Hm as [Hlog|(msg & Hmsg & Hlog & Hh & Hc)].
  - destruct c as [a|v|e]; simpl; [|now left|now left].
    left. rewrite (Hf a s'). exact Hlog.
  - simpl in Hc. subst c. right. exists msg. now simpl.
Qed.

Lemma warns_bind_right {A B} (m : M A) (f : A -> M B) :
  preserves st_log m -> preserves st_hostrec m -> (forall a, warns (f a)) ->
  warns (bind m f).
Proof.
  intros Hl Hh Hf s. unfold bind. specialize (Hl s). specialize (Hh s).
  destruct (m s) as [s' [a|v|e]]; simpl in *; [|now left|now left].
  destruct (Hf a s') as [H|(msg & Hmsg & Hlog & Hhost & Hc)].
  - left. congruence.
  - right. exists msg. repeat split; congruence.
Qed.

Lemma warns_parser_body : warns (parser_body E).
Proof.
  unfold parser_body.
  apply warns_bind_right; auto with preserves. intros data.
  destruct (negb (truthy data)); [now left|].
  apply warns_bind_right;
    [apply log_reconcile|apply hostrec_reconcile|intros _].
  fold (after_check E).
  apply warns_bind_left; [apply warns_check_response|apply log_after_check].
Qed.

(** X1: a call on empty data (lines 47-48: [None], an empty object,
    list or text, zero, [False]) returns the empty mapping at once: it
    logs nothing and leaves both arguments as they are. *)
Theorem empty_data_untouched (data : value) (hostrec : dict) :
  truthy data = false ->
  zgrap_parser_http E data hostrec
  = {| out_data := data; out_hostrec := hostrec; out_log := [];
       out_result := Ok (VDict []) |}.
Proof.
  intros H. unfold zgrap_parser_http, parser_body, bind, get_data.
  cbn -[truthy]. now rewrite H.
Qed.

(** X2: a call logs at most one warning.  When it logs one, the warning
    is the one for a missing response or the one that names missing
    required fields, the call returns the empty mapping and the host
    record is as before: the warnings of lines 52-64 are the only ones,
    and nothing is logged on the way to a record or to an exception. *)
Theorem at_most_one_warning (data : value) (hostrec : dict) :
  let out := zgrap_parser_http E data hostrec in
  out_log out = []
  \/ exists msg,
       out_log out = [msg] /\ warning_text msg
       /\ out_result out = Ok (VDict []) /\ out_hostrec out = hostrec.
Proof.
  intros out. subst out. unfold zgrap_parser_http.
  pose proof (warns_parser_body
                {| st_data := data; st_hostrec := hostrec; st_log := [] |})
    as H.
  destruct (parser_body E _) as [s c]. simpl in *.
  destruct H as [H|(msg & Hmsg & Hlog & Hh & ->)]; [now left|right].
  exists msg. auto.
Qed.

End Kept.

(** X1 on an empty object. *)
Lemma empty_data_untouched_witness :
  zgrap_parser_http sample (VDict []) sample_host
  = {| out_data := VDict []; out_hostrec := sample_host; out_log := [];
       out_result := Ok (VDict []) |}.
Proof.
  apply (empty_data_untouched sample (VDict []) sample_host). reflexivity.
Defined.

Lemma preserves_after {X A B} (proj : state -> X) (m : M A) (f : A -> M B)
    (s : state) :
  (forall a, preserves proj (f a)) ->
  proj (fst (bind m f s)) = proj (fst (m s)).
Proof.
  intros Hf. unfold bind. destruct (m s) as [s' [a|v|e]]; simpl;
    [apply Hf|reflexivity|reflexivity].
Qed.

Section Hostnames.

Variable E : collaborators.

Lemma add_hostnames_run (cert : value) (s : state) (l : list value) :
  hostnames_of (st_hostrec s) = Some l ->
  add_hostnames E cert s
  = ({| st_data := st_data s;
        st_hostrec := setk "hostnames"
                        (VList (l ++ add_cert_hostnames E cert l)%list)
                        (st_hostrec s);
        st_log := st_log s |}, Normal tt).
Proof.
  unfold hostnames_of, add_hostnames, bind, get_hostrec. intros H.
  destruct (getk "hostnames" (st_hostrec s)) as [[]|]; try discriminate;
    now injection H as <-.
Qed.

Lemma for_each_grow (info : list value) (cert : value) (s : state)
    (l : list value) :
  hostnames_of (st_hostrec s) = Some l ->
  for_each (cert :: info) (add_hostnames E) s
  = ({| st_data := st_data s;
        st_hostrec := setk "hostnames"
                        (VList (grow_hostnames E (cert :: info) l))
                        (st_hostrec s);
        st_log := st_log s |}, Normal tt).
Proof.
  revert cert s l. induction info as [|c info IH]; intros cert s l H.
  - cbn [for_each]. unfold bind. now rewrite (add_hostnames_run _ _ _ H).
  - change (for_each (cert :: c :: info) (add_hostnames E))
      with (bind (add_hostnames E cert)
              (fun _ => for_each (c :: info) (add_hostnames E))).
    unfold bind at 1. rewrite (add_hostnames_run _ _ _ H).
    rewrite (IH c _ (l ++ add_cert_hostnames E cert l)%list).
    + cbn [st_data st_hostrec st_log]. unfold setk.
      now rewrite dict_set_set by reflexivity.
    + cbn [st_hostrec]. unfold hostnames_of. now rewrite getk_setk_same.
Qed.

Lemma cert_stage_hostrec (tls : value) (res : dict) (s : state)
    (l : list value) :
  getk "scripts" res = None ->
  hostnames_of (st_hostrec s) = Some l ->
  st_hostrec
    (fst ((c <- lift (leaf_certificate tls) ;;
           match c with
           | None => ret res
           | Some cert =>
               raw <- lift (as_str cert) ;;
               let (output, info) := create_ssl_cert E raw in
               match info with
               | [] => ret res
               | _ =>
                   res <- lift (add_script res
                            (Ok (obj [("id", VStr "ssl-cert");
                                      ("output", VStr output);
                                      ("ssl-cert", VList info)]))) ;;
                   for_each info (add_hostnames E) ;;;
                   ret res
               end
           end) s))
  = match leaf_certificate tls with
    | Ok (Some (VStr raw)) =>
        match snd (create_ssl_cert E raw) with
        | [] => st_hostrec s
        | info =>
            setk "hostnames" (VList (grow_hostnames E info l)) (st_hostrec s)
        end
    | _ => st_hostrec s
    end.
Proof.
  intros Hres Hl. unfold bind.
  destruct (leaf_certificate tls) as [[cert|]|e]; cbn [lift ret raise fst];
    try reflexivity.
  destruct cert; cbn [as_str lift ret raise fst]; try reflexivity.
  destruct (create_ssl_cert E s0) as [output info]. cbn [snd].
  destruct info as [|c info]; [reflexivity|].
  unfold add_script. rewrite Hres. cbn [rbind lift ret].
  now rewrite (for_each_grow _ _ _ _ Hl).
Qed.

Lemma tls_stage_hostrec (req : value) (res : dict) (s : state)
    (l : list value) :
  getk "scripts" res = None ->
  hostnames_of (st_hostrec s) = Some l ->
  st_hostrec (fst (tls_stage E req res s))
  = match certificates E req with
    | [] => st_hostrec s
    | info => setk "hostnames" (VList (grow_hostnames E info l)) (st_hostrec s)
    end.
Proof.
  intros Hres Hl. unfold tls_stage, certificates. unfold bind at 1.
  destruct (find_tls req) as [tls|e]; cbn [lift ret raise fst];
    [|reflexivity].
  assert (Hres' : getk "scripts" (setk "service_tunnel" (VStr "ssl") res)
                  = None)
    by (rewrite getk_setk_other; [exact Hres|discriminate]).
  destruct tls; try reflexivity;
    (rewrite (cert_stage_hostrec _ _ _ _ Hres' Hl);
     destruct (leaf_certificate _) as [[[]|]|]; reflexivity).
Qed.

(** X3: the host record after a call, whatever its outcome (a record,
    the empty mapping or an exception): unchanged when
    [create_ssl_cert] gave no certificate, and otherwise with its
    [hostnames] entry set to the list before the call, extended by each
    certificate in turn (lines 86-95).  The later stages never write
    to the host record, so the hostnames stay appended when a detector
    then returns the empty mapping or a later lookup raises. *)
Theorem hostnames_grown (data : value) (d resp req hostrec : dict)
    (l : list value) :
  working_shape data d -> accepted d resp req ->
  hostnames_of hostrec = Some l ->
  out_hostrec (zgrap_parser_http E data hostrec)
  = match certificates E (VDict req) with
    | [] => hostrec
    | info => setk "hostnames" (VList (grow_hostnames E info l)) hostrec
    end.
Proof.
  intros Hshape Hacc Hl.
  transitivity
    (st_hostrec (fst (tls_stage E (VDict req) base_record
                        (mk_state (VDict d) hostrec []))));
    [|exact (tls_stage_hostrec (VDict req) base_record
               (mk_state (VDict d) hostrec []) l eq_refl Hl)].
  unfold zgrap_parser_http. fold (mk_state data hostrec []).
  rewrite (parser_body_shape E _ _ _ _ Hshape).
  rewrite (bind_normal _ _ _ _ _ (check_response_accepted E _ _ _ _ _ Hacc)).
  unfold after_check.
  cbn [getitem]. rewrite (acc_request _ _ _ Hacc).
  rewrite (bind_normal _ _ _ _ (VDict req) eq_refl).
  rewrite (bind_normal _ _ _ _ (url_of req) eq_refl).
  pose proof (preserves_after st_hostrec
                (tls_stage E (VDict req) base_record)
                (fun res =>
                   bind (port_stage E (VDict resp) (VDict req) (url_of req) res)
                     (fun port =>
                        generic_stage E (VDict resp) (VDict req) (url_of req)
                          port res))
                (mk_state (VDict d) hostrec [])) as H.
  rewrite <- H.
  - destruct (bind _ _ _) as [s c]. reflexivity.
  - intros res. apply preserves_bind;
      [apply hostrec_port_stage|intros; apply hostrec_generic_stage].
Qed.

End Hostnames.

(** X3 on [git_miss_input]: the detector returns the empty mapping and
    the hostname of the certificate is in the host record all the same. *)
Lemma hostnames_grown_witness :
  out_result (zgrap_parser_http sample git_miss_input sample_host)
  = Ok (VDict [])
  /\ out_hostrec (zgrap_parser_http sample git_miss_input sample_host)
     = setk "hostnames"
         (VList [obj [("type", VStr "cert-subject-cn");
                      ("name", obj [("subject", VStr "MIIB")])]])
         sample_host.
Proof.
  split; [reflexivity|].
  exact (hostnames_grown sample git_miss_input (result_of git_miss_resp)
           git_miss_resp git_req sample_host [] git_miss_shape
           git_miss_accepted eq_refl).
Defined.

Section Entries.

Variable E : collaborators.

#[local] Hint Resolve post_write_headers post_pop_unknown post_headers_stage
  post_body_stage : post.

Lemma frames_script (res res' : dict) (port : Z) (x : result value) :
  add_script (setk "port" (VInt port) res) x = Ok res' -> frames E res res'.
Proof.
  intros H k Hs Hp _. apply add_script_same in H.
  rewrite H by exact Hs. apply getk_setk_other. congruence.
Qed.

Lemma frames_merged (res r1 r2 : dict) (port : Z) (banner : string) :
  same_but_scripts (setk "port" (VInt port) res) r1 ->
  same_but_scripts (merged r1 (match_nmap_svc_fp E banner "tcp" "GetRequest"))
    r2 ->
  frames E res r2.
Proof.
  intros H1 H2 k Hs Hp Hfp. rewrite H2 by exact Hs.
  specialize (Hfp banner "tcp" "GetRequest"). unfold merged.
  destruct (match_nmap_svc_fp E banner "tcp" "GetRequest") as [|kv info].
  - rewrite H1 by exact Hs. apply getk_setk_other. congruence.
  - cbn [dict_update fst]. unfold getk in *. rewrite merge_other by exact Hfp.
    fold (getk k r1). rewrite H1 by exact Hs. apply getk_setk_other.
    congruence.
Qed.

Lemma frames_generic_stage (resp req url : value) (port : Z) (res : dict) :
  post (generic_stage E resp req url port res) (fun _ => False)
       (fun v => exists r, v = VDict r /\ frames E res r).
Proof.
  unfold generic_stage. post_auto; cbv beta in *; subst; cbn [fst] in *;
    eexists; (split; [reflexivity|]);
    eapply frames_merged; unfold merged; eauto using same_but_scripts_refl.
Qed.

Lemma frames_git_detector (resp url : value) (port : Z) (res : dict) :
  post (git_detector E resp url port res) (fun _ => True)
       (fun v => v = VDict [] \/ exists r, v = VDict r /\ frames E res r).
Proof.
  unfold git_detector. post_auto; cbv beta in *; auto.
  right. eexists. split; [reflexivity|]. eapply frames_script; eassumption.
Qed.

Lemma frames_owa_detector (resp url : value) (port : Z) (res : dict) :
  post (owa_detector E resp url port res) (fun _ => True)
       (fun v => v = VDict [] \/ exists r, v = VDict r /\ frames E res r).
Proof.
  unfold owa_detector. post_auto; cbv beta in *; auto.
  right. eexists. split; [reflexivity|]. eapply frames_script; eassumption.
Qed.

Lemma frames_port_stage (resp req url : value) (res : dict) :
  post (port_stage E resp req url res) (fun _ => True)
       (fun v => v = VDict [] \/ exists r, v = VDict r /\ frames E res r).
Proof.
  unfold port_stage. destruct (truthy url).
  - post_step.
    eapply post_bind; [apply frames_git_detector|intros _ _].
    eapply post_bind; [apply frames_owa_detector|intros _ _].
    now apply post_ret.
  - post_auto; exact I.
Qed.

Lemma post_tls_entries (req : value) (res : dict) (Qr : value -> Prop) :
  getk "service_tunnel" res = None ->
  post (tls_stage E req res)
       (fun res' =>
          (forall k, k <> "scripts" -> k <> "service_tunnel" ->
                     getk k res' = getk k res)
          /\ getk "service_tunnel" res' = tunnel_of req) Qr.
Proof.
  intros Hres. unfold tls_stage, tunnel_of. post_step. cbv beta in *.
  match goal with H : find_tls req = Ok _ |- _ => rewrite H end.
  assert (Hset : forall r,
    same_but_scripts (setk "service_tunnel" (VStr "ssl") res) r ->
    (forall k, k <> "scripts" -> k <> "service_tunnel" ->
               getk k r = getk k res)
    /\ getk "service_tunnel" r = Some (VStr "ssl")).
  { intros r Hr. split.
    - intros k Hs Ht. rewrite Hr by exact Hs. apply getk_setk_other.
      congruence.
    - rewrite Hr by discriminate. apply getk_setk_same. }
  destruct a; [post_auto; auto| | | | |].
  all: post_step; cbv beta in *.
  all: destruct a; [|apply post_ret; apply Hset, same_but_scripts_refl].
  all: post_step; cbv beta in *.
  all: destruct (create_ssl_cert E a) as [output info].
  all: destruct info as [|c info];
    [apply post_ret; apply Hset, same_but_scripts_refl|].
  all: post_step; cbv beta in *.
  all: eapply post_bind;
    [apply post_for_each; intros; apply post_add_hostnames
    |intros _ _; apply post_ret; apply Hset;
     eapply add_script_same; eassumption].
Qed.

Lemma post_after_check_entries (resp : value) :
  post (after_check E resp) (fun _ => False)
       (fun v => exists req, getitem resp "request" = Ok req
                             /\ entries_kept E req v).
Proof.
  unfold after_check. post_step. post_step. cbv beta in *.
  eapply post_bind; [apply (post_tls_entries a base_record _ eq_refl)|].
  intros res [Hres Htun].
  assert (Hk : forall r, frames E res r -> entries_kept E a (VDict r)).
  { intros r Hr. right. exists r. split; [reflexivity|]. split.
    - intros k Hs Hp Ht Hfp. rewrite (Hr k Hs Hp Hfp). now apply Hres.
    - intros Hfp. rewrite (Hr "service_tunnel") by (congruence || exact Hfp).
      exact Htun. }
  eapply post_bind with (Q1 := fun _ => True).
  - intros s. pose proof (frames_port_stage resp a a0 res s) as Hs.
    destruct (snd (port_stage E resp a a0 res s)); auto.
    exists a. split; [assumption|].
    destruct Hs as [->|(r & -> & Hr)]; [now left|now apply Hk].
  - intros port _ s.
    pose proof (frames_generic_stage resp a a0 port res s) as Hs.
    destruct (snd (generic_stage E resp a a0 port res s)); auto.
    destruct Hs as (r & -> & Hr). exists a. split; [assumption|now apply Hk].
Qed.

(** X5: a non-empty record returned by a call has [service_tunnel] equal
    to [ssl] exactly when TLS data are found in the request, under
    [tls_handshake] or else under [tls_log.handshake_log] (lines 70-80),
    unless the fingerprint matcher yields a tunnel of its own. *)
Theorem tunnel_marks_tls (data : value) (d resp req hostrec res : dict) :
  working_shape data d -> accepted d resp req ->
  fingerprint_keeps E "service_tunnel" ->
  out_result (zgrap_parser_http E data hostrec) = Ok (VDict res) ->
  res <> [] ->
  getk "service_tunnel" res = tunnel_of (VDict req).
Proof.
  intros Hshape Hacc Hfp Hout Hne.
  unfold zgrap_parser_http in Hout.
  fold (mk_state data hostrec []) in Hout.
  rewrite (parser_body_shape E _ _ _ _ Hshape) in Hout.
  rewrite (bind_normal _ _ _ _ _ (check_response_accepted E _ _ _ _ _ Hacc))
    in Hout.
  pose proof (post_after_check_entries (VDict resp)
                (mk_state (VDict d) hostrec [])) as Hp.
  destruct (after_check E (VDict resp) _) as [s [a|r|e]]; simpl in *;
    try contradiction; try discriminate.
  injection Hout as ->.
  destruct Hp as (req' & Hreq & [H|(r & H & _ & Hr)]); [congruence|].
  injection H as <-.
  rewrite (acc_request _ _ _ Hacc) in Hreq. injection Hreq as <-.
  now apply Hr.
Qed.

End Entries.

(** X5 on [git_input], whose request has a TLS handshake, and on
    [port_input], whose request has none. *)
Lemma tunnel_marks_tls_witness :
  (exists res,
     out_result (zgrap_parser_http sample git_input sample_host)
     = Ok (VDict res)
     /\ getk "service_tunnel" res = Some (VStr "ssl"))
  /\ exists res,
       out_result (zgrap_parser_http sample port_input sample_host)
       = Ok (VDict res)
       /\ getk "service_tunnel" res = None.
Proof.
  split; eexists; (split; [reflexivity|]).
  - refine (tunnel_marks_tls sample git_input (result_of git_resp) git_resp
              git_req sample_host _ git_shape git_accepted
              (sample_keeps "service_tunnel") eq_refl _).
    discriminate.
  - refine (tunnel_marks_tls sample port_input (result_of port_resp) port_resp
              port_req sample_host _ port_shape port_accepted
              (sample_keeps "service_tunnel") eq_refl _).
    discriminate.
Defined.

Lemma add_script_app (res res' : dict) (x : value) :
  add_script res (Ok x) = Ok res' ->
  scripts_of (VDict res') = (scripts_of (VDict res) ++ [x])%list.
Proof.
  unfold add_script. cbn [scripts_of]. intros H.
  destruct (getk "scripts" res) as [[]|]; try discriminate;
    simpl in H; injection H as <-; now rewrite getk_setk_same.
Qed.

Lemma scripts_of_setk (k : string) (x : value) (res : dict) :
  k <> "scripts" ->
  scripts_of (VDict (setk k x res)) = scripts_of (VDict res).
Proof. intros H. cbn [scripts_of]. now rewrite getk_setk_other. Qed.

Section Scripts.

Variable E : collaborators.

Lemma scripts_of_merged (r : dict) (banner : string) :
  fingerprint_keeps E "scripts" ->
  scripts_of (VDict (merged r (match_nmap_svc_fp E banner "tcp" "GetRequest")))
  = scripts_of (VDict r).
Proof.
  intros Hk. specialize (Hk banner "tcp" "GetRequest"). unfold merged.
  destruct (match_nmap_svc_fp E banner "tcp" "GetRequest") as [|kv info];
    [reflexivity|].
  cbn [dict_update fst scripts_of]. unfold getk in *.
  now rewrite merge_other.
Qed.

Lemma post_tls_scripts (req : value) (res : dict) (Qr : value -> Prop) :
  getk "scripts" res = None ->
  post (tls_stage E req res)
       (fun res' => scripts_of (VDict res') = certificate_scripts E req) Qr.
Proof.
  intros Hres. unfold tls_stage, certificate_scripts. post_step. cbv beta in *.
  match goal with H : find_tls req = Ok _ |- _ => rewrite H end.
  assert (Hnone : scripts_of (VDict res) = [])
    by (cbn [scripts_of]; now rewrite Hres).
  assert (Hres' : getk "scripts" (setk "service_tunnel" (VStr "ssl") res)
                  = None)
    by (rewrite getk_setk_other; [exact Hres|discriminate]).
  assert (Htun : scripts_of (VDict (setk "service_tunnel" (VStr "ssl") res))
                 = [])
    by (cbn [scripts_of]; now rewrite Hres').
  destruct a; [now apply post_ret| | | | |].
  all: post_step; cbv beta in *.
  all: match goal with H : leaf_certificate _ = Ok _ |- _ => rewrite H end.
  all: destruct a; [|now apply post_ret].
  all: post_step; cbv beta in *.
  all: destruct v; try discriminate.
  all: match goal with H : as_str _ = Ok _ |- _ => injection H as -> end.
  all: destruct (create_ssl_cert E a) as [output info]; cbn [fst snd].
  all: destruct info as [|c info]; [now apply post_ret|].
  all: post_step; cbv beta in *.
  all: eapply post_bind;
    [apply post_for_each; intros; apply post_add_hostnames
    |intros _ _; apply post_ret].
  all: match goal with
       | H : add_script _ _ = Ok _ |- _ =>
           apply add_script_app in H; rewrite H, Htun
       end; reflexivity.
Qed.

Lemma post_pop_unknown_exact (hv : value) (Qr : value -> Prop) :
  post (pop_unknown hv)
       (fun a => forall items, viewitems a = Ok items ->
                 exists hdrs, hv = VDict hdrs /\ items = flat_headers hdrs) Qr.
Proof.
  unfold pop_unknown.
  destruct hv as [| | | | |hdrs];
    try (post_auto; cbv beta; intros items Hv; discriminate).
  cbn [py_in lift]. unfold has_key.
  destruct (getk "unknown" hdrs) as [u|] eqn:Hu.
  - cbn [getitem]. rewrite Hu. cbn [lift].
    post_step. cbv iota. post_step.
    eapply post_bind; [apply post_write_headers|intros _ _].
    post_step. cbv beta in *.
    destruct (flatten_unknown a (dict_del (VStr "unknown") hdrs))
      as [h2 e] eqn:Hf.
    eapply post_bind; [apply post_write_headers|intros _ _].
    destruct e; [apply post_raise|apply post_ret].
    intros items Hv. injection Hv as <-. exists hdrs.
    split; [reflexivity|]. unfold flat_headers.
    match goal with H : py_iter _ = Ok _ |- _ => rewrite Hu, H, Hf end.
    reflexivity.
  - post_step. cbv iota. apply post_ret.
    intros items Hv. injection Hv as <-. exists hdrs.
    split; [reflexivity|]. unfold flat_headers. now rewrite Hu.
Qed.

Lemma post_headers_exact (resp req : dict) (hv : value) (banner : string)
    (res : dict) (Qr : value -> Prop) :
  getk "headers" resp = Some hv -> truthy hv = true ->
  post (headers_stage E (VDict resp) (VDict req) banner res)
       (fun r => scripts_of (VDict (fst r))
                 = (scripts_of (VDict res) ++ header_scripts E resp req)%list)
       Qr.
Proof.
  intros Hh Ht. unfold headers_stage, header_scripts, status_text.
  cbn [getitem]. rewrite Hh. cbn [lift].
  post_step. subst. post_step. cbv beta in *.
  match goal with H : rbind _ _ = Ok _ |- _ => cbn [getitem] in H; rewrite H end.
  post_step. cbv beta in *.
  match goal with
  | H : match getk "status_line" resp with _ => _ end = Ok _ |- _ =>
      destruct (getk "status_line" resp) as [line|]; [|discriminate];
      injection H as <-
  end.
  eapply post_bind; [apply post_pop_unknown_exact|].
  intros popped Hpop. post_step. cbv beta in *.
  match goal with
  | H : viewitems _ = Ok _ |- _ =>
      destruct popped as [| | | | |flat]; try discriminate;
      cbn [viewitems] in H; injection H as <-
  end.
  destruct (Hpop flat eq_refl) as (hdrs & -> & ->). clear Hpop.
  destruct hdrs as [|kv hdrs]; [discriminate|].
  set (h := flat_headers (kv :: hdrs)) in *.
  post_step. cbv beta in *. post_step. cbv beta in *.
  cbn [py_get] in *.
  post_step. cbv beta in *.
  match goal with
  | Hl : header_lines E _ = Ok _, Hm : Ok _ = Ok _,
    Ha : add_script res _ = Ok ?r |- _ =>
      assert (Hin : scripts_of (VDict r)
                    = (scripts_of (VDict res)
                       ++ [http_headers_script E (py_str E a ++ " " ++ py_str E line)
                             h req])%list);
      [ apply header_lines_spec in Hl as [Hl1 Hl2];
        eapply add_script_app; rewrite <- Ha; f_equal; f_equal;
        unfold http_headers_script, request_type; cbn [py_str];
        injection Hm as <-; rewrite Hl1, Hl2;
        destruct (getk "method" req) as [m|]; cbn [truthy];
        [destruct (truthy m)|]; cbn [app]; rewrite ?app_nil_r; reflexivity
      | clear Ha ]
  end.
  post_step. cbv beta in *. unfold server_scripts.
  match goal with
  | H : Ok _ = Ok ?x |- post (if truthy ?x then _ else _) _ _ =>
      injection H as <-
  end.
  destruct (getk "server" h) as [server|] eqn:Hsrv; cbn [truthy].
  - destruct (truthy server) eqn:Hts.
    + cbn [getitem]. rewrite Hsrv. cbn [lift].
      post_step. subst. post_step. cbv beta in *.
      post_step. cbv beta in *.
      destruct (getitem0 server) as [s0|e]; [|discriminate].
      apply post_ret. cbn [fst].
      match goal with
      | H : add_script _ _ = Ok _ |- _ =>
          cbn [rbind] in H; apply add_script_app in H; rewrite H, Hin
      end.
      now rewrite <- app_assoc.
    + apply post_ret. cbn [fst]. now rewrite Hin.
  - apply post_ret. cbn [fst]. now rewrite Hin.
Qed.

Lemma post_body_exact (resp : dict) (url bv : value) (res : dict)
    (Qr : value -> Prop) :
  getk "body" resp = Some bv -> truthy bv = true ->
  post (body_stage E (VDict resp) url res)
       (fun res' => scripts_of (VDict res')
                    = (scripts_of (VDict res) ++ body_part E resp url)%list) Qr.
Proof.
  intros Hb Ht. unfold body_stage, body_part, body_scripts.
  cbn [getitem]. rewrite Hb. cbn [lift].
  post_step. subst.
  destruct bv as [| | |body| |]; cbn [as_str rbind];
    try (post_step; cbv beta in *; exfalso;
         match goal with
         | H : add_script _ (Err _) = Ok _ |- _ =>
             unfold add_script in H;
             destruct (getk "scripts" _) as [[]|]; discriminate
         end).
  destruct body as [|c body]; [discriminate|].
  post_step. cbv beta in *.
  set (b := String c body) in *.
  match goal with
  | H : add_script _ _ = Ok _ |- _ =>
      apply add_script_app in H; rename H into Hc
  end.
  post_step. cbv beta in *.
  match goal with H : Ok _ = Ok _ |- _ => injection H as <- end.
  destruct (re_search _EXPR_TITLE b) as [title|].
  - post_step. cbv beta in *.
    match goal with
    | H : add_script _ _ = Ok _ |- _ =>
        apply add_script_app in H; rename H into Hti
    end.
    destruct (create_http_ls E b url) as [ls|].
    + post_step.
      match goal with
      | H : add_script _ _ = Ok _ |- _ =>
          apply add_script_app in H; rewrite H, Hti, Hc
      end.
      rewrite <- ?app_assoc; reflexivity.
    + apply post_ret. rewrite Hti, Hc. rewrite <- ?app_assoc; reflexivity.
  - post_step.
    destruct (create_http_ls E b url) as [ls|].
    + post_step.
      match goal with
      | H : add_script _ _ = Ok _ |- _ =>
          apply add_script_app in H; rewrite H, Hc
      end.
      rewrite <- ?app_assoc; reflexivity.
    + apply post_ret. rewrite Hc. rewrite <- ?app_assoc; reflexivity.
Qed.

Lemma post_generic_scripts (resp req : dict) (url : value) (port : Z)
    (res : dict) :
  fingerprint_keeps E "scripts" ->
  post (generic_stage E (VDict resp) (VDict req) url port res)
       (fun _ => False)
       (fun v => scripts_of v
                 = (scripts_of (VDict res) ++ header_scripts E resp req
                    ++ body_part E resp url)%list).
Proof.
  intros Hfp. unfold generic_stage.
  post_step. post_step. post_step. cbv beta in *.
  match goal with
  | H : py_get (VDict resp) "headers" VNone = Ok _ |- _ =>
      cbn [py_get] in H; injection H as <-
  end.
  eapply post_bind with
    (Q1 := fun r : dict * string =>
             scripts_of (VDict (fst r))
             = (scripts_of (VDict res) ++ header_scripts E resp req)%list).
  { destruct (getk "headers" resp) as [hv|] eqn:Hh.
    - destruct (truthy hv) eqn:Ht.
      + pose proof (post_headers_exact resp req hv
                      (a ++ " " ++ a0 ++ crlf)
                      (setk "port" (VInt port) res)
                      (fun v => scripts_of v
                         = (scripts_of (VDict res) ++ header_scripts E resp req
                            ++ body_part E resp url)%list) Hh Ht) as Hp.
        rewrite scripts_of_setk in Hp by discriminate. exact Hp.
      + apply post_ret. cbn [fst]. rewrite scripts_of_setk by discriminate.
        unfold header_scripts. rewrite Hh.
        destruct hv as [| | | | |[|kv h]]; try discriminate;
          now rewrite app_nil_r.
    - cbn [truthy]. apply post_ret. cbn [fst].
      rewrite scripts_of_setk by discriminate.
      unfold header_scripts. rewrite Hh. now rewrite app_nil_r. }
  intros [r banner] Hr. cbn [fst] in Hr.
  fold (merged r (match_nmap_svc_fp E banner "tcp" "GetRequest")).
  post_step. cbv beta in *.
  match goal with
  | H : py_get (VDict resp) "body" VNone = Ok _ |- _ =>
      cbn [py_get] in H; injection H as <-
  end.
  destruct (getk "body" resp) as [bv|] eqn:Hb.
  - destruct (truthy bv) eqn:Ht.
    + eapply post_bind;
        [apply (post_body_exact resp url bv _ _ Hb Ht)|].
      intros res' Hres'. apply post_return.
      rewrite Hres', (scripts_of_merged _ _ Hfp), Hr.
      now rewrite <- app_assoc.
    + eapply post_bind with (Q1 := fun x => x = _);
        [apply post_ret; reflexivity|intros ? ->].
      apply post_return. rewrite (scripts_of_merged _ _ Hfp), Hr.
      unfold body_part. rewrite Hb.
      destruct bv as [| | |[|c body]| |]; try discriminate;
        now rewrite app_nil_r.
  - cbn [truthy].
    eapply post_bind with (Q1 := fun x => x = _);
      [apply post_ret; reflexivity|intros ? ->].
    apply post_return. rewrite (scripts_of_merged _ _ Hfp), Hr.
    unfold body_part. rewrite Hb. now rewrite app_nil_r.
Qed.

(** X6: the scripts of a record from the generic path are, in this
    order: the [ssl-cert] script when the request carries certificates,
    the [http-headers] script and then the [http-server-header] script
    when the response has headers (and a server among them), and for a
    non-empty body the [http-content] script, the [http-title] script
    when a title is found and the listing of [create_http_ls].  The
    fingerprint matcher is taken not to yield [scripts]. *)
Theorem scripts_in_order (data : value) (d resp req hostrec : dict)
    (v : value) :
  working_shape data d -> accepted d resp req ->
  no_detector (url_of req) ->
  fingerprint_keeps E "scripts" ->
  out_result (zgrap_parser_http E data hostrec) = Ok v ->
  scripts_of v
  = (certificate_scripts E (VDict req) ++ header_scripts E resp req
     ++ body_part E resp (url_of req))%list.
Proof.
  intros Hshape Hacc Hdet Hfp Hout.
  unfold zgrap_parser_http in Hout.
  fold (mk_state data hostrec []) in Hout.
  rewrite (parser_body_shape E _ _ _ _ Hshape) in Hout.
  rewrite (bind_normal _ _ _ _ _ (check_response_accepted E _ _ _ _ _ Hacc))
    in Hout.
  unfold after_check in Hout.
  cbn [getitem] in Hout. rewrite (acc_request _ _ _ Hacc) in Hout.
  rewrite (bind_normal _ _ _ _ (VDict req) eq_refl) in Hout.
  rewrite (bind_normal _ _ _ _ (url_of req) eq_refl) in Hout.
  assert (Hp : post
    (bind (tls_stage E (VDict req) base_record)
       (fun res =>
          bind (port_stage E (VDict resp) (VDict req) (url_of req) res)
            (fun port =>
               generic_stage E (VDict resp) (VDict req) (url_of req) port res)))
    (fun _ => False)
    (fun v => scripts_of v
              = (certificate_scripts E (VDict req) ++ header_scripts E resp req
                 ++ body_part E resp (url_of req))%list)).
  { eapply post_bind; [apply (post_tls_scripts _ base_record _ eq_refl)|].
    intros res Hres.
    eapply post_bind; [apply post_any, (post_port_no_detector E _ _ _ _ Hdet)|].
    intros port _. rewrite <- Hres. now apply post_generic_scripts. }
  specialize (Hp (mk_state (VDict d) hostrec [])).
  destruct (bind _ _ _) as [s [a|r|e]]; simpl in *;
    try contradiction; try discriminate.
  now injection Hout as <-.
Qed.

End Scripts.

(** X6 on [wrapped_input]: a response with headers only has the
    [http-headers] script. *)
Lemma scripts_in_order_witness :
  exists v,
    out_result (zgrap_parser_http sample wrapped_input sample_host) = Ok v
    /\ scripts_of v
       = [http_headers_script sample "HTTP/1.1 200 OK"
            (entries [("content_type", VList [VStr "text/html"]);
                      ("x_custom", VList [VStr "1"])]) headers_req].
Proof.
  eexists. split; [reflexivity|].
  exact (scripts_in_order sample wrapped_input (result_of headers_resp)
           headers_resp headers_req sample_host _ wrapped_shape
           headers_accepted (or_introl eq_refl) (sample_keeps "scripts")
           eq_refl).
Defined.

Section Lookups.

Variable E : collaborators.

Lemma port_stage_plain (resp req res : dict) (s : state) :
  plain_url (url_of req) ->
  port_stage E (VDict resp) (VDict req) (url_of req) res s
  = (s, Normal (expected_port (VDict req) (url_of req))).
Proof.
  intros [Ht|(url & path & Hu & Hne & Hhost & Hpath & Hg & Ho)].
  - unfold port_stage, expected_port. rewrite Ht.
    cbn [py_get lift]. unfold bind, entry_truthy. cbn [field ret].
    destruct (getk "tls_handshake" req) as [h|];
      try destruct (truthy h) eqn:Hh;
      destruct (getk "tls_log" req) as [l|];
      try destruct (truthy l) eqn:Hl;
      cbn [lift ret orb]; change (truthy VNone) with false;
      cbv iota; cbn [ret]; rewrite ?Hh, ?Hl; reflexivity.
  - rewrite Hu. unfold port_stage.
    replace (truthy (VDict url)) with true
      by (destruct url; [congruence|reflexivity]).
    rewrite (infer_port_typed (VDict req) url Hne Hhost).
    cbn [lift bind ret].
    rewrite (bind_normal _ _ _ _ _
               (git_detector_skip E _ _ _ _ _ _ Hpath Hg)).
    now rewrite (bind_normal _ _ _ _ _
                   (owa_detector_skip E _ _ _ _ _ _ Hpath Ho)).
Qed.

(** X7: on the generic path the response must carry
    [protocol.name]: line 164 looks it up without a default, so when
    the lookup fails (with [KeyError] when [protocol] or its [name] is
    absent, with [TypeError] when [protocol] is no object) the call
    raises that exception and returns no record, although the required
    fields are all there. *)
Theorem protocol_name_required (data : value) (d resp req hostrec : dict)
    (e : exn) :
  working_shape data d -> accepted d resp req ->
  tls_typed req -> hostnames_typed hostrec ->
  plain_url (url_of req) ->
  protocol_name resp = Err e ->
  out_result (zgrap_parser_http E data hostrec) = Err e.
Proof.
  intros Hshape Hacc Htls Hh Hurl Hname.
  destruct (typed_prefix E _ _ _ _ _ Hshape Hacc Htls Hh)
    as (h1 & res1 & Hrun & _).
  rewrite (bind_normal _ _ _ _ _ (port_stage_plain _ _ _ _ Hurl)) in Hrun.
  unfold generic_stage in Hrun. unfold protocol_name in Hname.
  rewrite Hname in Hrun. cbn [rbind lift] in Hrun.
  rewrite (bind_raises _ _ _ _ e eq_refl) in Hrun.
  now rewrite (run_result E _ _ _ _ Hrun).
Qed.

Lemma git_detector_no_address (resp url res : dict) (port : Z)
    (stem body : string) (s : state) :
  getk "path" url = Some (VStr (stem ++ "/.git/index")) ->
  status_is_200 resp = true ->
  getk "body" resp = Some (VStr body) ->
  startswith body "DIRC" = true ->
  getk "addr" (st_hostrec s) = None ->
  git_detector E (VDict resp) (VDict url) port res s = (s, Raises KeyError).
Proof.
  intros Hp Hs Hb Hd Ha. unfold git_detector. cbn [py_get]. rewrite Hp.
  cbn [lift bind ret py_endswith as_str rbind]. rewrite endswith_app.
  cbn [lift bind ret]. unfold status_is_200 in Hs.
  destruct (getk "status_code" resp) as [v|]; [|discriminate].
  rewrite Hs, Hb. cbn [negb lift bind ret py_startswith as_str rbind].
  rewrite Hd. cbn [negb lift bind ret get_hostrec getitem]. rewrite Ha.
  reflexivity.
Qed.

(** X8: the Git detector needs the address of the host: for a path
    ending in [/.git/index], status 200 and a body that starts with
    [DIRC], a host record without [addr] makes line 117 raise
    [KeyError]. *)
Theorem git_needs_address (data : value) (d resp req url hostrec : dict)
    (stem body : string) :
  working_shape data d -> accepted d resp req ->
  tls_typed req -> hostnames_typed hostrec ->
  getk "url" req = Some (VDict url) -> host_typed url ->
  getk "path" url = Some (VStr (stem ++ "/.git/index")) ->
  status_is_200 resp = true ->
  getk "body" resp = Some (VStr body) -> startswith body "DIRC" = true ->
  getk "addr" hostrec = None ->
  out_result (zgrap_parser_http E data hostrec) = Err KeyError.
Proof.
  intros Hshape Hacc Htls Hh Hurl Hhost Hpath Hs Hb Hd Ha.
  destruct (typed_prefix E _ _ _ _ _ Hshape Hacc Htls Hh)
    as (h1 & res1 & Hrun & _ & Hext & _).
  assert (Hu : url_of req = VDict url) by (unfold url_of; now rewrite Hurl).
  rewrite Hu in Hrun.
  assert (Hne : url <> []) by (intros ->; discriminate).
  assert (Ha1 : getk "addr" h1 = None).
  { destruct Hext as [->|(l & ext & _ & ->)]; [exact Ha|].
    now rewrite getk_setk_other by discriminate. }
  assert (Hport : port_stage E (VDict resp) (VDict req) (VDict url) res1
                    (mk_state (VDict d) h1 [])
                  = (mk_state (VDict d) h1 [], Raises KeyError)).
  { unfold port_stage.
    replace (truthy (VDict url)) with true
      by (destruct url; [congruence|reflexivity]).
    rewrite (infer_port_typed (VDict req) url Hne Hhost).
    cbn [lift bind ret].
    now rewrite (bind_raises _ _ _ _ _
                   (git_detector_no_address resp url res1 _ stem body
                      (mk_state (VDict d) h1 []) Hpath Hs Hb Hd Ha1)). }
  rewrite (bind_raises _ _ _ _ _ Hport) in Hrun.
  now rewrite (run_result E _ _ _ _ Hrun).
Qed.

(** X9: a [result] wrapper that cannot be merged (line 51).  The
    wrapper is popped before [update] reads it, so when the merge fails
    (a wrapper that is [null] or a number raises [TypeError]) the
    exception propagates, nothing is logged, and the caller's data have
    lost the wrapper and keep what was merged before the failure. *)
Theorem wrapper_merge_fails (d0 d2 hostrec : dict) (r : value) (e : exn) :
  getk "result" d0 = Some r ->
  dict_update (dict_del (VStr "result") d0) r = (d2, Some e) ->
  zgrap_parser_http E (VDict d0) hostrec
  = {| out_data := VDict d2; out_hostrec := hostrec; out_log := [];
       out_result := Err e |}.
Proof.
  intros Hr Hu. unfold zgrap_parser_http, parser_body.
  unfold bind at 1. cbn [get_data st_data].
  replace (truthy (VDict d0)) with true
    by (destruct d0; [discriminate|reflexivity]).
  cbn [negb]. unfold bind at 1, reconcile.
  unfold bind at 1. cbn [get_data st_data py_in lift ret].
  unfold has_key. rewrite Hr. unfold bind at 1. cbn [ret].
  cbn [getitem]. rewrite Hr. cbn [lift]. unfold bind at 1. cbn [ret].
  unfold bind at 1. cbn [set_data st_hostrec st_log]. rewrite Hu.
  unfold bind at 1. cbn [set_data st_hostrec st_log raise].
  reflexivity.
Qed.

End Lookups.

(** A response without [protocol], to a request without URL. *)
Lemma no_protocol_shape :
  working_shape
    (obj [("response", obj [("request", obj []);
                            ("status_code", VInt 200);
                            ("status_line", VStr "200 OK")])])
    (entries [("response", obj [("request", obj []);
                                ("status_code", VInt 200);
                                ("status_line", VStr "200 OK")])]).
Proof.
  eexists. split; [reflexivity|]. split; [discriminate|reflexivity].
Defined.

(** X7 on that response: the required fields are there and the call
    raises [KeyError]. *)
Lemma protocol_name_required_witness :
  out_result
    (zgrap_parser_http sample
       (obj [("response", obj [("request", obj []);
                               ("status_code", VInt 200);
                               ("status_line", VStr "200 OK")])])
       sample_host)
  = Err KeyError.
Proof.
  refine (protocol_name_required sample _ _
            (entries [("request", obj []); ("status_code", VInt 200);
                      ("status_line", VStr "200 OK")])
            [] sample_host KeyError no_protocol_shape _ _ sample_hostnames
            (or_introl eq_refl) eq_refl).
  - split; reflexivity.
  - eexists. split; [reflexivity|]. now left.
Defined.

(** X8 on [git_input] and a host record without address. *)
Lemma git_needs_address_witness :
  out_result (zgrap_parser_http sample git_input []) = Err KeyError.
Proof.
  exact (git_needs_address sample git_input (result_of git_resp) git_resp
           git_req git_url [] "/x" "DIRC0002" git_shape git_accepted git_tls
           (or_introl eq_refl) eq_refl git_host eq_refl eq_refl eq_refl
           eq_refl eq_refl).
Defined.

(** X9 on a wrapper that is [null]. *)
Lemma wrapper_merge_fails_witness :
  zgrap_parser_http sample
    (obj [("status", VStr "success"); ("result", VNone)]) sample_host
  = {| out_data := obj [("status", VStr "success")];
       out_hostrec := sample_host; out_log := [];
       out_result := Err TypeError |}.
Proof.
  exact (wrapper_merge_fails sample
           (entries [("status", VStr "success"); ("result", VNone)])
           (entries [("status", VStr "success")]) sample_host VNone TypeError
           eq_refl eq_refl).
Defined.

Lemma lower_string_app (a b : string) :
  lower_string (a ++ b) = lower_string a ++ lower_string b.
Proof. induction a; simpl; congruence. Qed.

Lemma lacks_app (c : ascii) (a b : string) :
  lacks c (a ++ b) = lacks c a && lacks c b.
Proof.
  induction a as [|x a IH]; simpl; [reflexivity|].
  now rewrite IH, andb_assoc.
Qed.

Lemma lang_lit_ci (c : ascii) (s w : string) :
  lang (lit true c s) w -> lower_string w = lower_string (String c s).
Proof.
  revert c w. induction s as [|c' s IH]; intros c w H; simpl in H.
  - inversion H as [p x Hp| | | | |]; subst. simpl.
    apply Ascii.eqb_eq in Hp. now rewrite Hp.
  - inversion H as [|r1 r2 w1 w2 H1 H2| | | |]; subst.
    inversion H1 as [p x Hp| | | | |]; subst.
    apply Ascii.eqb_eq in Hp. apply IH in H2.
    change (lower_string (String x w2) = lower_string (String c (String c' s))).
    simpl in *. now rewrite Hp, H2.
Qed.

Lemma lang_lit_exact (c : ascii) (s w : string) :
  lang (lit false c s) w -> w = String c s.
Proof.
  revert c w. induction s as [|c' s IH]; intros c w H; simpl in H.
  - inversion H as [p x Hp| | | | |]; subst.
    apply Ascii.eqb_eq in Hp. now rewrite Hp.
  - inversion H as [|r1 r2 w1 w2 H1 H2| | | |]; subst.
    inversion H1 as [p x Hp| | | | |]; subst.
    apply Ascii.eqb_eq in Hp. apply IH in H2. simpl. now rewrite Hp, H2.
Qed.

Lemma lang_star_lacks (c : ascii) (w : string) :
  lang (RStar (not_char c)) w -> lacks c w = true.
Proof.
  intros H. remember (RStar (not_char c)) as r eqn:Hr.
  induction H as [| | | | |r' w1 w2 H1 _ H2 IH2]; try discriminate;
    [reflexivity|].
  injection Hr as ->. rewrite lacks_app, (IH2 eq_refl), andb_true_r.
  inversion H1 as [p x Hp| | | | |]; subst. simpl. now rewrite Hp.
Qed.

(** A match of a pattern at the start of [s] splits [s] into words of
    its three parts and the rest. *)
Lemma match_at_words (p : pattern) (s g rest : string) :
  match_at p s = Some (g, rest) ->
  exists w1 w3,
    s = w1 ++ g ++ w3 ++ rest
    /\ lang (pre p) w1 /\ lang (grp p) g /\ lang (suf p) w3.
Proof.
  unfold match_at. intros H.
  apply rmatch_sound in H as (w1 & s1 & -> & Hw1 & H).
  apply rmatch_sound in H as (w2 & s2 & -> & Hw2 & H).
  apply rmatch_sound in H as (w3 & s3 & -> & Hw3 & H).
  injection H as <- <-. rewrite string_length_app.
  replace (String.length w2 + String.length (w3 ++ s3)
           - String.length (w3 ++ s3)) with (String.length w2) by lia.
  rewrite take_app. now exists w1, w3.
Qed.

Lemma re_search_at (p : pattern) (s g : string) :
  re_search p s = Some g ->
  exists before s' rest, s = before ++ s' /\ match_at p s' = Some (g, rest).
Proof.
  induction s as [|c s IH]; simpl; intros H.
  - destruct (match_at p "") as [[g' rest]|] eqn:Hm; [|discriminate].
    injection H as ->. now exists "", "", rest.
  - destruct (match_at p (String c s)) as [[g' rest]|] eqn:Hm.
    + injection H as ->. now exists "", (String c s), rest.
    + destruct (IH H) as (before & s' & rest & -> & Hs).
      now exists (String c before), s', rest.
Qed.

(** X10: the title that [_EXPR_TITLE.search] finds (lines 33 and
    206-208) is text of the body between an opening tag, which is
    [<title] in any case, attributes without [>] and a [>], and a
    closing tag, [</title>] in any case; the title itself has no [<],
    so it holds no markup. *)
Theorem title_is_delimited (body title : string) :
  re_search _EXPR_TITLE body = Some title ->
  exists before open attrs close rest,
    body = before ++ open ++ attrs ++ ">" ++ title ++ close ++ rest
    /\ lower_string open = "<title" /\ lacks ">" attrs = true
    /\ lacks "<" title = true /\ lower_string close = "</title>".
Proof.
  intros H. apply re_search_at in H as (before & s' & rest & -> & H).
  apply match_at_words in H as (w1 & w3 & -> & H1 & H2 & H3).
  cbn [_EXPR_TITLE pre grp suf] in *.
  inversion H1 as [|r1 r2 open w H1a H1b| | | |]; subst.
  inversion H1b as [|r1 r2 attrs gt H1c H1d| | | |]; subst.
  apply (lang_lit_ci "<" "title") in H1a.
  apply (lang_lit_ci "<" "/title>") in H3.
  apply (lang_lit_exact ">" "") in H1d. subst gt.
  apply (lang_star_lacks ">") in H1c. apply (lang_star_lacks "<") in H2.
  exists before, open, attrs, w3, rest.
  rewrite !append_assoc. auto.
Qed.

(** X10 on a page with a capitalised tag. *)
Lemma title_is_delimited_witness :
  re_search _EXPR_TITLE "<html><TITLE lang=en>Home</Title></html>"
  = Some "Home"
  /\ exists before open attrs close rest,
       "<html><TITLE lang=en>Home</Title></html>"
       = before ++ open ++ attrs ++ ">" ++ "Home" ++ close ++ rest
       /\ lower_string open = "<title" /\ lacks ">" attrs = true
       /\ lacks "<" "Home" = true /\ lower_string close = "</title>".
Proof.
  split; [vm_compute; reflexivity|].
  apply (title_is_delimited "<html><TITLE lang=en>Home</Title></html>").
  vm_compute. reflexivity.
Defined.

Section Greedy.

Context {A : Type}.

Lemma rmatch_lit_ci (c : ascii) (p w x : string) (k : string -> option A) :
  lower_string w = lower_string (String c p) ->
  rmatch (lit true c p) (w ++ x) k = k x.
Proof.
  revert c w. induction p as [|c' p IH]; intros c w H.
  - destruct w as [|y [|z w]]; try discriminate.
    cbn [lower_string] in H. injection H as H.
    cbn [lit rmatch append]. now rewrite H, Ascii.eqb_refl.
  - destruct w as [|y w]; [discriminate|]. cbn [lower_string] in H.
    injection H as Hy Hw.
    change (lit true c (String c' p))
      with (RSeq (RChar (fun y => (lower y =? lower c)%char)) (lit true c' p)).
    cbn [rmatch append]. rewrite Hy, Ascii.eqb_refl. now apply IH.
Qed.

Lemma rmatch_lit_ci_none (c : ascii) (p s : string) (k : string -> option A) :
  startswith (lower_string s) (lower_string (String c p)) = false ->
  rmatch (lit true c p) s k = None.
Proof.
  revert c s. induction p as [|c' p IH]; intros c s H.
  - destruct s as [|y s]; [reflexivity|].
    cbn [lower_string startswith] in H. cbn [lit rmatch].
    rewrite Ascii.eqb_sym in H.
    destruct (lower y =? lower c)%char; [|reflexivity].
    destruct (lower_string s); discriminate.
  - change (lit true c (String c' p))
      with (RSeq (RChar (fun y => (lower y =? lower c)%char)) (lit true c' p)).
    destruct s as [|y s]; [reflexivity|]. cbn [rmatch].
    cbn [lower_string startswith] in H. rewrite Ascii.eqb_sym in H.
    destruct (lower y =? lower c)%char; [|reflexivity].
    now apply IH.
Qed.

Lemma rmatch_seq (r1 r2 : regex) (s : string) (k : string -> option A) :
  rmatch (RSeq r1 r2) s k = rmatch r1 s (fun s1 => rmatch r2 s1 k).
Proof. reflexivity. Qed.

Lemma rmatch_lit_exact (c : ascii) (p x : string) (k : string -> option A) :
  rmatch (lit false c p) (String c p ++ x) k = k x.
Proof.
  revert c. induction p as [|c' p IH]; intros c.
  - cbn [lit rmatch append]. now rewrite Ascii.eqb_refl.
  - change (lit false c (String c' p))
      with (RSeq (RChar (fun y => (y =? c)%char)) (lit false c' p)).
    cbn [rmatch append]. rewrite Ascii.eqb_refl. apply IH.
Qed.

Lemma rmatch_star (r : regex) (s : string) (k : string -> option A) :
  rmatch (RStar r) s k = star_loop r k (String.length s) s.
Proof. reflexivity. Qed.

Lemma star_loop_greedy (c : ascii) (w x : string) (k : string -> option A)
    (a : A) (fuel : nat) :
  lacks c w = true -> (exists x', x = String c x') \/ x = "" ->
  k x = Some a -> (String.length w <= fuel)%nat ->
  star_loop (not_char c) k fuel (w ++ x) = Some a.
Proof.
  intros Hw Hx Hk. unfold not_char. revert fuel.
  induction w as [|y w IH]; intros fuel Hf.
  - destruct fuel as [|fuel]; [exact Hk|]. cbn [append star_loop].
    destruct Hx as [[x' ->]| ->]; [|cbn [rmatch]; exact Hk].
    cbn [rmatch]. rewrite Ascii.eqb_refl. exact Hk.
  - cbn [lacks] in Hw. apply andb_true_iff in Hw as [Hy Hw].
    destruct fuel as [|fuel]; [simpl in Hf; lia|].
    cbn [append star_loop rmatch]. rewrite Hy.
    replace (String.length (w ++ x) <? String.length (String y (w ++ x)))%nat
      with true by (symmetry; apply Nat.ltb_lt; simpl; lia).
    rewrite (IH Hw fuel) by (simpl in Hf; lia). reflexivity.
Qed.

Lemma rmatch_star_greedy (c : ascii) (w x : string) (k : string -> option A)
    (a : A) :
  lacks c w = true -> (exists x', x = String c x') \/ x = "" ->
  k x = Some a ->
  rmatch (RStar (not_char c)) (w ++ x) k = Some a.
Proof.
  intros Hw Hx Hk. rewrite rmatch_star.
  apply star_loop_greedy; auto. rewrite string_length_app. lia.
Qed.

End Greedy.

Lemma lower_lt (c : ascii) : lower c = "<"%char -> c = "<"%char.
Proof.
  destruct c as [[] [] [] [] [] [] [] []]; vm_compute; intros H;
    try discriminate; reflexivity.
Qed.

Lemma title_match (open attrs title close rest : string) :
  lower_string open = "<title" -> lacks ">" attrs = true ->
  lacks "<" title = true -> lower_string close = "</title>" ->
  match_at _EXPR_TITLE (open ++ attrs ++ ">" ++ title ++ close ++ rest)
  = Some (title, rest).
Proof.
  intros Ho Ha Ht Hc. unfold match_at. cbn [_EXPR_TITLE pre grp suf].
  rewrite rmatch_seq, (rmatch_lit_ci "<" "title") by exact Ho.
  rewrite rmatch_seq.
  apply rmatch_star_greedy; [exact Ha|left; now eexists|].
  rewrite (rmatch_lit_exact ">" "").
  apply rmatch_star_greedy; [exact Ht| |].
  - left. destruct close as [|c close]; [discriminate|].
    cbn [lower_string] in Hc. injection Hc as Hc _.
    apply lower_lt in Hc. subst c. now eexists.
  - rewrite (rmatch_lit_ci "<" "/title>") by exact Hc.
    rewrite !string_length_app.
    replace (String.length title + (String.length close + String.length rest)
             - (String.length close + String.length rest))
      with (String.length title) by lia.
    now rewrite take_app.
Qed.

Lemma title_no_match (s : string) :
  startswith (lower_string s) "<title" = false ->
  match_at _EXPR_TITLE s = None.
Proof.
  intros H. unfold match_at. cbn [_EXPR_TITLE pre]. rewrite rmatch_seq.
  now apply (rmatch_lit_ci_none "<" "title").
Qed.

(** X11: the title found is that of the first title element: when the
    body reads [before], an opening tag ([<title] in any case,
    attributes without [>], and [>]), a title without [<], a closing
    tag ([</title>] in any case) and the rest, and no opening tag
    starts inside [before], the search of line 206 finds that title,
    whatever follows it. *)
Theorem first_title_found (before open attrs title close rest : string) :
  lower_string open = "<title" -> lacks ">" attrs = true ->
  lacks "<" title = true -> lower_string close = "</title>" ->
  no_open_tag before (open ++ attrs ++ ">" ++ title ++ close ++ rest) = true ->
  re_search _EXPR_TITLE
    (before ++ open ++ attrs ++ ">" ++ title ++ close ++ rest)
  = Some title.
Proof.
  intros Ho Ha Ht Hc.
  pose proof (title_match open attrs title close rest Ho Ha Ht Hc) as Hm.
  set (tail := open ++ attrs ++ ">" ++ title ++ close ++ rest) in *.
  induction before as [|c before IH]; intros Hb.
  - destruct tail; cbn [append re_search]; now rewrite Hm.
  - cbn [no_open_tag] in Hb. apply andb_true_iff in Hb as [Hh Hb].
    apply negb_true_iff in Hh. cbn [append re_search] in *.
    rewrite (title_no_match _ Hh). now apply IH.
Qed.

(** X11 on a page with two titles. *)
Lemma first_title_found_witness :
  re_search _EXPR_TITLE
    "<html><head><TITLE id=t>First</title><title>Second</title>"
  = Some "First".
Proof.
  apply (first_title_found "<html><head>" "<TITLE" " id=t" "First" "</title>"
           "<title>Second</title>"); reflexivity.
Defined.

Lemma list_lt_asym (a b : list Z) :
  list_lt a b = true -> list_lt b a = false.
Proof.
  intros H. destruct (list_lt b a) eqn:Hba; [|reflexivity].
  now rewrite <- (list_lt_trans _ _ _ H Hba), list_lt_irrefl.
Qed.

Lemma insert_key_sorted {A} (x : list Z * A) (l : list (list Z * A)) :
  StronglySorted key_le l -> StronglySorted key_le (insert_key x l).
Proof.
  induction l as [|y l IH]; intros Hs; simpl.
  - constructor; constructor.
  - inversion Hs as [|y' l' Hl Hy]; subst.
    destruct (list_lt (fst y) (fst x)) eqn:Hyx.
    + constructor; [now apply IH|].
      eapply Permutation_Forall; [apply insert_key_perm|].
      constructor; [|exact Hy]. now apply list_lt_asym.
    + constructor; [exact Hs|]. constructor; [exact Hyx|].
      apply Forall_forall. intros z Hz.
      pose proof (proj1 (Forall_forall _ _) Hy z Hz) as Hzy.
      unfold key_le in *. destruct (list_lt (fst z) (fst x)) eqn:Hzx;
        [|reflexivity].
      now rewrite (list_lt_between _ _ _ Hzx Hzy) in Hyx.
Qed.

Lemma sort_keyed_sorted {A} (l : list (list Z * A)) :
  StronglySorted key_le (sort_keyed l).
Proof.
  induction l as [|x l IH]; simpl; [constructor|].
  now apply insert_key_sorted.
Qed.

Lemma sorted_by_key (L : list (list Z * string)) :
  (forall k v, In (k, v) L -> version_key v = Some k) ->
  StronglySorted key_le L -> StronglySorted version_le (map snd L).
Proof.
  intros Hk Hs. induction Hs as [|[k v] L Hs IH Hf]; simpl; constructor.
  - apply IH. intros k' v' Hin. apply Hk. now right.
  - apply Forall_forall. intros v' Hv'.
    apply in_map_iff in Hv' as ([k' v''] & Heq & Hin). simpl in Heq. subst v''.
    exists k, k'. split; [apply Hk; now left|].
    split; [apply Hk; now right|].
    exact (proj1 (Forall_forall _ _) Hf _ Hin).
Qed.

(** [sorted] on versions that have keys: all of them, in ascending
    order. *)
Lemma sorted_versions_ascending (vs sorted : list string) :
  sorted_versions vs = Some sorted ->
  Permutation vs sorted /\ StronglySorted version_le sorted.
Proof.
  unfold sorted_versions. intros H.
  destruct (map_opt version_key vs) as [ks|] eqn:Hks; [|discriminate].
  cbn [option_map] in H. injection H as <-.
  destruct (map_opt_combine _ _ _ Hks) as [Hsnd Hin].
  pose proof (sort_keyed_perm (combine ks vs)) as Hperm. split.
  - rewrite <- Hsnd at 1. now apply Permutation_map.
  - apply sorted_by_key; [|apply sort_keyed_sorted].
    intros k v Hkv. apply Hin.
    eapply Permutation_in; [apply Permutation_sym, Hperm|exact Hkv].
Qed.

Section Versions.

Variable E : collaborators.

(** X12: when the OWA detector finds versions, none with a part of more
    digits than [int] accepts (4300), the [http-app] script of the
    record lists each distinct version found once, in ascending order
    of the integers between the dots (lines 129-136): [2.0.0.0] comes
    before [15.1.2.3], which the order of the texts would put first. *)
Theorem owa_versions_ascending (data : value) (d resp req url hostrec : dict)
    (stem body : string) :
  working_shape data d -> accepted d resp req ->
  tls_typed req -> hostnames_typed hostrec ->
  getk "url" req = Some (VDict url) -> host_typed url ->
  getk "path" url = Some (VStr (stem ++ "/owa/auth/logon.aspx")) ->
  status_is_200 resp = true ->
  getk "body" resp = Some (VStr body) ->
  finditer _EXPR_OWA_VERSION body <> [] ->
  forallb within_limit (finditer _EXPR_OWA_VERSION body) = true ->
  let path := stem ++ "/owa/" in
  exists res versions,
    out_result (zgrap_parser_http E data hostrec) = Ok (VDict res)
    /\ In (http_app_script path (owa_output path versions) (hd "" versions))
          (scripts_of (VDict res))
    /\ NoDup versions
    /\ StronglySorted version_le versions
    /\ forall v, In v versions <-> In v (finditer _EXPR_OWA_VERSION body).
Proof.
  intros Hshape Hacc Htls Hh Hurl Hhost Hpath Hs Hb Hfound Hlim path.
  destruct (typed_prefix E _ _ _ _ _ Hshape Hacc Htls Hh)
    as (h1 & res1 & Hrun & Hres & _).
  assert (Hu : url_of req = VDict url) by (unfold url_of; now rewrite Hurl).
  rewrite Hu in Hrun.
  assert (Hne : url <> []) by (intros ->; discriminate).
  destruct (detector_script res1 Hres) as (before & _ & _ & Hadd).
  set (found := finditer _EXPR_OWA_VERSION body) in *.
  destruct (sorted_versions_spec (set_iter E found))
    as (versions & Hsort & _).
  { intros v Hv. apply set_iter_in in Hv.
    apply found_version_key with body; [exact Hv|].
    exact (proj1 (forallb_forall _ _) Hlim v Hv). }
  { now apply set_iter_nonempty. }
  destruct (sorted_versions_ascending _ _ Hsort) as [Hperm Hasc].
  assert (Hall : Permutation (nodup string_dec found) versions)
    by (eapply Permutation_trans; [apply set_iter_perm|exact Hperm]).
  exists (setk "scripts"
            (VList (before ++ [http_app_script path (owa_output path versions)
                                 (hd "" versions)]))
            (setk "port" (VInt (expected_port (VDict req) (VDict url))) res1)),
    versions.
  split; [|split; [|split; [|split]]].
  - assert (Hport : port_stage E (VDict resp) (VDict req) (VDict url) res1
                      (mk_state (VDict d) h1 [])
                    = (mk_state (VDict d) h1 [],
                       Returns (VDict (setk "scripts"
                         (VList (before ++ [http_app_script path
                                              (owa_output path versions)
                                              (hd "" versions)]))
                         (setk "port"
                            (VInt (expected_port (VDict req) (VDict url)))
                            res1))))).
    { unfold port_stage.
      replace (truthy (VDict url)) with true
        by (destruct url; [congruence|reflexivity]).
      rewrite (infer_port_typed (VDict req) url Hne Hhost).
      cbn [lift bind ret].
      rewrite (bind_normal _ _ _ _ _
                 (git_detector_skip E _ _ _ _ _ _ Hpath
                    (owa_path_not_git _ (endswith_app _ _)))).
      now rewrite (bind_returns _ _ _ _ _
                     (owa_detector_found E resp url res1 _ _ stem body
                        versions (mk_state (VDict d) h1 [])
                        Hpath Hs Hb (set_iter_nonempty E _ Hfound) Hsort
                        (Hadd _ _))). }
    rewrite (bind_returns _ _ _ _ _ Hport) in Hrun.
    now rewrite (run_result E _ _ _ _ Hrun).
  - cbn [scripts_of]. rewrite getk_setk_same. apply in_or_app. right. now left.
  - eapply Permutation_NoDup; [exact Hall|apply NoDup_nodup].
  - exact Hasc.
  - intros v. split; intros Hv.
    + apply (nodup_In string_dec).
      eapply Permutation_in; [apply Permutation_sym, Hall|exact Hv].
    + eapply Permutation_in; [exact Hall|]. now apply nodup_In.
Qed.

End Versions.

Lemma owa_marker_word (w : string) :
  lang (pre _EXPR_OWA_VERSION) w -> owa_marker w.
Proof.
  intros H. cbn [pre _EXPR_OWA_VERSION] in H.
  inversion H as [|r1 r2 w1 w2 H1 H2| | | |]; subst.
  apply (lang_lit_exact dquote "/owa/") in H1. subst w1.
  inversion H2 as [| |r|r w H3| |]; subst.
  - left. now rewrite append_nil_r.
  - apply (lang_lit_exact "a" "uth/") in H3. subst w2. now right.
Qed.

Lemma finditer_at (p : pattern) (fuel : nat) (s g : string) :
  In g (finditer_fuel fuel p s) ->
  exists before s' rest, s = before ++ s' /\ match_at p s' = Some (g, rest).
Proof.
  revert s. induction fuel as [|fuel IH]; intros s; simpl; [tauto|].
  destruct (match_at p s) as [[g' rest]|] eqn:Hm.
  - intros [<-|H]; [now exists "", s, rest|].
    apply IH in H as (before & s' & rest' & -> & Hs').
    apply match_at_words in Hm as (w1 & w3 & -> & _).
    exists (w1 ++ g' ++ w3 ++ before), s', rest'.
    split; [now rewrite !append_assoc|exact Hs'].
  - destruct s as [|c s]; [simpl; tauto|]. intros H.
    apply IH in H as (before & s' & rest & -> & Hs').
    now exists (String c before), s', rest.
Qed.

(** X13: each version that [_EXPR_OWA_VERSION.finditer] finds (lines 34
    and 129-132) stands in the body between a marker, a double quote
    followed by [/owa/] or by [/owa/auth/], and a [/], and is made of
    two or more runs of digits joined by dots; the key function of
    line 136 gives its list of integers when no run has more digits
    than [int] accepts (4300), and fails with [ValueError] otherwise. *)
Theorem found_version_quoted (body v : string) :
  In v (finditer _EXPR_OWA_VERSION body) ->
  dotted v
  /\ (exists before marker rest,
        body = before ++ marker ++ v ++ "/" ++ rest /\ owa_marker marker)
  /\ if within_limit v then exists ks, version_key v = Some ks
     else version_key v = None.
Proof.
  intros H. apply finditer_at in H as (before & s' & rest & -> & H).
  apply match_at_words in H as (w1 & w3 & -> & H1 & H2 & H3).
  pose proof (owa_group_dotted _ H2) as Hd.
  split; [exact Hd|]. split; [|now apply version_key_dotted].
  apply (lang_lit_exact "/" "") in H3. subst w3.
  exists before, w1, rest. split; [reflexivity|now apply owa_marker_word].
Qed.

(** X12 on [owa_input]: the versions are listed as [2.0.0.0] and then
    [15.1.2.3]. *)
Lemma owa_versions_ascending_witness :
  exists res versions,
    out_result (zgrap_parser_http sample owa_input sample_host) = Ok (VDict res)
    /\ In (http_app_script "/owa/" (owa_output "/owa/" versions)
             (hd "" versions)) (scripts_of (VDict res))
    /\ NoDup versions /\ StronglySorted version_le versions
    /\ forall v, In v versions <-> In v ["15.1.2.3"; "2.0.0.0"].
Proof.
  destruct (owa_versions_ascending sample owa_input (result_of owa_resp)
              owa_resp owa_req owa_url sample_host "" owa_body owa_shape
              owa_accepted owa_tls sample_hostnames eq_refl owa_host eq_refl
              eq_refl eq_refl owa_found_nonempty eq_refl)
    as (res & versions & H1 & H2 & H3 & H4 & H5).
  rewrite owa_found in H5. exists res, versions. auto.
Defined.

(** X13 on the body of [owa_input]. *)
Lemma found_version_quoted_witness :
  dotted "2.0.0.0"
  /\ (exists before marker rest,
        owa_body = before ++ marker ++ "2.0.0.0" ++ "/" ++ rest
        /\ owa_marker marker)
  /\ exists ks, version_key "2.0.0.0" = Some ks.
Proof.
  apply (found_version_quoted owa_body "2.0.0.0").
  rewrite owa_found. right. now left.
Defined.

Lemma digits_val_uint (d : Decimal.uint) (acc : Z) (after : bool) :
  d <> Decimal.Nil \/ after = true ->
  digits_val acc after (NilEmpty.string_of_uint d) = Some (uint_val acc d).
Proof.
  revert acc after.
  induction d as [|d IH|d IH|d IH|d IH|d IH|d IH|d IH|d IH|d IH|d IH];
    intros acc after H.
  - destruct H as [H| ->]; [congruence|reflexivity].
  - exact (IH _ true (or_intror eq_refl)).
  - exact (IH _ true (or_intror eq_refl)).
  - exact (IH _ true (or_intror eq_refl)).
  - exact (IH _ true (or_intror eq_refl)).
  - exact (IH _ true (or_intror eq_refl)).
  - exact (IH _ true (or_intror eq_refl)).
  - exact (IH _ true (or_intror eq_refl)).
  - exact (IH _ true (or_intror eq_refl)).
  - exact (IH _ true (or_intror eq_refl)).
  - exact (IH _ true (or_intror eq_refl)).
Qed.

Lemma uint_val_pos (d : Decimal.uint) (acc : positive) :
  uint_val (Z.pos acc) d = Z.pos (Pos.of_uint_acc d acc).
Proof.
  revert acc. induction d; intros acc; cbn [uint_val Pos.of_uint_acc];
    [reflexivity|..];
    match goal with
    | |- uint_val ?z _ = Z.pos (Pos.of_uint_acc _ ?p) =>
        replace z with (Z.pos p) by lia
    end; apply IHd.
Qed.

Lemma uint_val_zero (d : Decimal.uint) :
  uint_val 0 d = Z.of_N (Pos.of_uint d).
Proof.
  induction d; cbn [uint_val Pos.of_uint]; [reflexivity|exact IHd|..];
    apply uint_val_pos.
Qed.

Lemma all_digits_uint (d : Decimal.uint) :
  all_digits (NilEmpty.string_of_uint d) = true.
Proof. induction d; [reflexivity|..]; exact IHd. Qed.

Lemma uint_nonempty (d : Decimal.uint) :
  d <> Decimal.Nil -> NilEmpty.string_of_uint d <> "".
Proof. destruct d; try congruence; discriminate. Qed.

Lemma to_uint_not_nil (p : positive) : Pos.to_uint p <> Decimal.Nil.
Proof.
  intros H. pose proof (Unsigned.of_to p) as Hp. rewrite H in Hp.
  discriminate.
Qed.

Lemma strip_minus (w : string) :
  all_digits w = true -> w <> "" -> strip (String "-" w) = String "-" w.
Proof.
  intros H Hne. unfold strip. cbn [lstrip].
  change (is_space "-") with false. cbv iota.
  assert (Hr : lstrip (rev_string "" (String "-" w))
               = rev_string "" (String "-" w)).
  { cbn [rev_string]. rewrite rev_string_app.
    destruct (rev_string "" w) as [|c r] eqn:Hrev.
    - apply (f_equal (rev_string "")) in Hrev.
      rewrite rev_string_involutive in Hrev. now subst w.
    - cbn [append lstrip].
      assert (Hc : is_digit c = true).
      { pose proof (all_digits_rev w) as Hd. rewrite Hrev, H in Hd.
        cbn [all_digits] in Hd. now apply andb_prop in Hd as [Hd _]. }
      destruct (digit_cases c Hc) as (-> & _). reflexivity. }
  rewrite Hr. apply rev_string_involutive.
Qed.

(** [int('%d' % n) == n], for [n] of at most 4300 digits *)
Lemma py_int_dec (n : Z) : int_sized (dec n) = true -> py_int (dec n) = Some n.
Proof.
  unfold dec. destruct n as [|p|p]; [reflexivity| |];
    cbn [Z.to_int NilZero.string_of_int];
    pose proof (to_uint_not_nil p) as Hn;
    assert (Hs : NilZero.string_of_uint (Pos.to_uint p)
                 = NilEmpty.string_of_uint (Pos.to_uint p))
      by (destruct (Pos.to_uint p); [congruence|reflexivity..]);
    rewrite Hs; intros Hsize.
  - rewrite (py_int_plain _ (all_digits_uint _)). unfold digits_int.
    unfold int_sized in Hsize. rewrite Hsize.
    rewrite (digits_val_uint _ 0 false (or_introl Hn)), uint_val_zero.
    now rewrite Unsigned.of_to.
  - unfold py_int.
    rewrite (strip_minus _ (all_digits_uint _) (uint_nonempty _ Hn)).
    unfold digits_int. unfold int_sized in Hsize.
    cbn [count_digits] in Hsize. change (is_digit "-") with false in Hsize.
    cbn [Z.add] in Hsize. rewrite Hsize.
    rewrite (digits_val_uint _ 0 false (or_introl Hn)), uint_val_zero.
    now rewrite Unsigned.of_to.
Qed.

Lemma str_contains_app (a b p : string) :
  str_contains b p = true -> str_contains (a ++ b) p = true.
Proof.
  intros H. induction a as [|c a IH]; [exact H|].
  cbn [append str_contains]. rewrite IH. apply orb_true_r.
Qed.

Lemma str_contains_head (c : ascii) (x : string) :
  str_contains (String c x) (String c "") = true.
Proof.
  cbn [str_contains startswith]. rewrite Ascii.eqb_refl.
  destruct x; reflexivity.
Qed.

Lemma split_once_lacks (name rest : string) :
  lacks ":" name = true ->
  split_once ":" (name ++ String ":" rest) = [name; rest].
Proof.
  induction name as [|c name IH]; intros H; [reflexivity|].
  cbn [lacks] in H. apply andb_prop in H as [Hc Hn].
  cbn [append split_once]. apply negb_true_iff in Hc. rewrite Hc.
  now rewrite (IH Hn).
Qed.

Lemma lacks_lstrip (c : ascii) (s : string) :
  is_space c = false -> lacks c (lstrip s) = lacks c s.
Proof.
  intros Hc. induction s as [|x s IH]; [reflexivity|].
  cbn [lstrip lacks]. destruct (is_space x) eqn:Hx; [|reflexivity].
  rewrite IH. destruct (x =? c)%char eqn:Hxc; [|reflexivity].
  apply Ascii.eqb_eq in Hxc. congruence.
Qed.

Lemma lacks_rev (c : ascii) (s : string) :
  lacks c (rev_string "" s) = lacks c s.
Proof.
  induction s as [|x s IH]; [reflexivity|].
  cbn [rev_string]. rewrite rev_string_app, lacks_app, IH.
  cbn [lacks]. now rewrite andb_true_r, andb_comm.
Qed.

Lemma digits_val_lacks (s : string) (acc : Z) (after : bool) (n : Z) :
  digits_val acc after s = Some n -> lacks ":" s = true.
Proof.
  revert acc after. induction s as [|c s IH]; intros acc after H;
    [reflexivity|].
  cbn [digits_val] in H. cbn [lacks].
  destruct (digit c) as [d|] eqn:Hd.
  - rewrite (IH _ _ H), andb_true_r.
    destruct (c =? ":")%char eqn:Hc; [|reflexivity].
    apply Ascii.eqb_eq in Hc. subst c. discriminate.
  - destruct ((c =? "_")%char && after) eqn:Hu; [|discriminate].
    rewrite (IH _ _ H), andb_true_r. apply andb_prop in Hu as [Hu _].
    apply Ascii.eqb_eq in Hu. subst c. reflexivity.
Qed.

(** [int] fails on a text with a colon. *)
Lemma py_int_lacks (s : string) (n : Z) :
  py_int s = Some n -> lacks ":" s = true.
Proof.
  unfold py_int, strip. intros H.
  rewrite <- (lacks_lstrip ":" s eq_refl), <- lacks_rev.
  rewrite <- (lacks_lstrip ":" _ eq_refl), <- lacks_rev.
  destruct (rev_string "" (lstrip (rev_string "" (lstrip s)))) as [|c w];
    [reflexivity|].
  assert (Hgen : forall x, digits_int x = Some n -> lacks ":" x = true).
  { intros x. unfold digits_int.
    destruct (count_digits x <=? int_max_str_digits)%Z; [|discriminate].
    apply digits_val_lacks. }
  assert (Hopp : forall x, option_map Z.opp (digits_int x) = Some n ->
                           lacks ":" x = true).
  { intros x Hx. destruct (digits_int x) as [m|] eqn:Hv; [|discriminate].
    unfold digits_int in Hv.
    destruct (count_digits x <=? int_max_str_digits)%Z; [|discriminate].
    now apply digits_val_lacks in Hv. }
  destruct c as [[] [] [] [] [] [] [] []];
    try (now apply Hgen);
    cbn [lacks]; first [now apply Hgen in H|now apply Hopp in H].
Qed.

(** X14: a port written in the host of the URL is read back as long as
    [int] accepts its length: for a host [name:n], where [n] is an
    integer as [%d] writes it, with at most 4300 digits, and [name] has
    no colon, lines 98-102 give the port [n].  No range is checked: a
    negative port or one above 65535 is taken as it is. *)
Theorem written_port_read_back (url : dict) (name : string) (n : Z) :
  getk "host" url = Some (VStr (name ++ ":" ++ dec n)) ->
  lacks ":" name = true ->
  int_sized (dec n) = true ->
  infer_port (VDict url) = Ok n.
Proof.
  intros Hh Hn Hsize. unfold infer_port. cbn [py_get rbind]. rewrite Hh.
  cbn [py_in rbind].
  rewrite (str_contains_app name (":" ++ dec n) ":"
             (str_contains_head ":" (dec n))).
  cbn [getitem]. rewrite Hh. cbn [rbind as_str].
  change (":" ++ dec n) with (String ":" (dec n)).
  rewrite (split_once_lacks _ _ Hn). cbn [nth_error rbind].
  now rewrite (py_int_dec _ Hsize).
Qed.

(** X15: a host with a second colon loses its port: when the text after
    the first colon has a colon itself, as in the IPv6 literal
    [[2001:db8::1]:8443], [int] raises [ValueError], line 101 passes,
    and the port is the default of the scheme. *)
Theorem second_colon_hides_port (url : dict) (name rest : string) :
  getk "host" url = Some (VStr (name ++ ":" ++ rest)) ->
  lacks ":" name = true -> lacks ":" rest = false ->
  infer_port (VDict url) = Ok (default_port url).
Proof.
  intros Hh Hn Hr. unfold infer_port, default_port.
  cbn [py_get rbind]. rewrite Hh. cbn [py_in rbind].
  rewrite (str_contains_app name (":" ++ rest) ":"
             (str_contains_head ":" rest)).
  cbn [getitem]. rewrite Hh. cbn [rbind as_str].
  change (":" ++ rest) with (String ":" rest).
  rewrite (split_once_lacks _ _ Hn). cbn [nth_error rbind].
  destruct (py_int rest) as [n|] eqn:Hp.
  - apply py_int_lacks in Hp. congruence.
  - destruct (getk "scheme" url); reflexivity.
Qed.

(** X14 on a port above 65535 and on a negative one. *)
Lemma written_port_read_back_witness :
  infer_port (obj [("host", VStr "example.com:70000")]) = Ok 70000%Z
  /\ infer_port (obj [("host", VStr "example.com:-1")]) = Ok (-1)%Z.
Proof.
  split.
  - apply (written_port_read_back
             (entries [("host", VStr "example.com:70000")]) "example.com"
             70000); reflexivity.
  - apply (written_port_read_back
             (entries [("host", VStr "example.com:-1")]) "example.com"
             (-1)); reflexivity.
Defined.

(** X15 on an IPv6 literal with port 8443 and scheme [https]. *)
Lemma second_colon_hides_port_witness :
  infer_port (obj [("host", VStr "[2001:db8::1]:8443");
                   ("scheme", VStr "https")])
  = Ok 443%Z.
Proof.
  apply (second_colon_hides_port
           (entries [("host", VStr "[2001:db8::1]:8443");
                     ("scheme", VStr "https")]) "[2001" "db8::1]:8443");
    reflexivity.
Defined.

Section Banner.

Variable E : collaborators.

#[local] Hint Resolve post_write_headers post_pop_unknown post_headers_stage
  post_body_stage : post.

Lemma post_conseq {A} (m : M A) (Qn Qn' : A -> Prop) (Qr : value -> Prop) :
  post m Qn Qr -> (forall a, Qn a -> Qn' a) -> post m Qn' Qr.
Proof.
  intros H Hq s. specialize (H s). destruct (snd (m s)); auto.
Qed.

Lemma decode_ok (r : result value) (a : string) :
  rbind r (decode E) = Ok a ->
  exists s, r = Ok (VStr s) /\ a = nmap_decode_data E s.
Proof.
  intros H. destruct r as [[]|]; try discriminate.
  cbn [rbind decode] in H. injection H as <-. eauto.
Qed.

Lemma post_headers_banner (resp req : dict) (hv : value) (banner : string)
    (res : dict) (Qr : value -> Prop) :
  getk "headers" resp = Some hv -> truthy hv = true ->
  post (headers_stage E (VDict resp) (VDict req) banner res)
       (fun r => same_but_scripts res (fst r)
                 /\ snd r = banner ++ server_line E resp) Qr.
Proof.
  intros Hh Ht. unfold headers_stage, server_line.
  cbn [getitem]. rewrite Hh. cbn [lift].
  post_step. subst. post_step. post_step. cbv beta in *.
  eapply post_bind; [apply post_pop_unknown_exact|].
  intros popped Hpop. post_step. cbv beta in *.
  match goal with
  | H : viewitems _ = Ok _ |- _ =>
      destruct popped as [| | | | |flat]; try discriminate;
      cbn [viewitems] in H; injection H as <-
  end.
  destruct (Hpop flat eq_refl) as (hdrs & -> & ->). clear Hpop.
  destruct hdrs as [|kv hdrs]; [discriminate|].
  set (h := flat_headers (kv :: hdrs)) in *.
  post_step. post_step. post_step. cbv beta in *.
  match goal with
  | H : add_script res _ = Ok _ |- _ =>
      apply add_script_same in H; rename H into Hres
  end.
  post_step. cbv beta in *.
  match goal with
  | H : py_get (VDict _) "server" VNone = Ok _ |- _ =>
      cbn [py_get] in H; injection H as <-
  end.
  destruct (getk "server" h) as [server|] eqn:Hsrv;
    [|change (truthy VNone) with false; cbv iota; apply post_ret;
      cbn [fst snd]; split; [exact Hres|now rewrite append_nil_r]].
  destruct (truthy server) eqn:Hts;
    [|apply post_ret; cbn [fst snd]; split;
      [exact Hres|now rewrite append_nil_r]].
  cbn [getitem]. rewrite Hsrv. cbn [lift].
  post_step. subst. post_step. post_step. cbv beta in *.
  match goal with
  | H : rbind (getitem0 server) (decode E) = Ok _ |- _ =>
      apply decode_ok in H as (s0 & Hs0 & ->)
  end.
  rewrite Hs0. apply post_ret. cbn [fst snd]. split; [|reflexivity].
  match goal with
  | H : add_script _ _ = Ok _ |- _ => apply add_script_same in H
  end.
  eauto using same_but_scripts_trans.
Qed.

Lemma post_generic_entries (resp req : dict) (url : value) (port : Z)
    (res : dict) :
  post (generic_stage E (VDict resp) (VDict req) url port res)
       (fun _ => False)
       (fun v => exists r1 r,
          v = VDict r
          /\ same_but_scripts (setk "port" (VInt port) res) r1
          /\ same_but_scripts
               (merged r1 (match_nmap_svc_fp E (banner_of E resp)
                             "tcp" "GetRequest")) r).
Proof.
  unfold generic_stage. post_step. post_step. cbv beta in *.
  match goal with
  | H : rbind (rbind _ _) (decode E) = Ok _ |- _ =>
      apply decode_ok in H as (name & Hname & ->)
  end.
  match goal with
  | H : rbind (getitem _ "status_line") (decode E) = Ok _ |- _ =>
      apply decode_ok in H as (line & Hline & ->)
  end.
  assert (Hb : forall tail,
    (nmap_decode_data E name ++ " " ++ nmap_decode_data E line ++ crlf) ++ tail
    = match protocol_name resp, getk "status_line" resp with
      | Ok (VStr name), Some (VStr line) =>
          (nmap_decode_data E name ++ " " ++ nmap_decode_data E line ++ crlf)
          ++ tail
      | _, _ => ""
      end).
  { intros tail. unfold protocol_name. rewrite Hname.
    cbn [getitem] in Hline.
    destruct (getk "status_line" resp) as [l|]; [|discriminate].
    now injection Hline as ->. }
  post_step. cbv beta in *.
  match goal with
  | H : py_get (VDict resp) "headers" VNone = Ok _ |- _ =>
      cbn [py_get] in H; injection H as <-
  end.
  eapply post_bind with
    (Q1 := fun r : dict * string =>
             same_but_scripts (setk "port" (VInt port) res) (fst r)
             /\ snd r = banner_of E resp).
  { unfold banner_of. rewrite <- Hb.
    destruct (getk "headers" resp) as [hv|] eqn:Hh.
    - destruct (truthy hv) eqn:Ht.
      + exact (post_headers_banner _ _ _ _ _ _ Hh Ht).
      + apply post_ret. cbn [fst snd]. split; [apply same_but_scripts_refl|].
        unfold server_line. rewrite Hh.
        destruct hv as [| | | | |[|kv h]]; try discriminate;
          now rewrite append_nil_r.
    - cbn [truthy]. apply post_ret. cbn [fst snd].
      split; [apply same_but_scripts_refl|]. unfold server_line.
      rewrite Hh. now rewrite append_nil_r. }
  intros [r banner] [Hres Hr]. cbn [fst snd] in Hres, Hr. subst banner.
  fold (merged r (match_nmap_svc_fp E (banner_of E resp) "tcp" "GetRequest")).
  post_auto; cbv beta in *; subst; eexists r, _; (split; [reflexivity|]);
    (split; [exact Hres|]); same_scripts.
Qed.

Lemma post_generic_banner (resp req : dict) (url : value) (port : Z)
    (res : dict) :
  post (generic_stage E (VDict resp) (VDict req) url port res)
       (fun _ => False)
       (fun v => exists r1 r,
          v = VDict r
          /\ same_but_scripts
               (merged r1 (match_nmap_svc_fp E (banner_of E resp)
                             "tcp" "GetRequest")) r).
Proof.
  intros s. pose proof (post_generic_entries resp req url port res s) as H.
  destruct (snd (generic_stage E (VDict resp) (VDict req) url port res s));
    auto.
  destruct H as (r1 & r & Hv & _ & Hr). eauto.
Qed.

(** X16: on the generic path the fingerprint matcher is asked about the
    banner rebuilt from the response: the decoded protocol name, a
    space, the decoded status line and a line end, and then, when the
    flattened headers have a non-empty [server] entry, a [Server:] line
    with its first value and an empty line.  What the matcher yields
    is merged over the record (line 199): every entry of it but
    [scripts] is an entry of the record returned, [port] included. *)
Theorem fingerprint_overrides (data : value) (d resp req hostrec res : dict)
    (k : string) (x : value) :
  working_shape data d -> accepted d resp req ->
  no_detector (url_of req) ->
  out_result (zgrap_parser_http E data hostrec) = Ok (VDict res) ->
  distinct_keys (match_nmap_svc_fp E (banner_of E resp) "tcp" "GetRequest")
  = true ->
  k <> "scripts" ->
  getk k (match_nmap_svc_fp E (banner_of E resp) "tcp" "GetRequest") = Some x ->
  getk k res = Some x.
Proof.
  intros Hshape Hacc Hdet Hout Hd Hk Hx.
  unfold zgrap_parser_http in Hout.
  fold (mk_state data hostrec []) in Hout.
  rewrite (parser_body_shape E _ _ _ _ Hshape) in Hout.
  rewrite (bind_normal _ _ _ _ _ (check_response_accepted E _ _ _ _ _ Hacc))
    in Hout.
  unfold after_check in Hout.
  cbn [getitem] in Hout. rewrite (acc_request _ _ _ Hacc) in Hout.
  rewrite (bind_normal _ _ _ _ (VDict req) eq_refl) in Hout.
  rewrite (bind_normal _ _ _ _ (url_of req) eq_refl) in Hout.
  assert (Hp : post
    (bind (tls_stage E (VDict req) base_record)
       (fun res =>
          bind (port_stage E (VDict resp) (VDict req) (url_of req) res)
            (fun port =>
               generic_stage E (VDict resp) (VDict req) (url_of req) port res)))
    (fun _ => False)
    (fun v => exists r1 r,
       v = VDict r
       /\ same_but_scripts
            (merged r1 (match_nmap_svc_fp E (banner_of E resp)
                          "tcp" "GetRequest")) r)).
  { eapply post_bind; [apply post_tls_stage|]. intros res1 _.
    eapply post_bind; [apply post_any, (post_port_no_detector E _ _ _ _ Hdet)|].
    intros port _. apply post_generic_banner. }
  specialize (Hp (mk_state (VDict d) hostrec [])).
  destruct (bind _ _ _) as [s [a|r|e]]; simpl in *;
    try contradiction; try discriminate.
  injection Hout as ->. destruct Hp as (r1 & r & Hr & Hsame).
  injection Hr as <-. rewrite Hsame by exact Hk. unfold merged.
  destruct (match_nmap_svc_fp E (banner_of E resp) "tcp" "GetRequest")
    as [|kv info] eqn:Hinfo; [discriminate|].
  cbn [dict_update fst]. unfold getk in *. now apply merge_lookup.
Qed.

End Banner.

Lemma server_shape : working_shape server_input (result_of server_resp).
Proof.
  eexists. split; [reflexivity|]. split; [discriminate|reflexivity].
Defined.

Lemma server_accepted : accepted (result_of server_resp) server_resp [].
Proof. split; reflexivity. Defined.

(** X16 on [server_input]: the matcher is given the status line and the
    server line, and its port replaces the inferred one. *)
Lemma fingerprint_overrides_witness :
  exists res,
    out_result (zgrap_parser_http sample_match server_input sample_host)
    = Ok (VDict res)
    /\ getk "service_product" res
       = Some (VStr ("HTTP/1.1 200 OK" ++ crlf ++ "Server: nginx"
                     ++ crlf ++ crlf))
    /\ getk "port" res = Some (VInt 8000).
Proof.
  eexists. split; [reflexivity|]. split.
  - refine (fingerprint_overrides sample_match server_input
              (result_of server_resp) server_resp [] sample_host _
              "service_product" _ server_shape server_accepted
              (or_introl eq_refl) eq_refl eq_refl _ eq_refl).
    discriminate.
  - refine (fingerprint_overrides sample_match server_input
              (result_of server_resp) server_resp [] sample_host _
              "port" _ server_shape server_accepted
              (or_introl eq_refl) eq_refl eq_refl _ eq_refl).
    discriminate.
Defined.

(** * A detector keeps the headers as they are *)

Section Stops.

Variable E : collaborators.

Lemma git_detector_stops (resp : value) (url res : dict) (port : Z)
    (path : string) :
  getk "path" url = Some (VStr path) ->
  endswith path "/.git/index" = true ->
  post (git_detector E resp (VDict url) port res)
       (fun _ => False) (fun _ => True).
Proof.
  intros Hp He. unfold git_detector. cbn [py_get]. rewrite Hp.
  cbn [lift]. post_step. cbn [lift py_endswith as_str rbind]. rewrite He.
  post_step. cbv iota. post_auto; exact I.
Qed.

Lemma owa_detector_stops (resp : value) (url res : dict) (port : Z)
    (path : string) :
  getk "path" url = Some (VStr path) ->
  endswith path "/owa/auth/logon.aspx" = true ->
  post (owa_detector E resp (VDict url) port res)
       (fun _ => False) (fun _ => True).
Proof.
  intros Hp He. unfold owa_detector. cbn [py_get]. rewrite Hp.
  cbn [lift]. post_step. cbn [lift py_endswith as_str rbind]. rewrite He.
  post_step. cbv iota. post_auto; exact I.
Qed.

Lemma port_stage_stops (resp req : value) (url res : dict) (path : string) :
  getk "path" url = Some (VStr path) ->
  endswith path "/.git/index" = true
  \/ endswith path "/owa/auth/logon.aspx" = true ->
  post (port_stage E resp req (VDict url) res)
       (fun _ => False) (fun _ => True).
Proof.
  intros Hp Hsig. unfold port_stage.
  replace (truthy (VDict url)) with true
    by (destruct url; [discriminate|reflexivity]).
  post_step. destruct Hsig as [Hg|Ho].
  - eapply post_bind; [apply (git_detector_stops _ _ _ _ _ Hp Hg)|].
    intros _ [].
  - eapply post_bind with (Q1 := fun _ => True).
    + intros s. destruct (snd (git_detector E resp (VDict url) a res s));
        exact I.
    + intros _ _.
      eapply post_bind; [apply (owa_detector_stops _ _ _ _ _ Hp Ho)|].
      intros _ [].
Qed.

Lemma stops_keeps {A B} (m : M A) (f : A -> M B) :
  post m (fun _ => False) (fun _ => True) -> keeps_data m ->
  keeps_data (bind m f).
Proof.
  intros Hp Hk s. unfold bind. specialize (Hp s). specialize (Hk s).
  destruct (m s) as [s' [a|v|e]]; simpl in *; [contradiction|exact Hk..].
Qed.

(** X17: when the path of the URL has the signature of a detector, the
    call returns or raises before line 161: whatever its outcome,
    the caller's data are the working shape, and an [unknown] bucket in
    the headers of the response is left in place, since the headers
    are only flattened on the generic path. *)
Theorem detector_leaves_data (data : value) (d resp req url hostrec : dict)
    (path : string) :
  working_shape data d -> accepted d resp req ->
  getk "url" req = Some (VDict url) ->
  getk "path" url = Some (VStr path) ->
  endswith path "/.git/index" = true
  \/ endswith path "/owa/auth/logon.aspx" = true ->
  out_data (zgrap_parser_http E data hostrec) = VDict d.
Proof.
  intros Hshape Hacc Hurl Hpath Hsig.
  unfold zgrap_parser_http. fold (mk_state data hostrec []).
  rewrite (parser_body_shape E _ _ _ _ Hshape).
  rewrite (bind_normal _ _ _ _ _ (check_response_accepted E _ _ _ _ _ Hacc)).
  unfold after_check.
  cbn [getitem]. rewrite (acc_request _ _ _ Hacc).
  rewrite (bind_normal _ _ _ _ (VDict req) eq_refl).
  rewrite (bind_normal _ _ _ _ (url_of req) eq_refl).
  assert (Hu : url_of req = VDict url) by (unfold url_of; now rewrite Hurl).
  rewrite Hu.
  assert (Hk : keeps_data
    (bind (tls_stage E (VDict req) base_record)
       (fun res =>
          bind (port_stage E (VDict resp) (VDict req) (VDict url) res)
            (fun port =>
               generic_stage E (VDict resp) (VDict req) (VDict url) port res)))).
  { apply keeps_data_bind; [apply keeps_data_tls_stage|]. intros res.
    apply stops_keeps; [|apply keeps_data_port_stage].
    now apply port_stage_stops with path. }
  specialize (Hk (mk_state (VDict d) hostrec [])).
  destruct (bind _ _ _) as [s c]. exact Hk.
Qed.

End Stops.

Lemma bucket_miss_shape :
  working_shape bucket_miss_input (result_of bucket_miss_resp).
Proof.
  eexists. split; [reflexivity|]. split; [discriminate|reflexivity].
Defined.

Lemma bucket_miss_accepted :
  accepted (result_of bucket_miss_resp) bucket_miss_resp git_req.
Proof. split; reflexivity. Defined.

(** X17 on [bucket_miss_input]: the bucket is still there. *)
Lemma detector_leaves_data_witness :
  out_data (zgrap_parser_http sample bucket_miss_input sample_host)
  = bucket_miss_input.
Proof.
  exact (detector_leaves_data sample bucket_miss_input
           (result_of bucket_miss_resp) bucket_miss_resp git_req git_url
           sample_host "/x/.git/index" bucket_miss_shape bucket_miss_accepted
           eq_refl eq_refl (or_introl eq_refl)).
Defined.

Section PerCall.

Variable E : collaborators.

Lemma post_returned {A} (m : M A) (Qn : A -> Prop) (Qr Qr' : value -> Prop) :
  post m Qn Qr -> (forall v, Qr v -> Qr' v) -> post m Qn Qr'.
Proof.
  intros H Hq s. specialize (H s). destruct (snd (m s)); auto.
Qed.

Lemma post_stops {A} (m : M A) (Qn : A -> Prop) (Qr Qr' : value -> Prop) :
  post m (fun _ => False) Qr' -> post m Qn Qr -> post m (fun _ => False) Qr.
Proof.
  intros H1 H2 s. specialize (H1 s). specialize (H2 s).
  destruct (snd (m s)); auto.
Qed.

Lemma kept_script (res res' : dict) (port : Z) (x : result value) :
  add_script (setk "port" (VInt port) res) x = Ok res' ->
  kept_but_port res res'.
Proof.
  intros H k Hs Hp. apply add_script_same in H.
  rewrite H by exact Hs. apply getk_setk_other. congruence.
Qed.

Lemma kept_git_detector (resp url : value) (port : Z) (res : dict) :
  post (git_detector E resp url port res) (fun _ => True)
       (fun v => v = VDict [] \/ exists r, v = VDict r /\ kept_but_port res r).
Proof.
  unfold git_detector. post_auto; cbv beta in *; auto.
  right. eexists. split; [reflexivity|]. eapply kept_script; eassumption.
Qed.

Lemma kept_owa_detector (resp url : value) (port : Z) (res : dict) :
  post (owa_detector E resp url port res) (fun _ => True)
       (fun v => v = VDict [] \/ exists r, v = VDict r /\ kept_but_port res r).
Proof.
  unfold owa_detector. post_auto; cbv beta in *; auto.
  right. eexists. split; [reflexivity|]. eapply kept_script; eassumption.
Qed.

Lemma kept_port_stage (resp req url : value) (res : dict) :
  on_detector url ->
  post (port_stage E resp req url res) (fun _ => False)
       (fun v => v = VDict [] \/ exists r, v = VDict r /\ kept_but_port res r).
Proof.
  intros (path & Hpath & Hsig).
  destruct url as [| | | | |u]; try discriminate. cbn [field] in Hpath.
  apply post_stops with (Qn := fun _ => True) (Qr' := fun _ => True);
    [now apply port_stage_stops with path|].
  unfold port_stage. destruct (truthy (VDict u)).
  - post_step.
    eapply post_bind; [apply kept_git_detector|intros _ _].
    eapply post_bind; [apply kept_owa_detector|intros _ _].
    now apply post_ret.
  - post_auto; exact I.
Qed.

Lemma kept_generic_stage (resp req : dict) (url : value) (port : Z)
    (res : dict) :
  let info := match_nmap_svc_fp E (banner_of E resp) "tcp" "GetRequest" in
  post (generic_stage E (VDict resp) (VDict req) url port res)
       (fun _ => False)
       (fun v => exists r,
          v = VDict r
          /\ (distinct_keys info = true ->
              forall k, k <> "scripts" -> k <> "port" ->
                        getk k r = overridden info res k)).
Proof.
  intros info. eapply post_returned; [apply post_generic_entries|].
  intros v (r1 & r & -> & H1 & H2). exists r. split; [reflexivity|].
  intros Hd k Hs Hp. rewrite H2 by exact Hs. fold info.
  assert (Hr1 : getk k r1 = getk k res).
  { rewrite H1 by exact Hs. apply getk_setk_other. congruence. }
  unfold overridden, merged. destruct info as [|kv info'] eqn:Hinfo;
    [exact Hr1|].
  rewrite <- Hinfo in *. cbn [dict_update fst]. unfold getk in *.
  destruct (dict_get (VStr k) info) as [x|] eqn:Hk.
  - now apply merge_lookup.
  - now rewrite merge_other.
Qed.

(** X4: the entries of a record returned by a call, besides [scripts],
    [port] and [service_tunnel].  When a detector returns the record
    they are the entries of the base record of lines 67-69
    ([service_name] http, [service_method] probed, [state_state] open,
    [state_reason] response, [protocol] tcp) and no others, whatever
    the fingerprint matcher would say.  On the generic path they are
    those entries with the answer of the matcher for the banner of the
    response merged over them (line 199): an entry the matcher names
    has the matcher's value, every other one is as in the base
    record. *)
Theorem record_entries (data : value) (d resp req hostrec res : dict)
    (k : string) :
  working_shape data d -> accepted d resp req ->
  out_result (zgrap_parser_http E data hostrec) = Ok (VDict res) ->
  res <> [] ->
  k <> "scripts" -> k <> "port" -> k <> "service_tunnel" ->
  let info := match_nmap_svc_fp E (banner_of E resp) "tcp" "GetRequest" in
  (on_detector (url_of req) -> getk k res = getk k base_record)
  /\ (no_detector (url_of req) -> distinct_keys info = true ->
      getk k res = overridden info base_record k).
Proof.
  intros Hshape Hacc Hout Hne Hs Hp Ht info.
  unfold zgrap_parser_http in Hout.
  fold (mk_state data hostrec []) in Hout.
  rewrite (parser_body_shape E _ _ _ _ Hshape) in Hout.
  rewrite (bind_normal _ _ _ _ _ (check_response_accepted E _ _ _ _ _ Hacc))
    in Hout.
  unfold after_check in Hout.
  cbn [getitem] in Hout. rewrite (acc_request _ _ _ Hacc) in Hout.
  rewrite (bind_normal _ _ _ _ (VDict req) eq_refl) in Hout.
  rewrite (bind_normal _ _ _ _ (url_of req) eq_refl) in Hout.
  set (rest := bind (tls_stage E (VDict req) base_record) _) in Hout.
  assert (Hrun : forall Q : value -> Prop,
            post rest (fun _ => False) Q -> Q (VDict res)).
  { intros Q HQ. specialize (HQ (mk_state (VDict d) hostrec [])).
    destruct (rest _) as [s [a|r|e]]; simpl in *;
      try contradiction; try discriminate.
    now injection Hout as <-. }
  split.
  - intros Hdet.
    assert (H : VDict res = VDict []
                \/ exists r, VDict res = VDict r
                             /\ getk k r = getk k base_record).
    { apply (Hrun (fun v => v = VDict []
                            \/ exists r, v = VDict r
                                         /\ getk k r = getk k base_record)).
      unfold rest.
      eapply post_bind; [apply (post_tls_entries E _ base_record _ eq_refl)|].
      intros res1 [Hres1 _].
      eapply post_bind with (Q1 := fun _ => False); [|intros _ []].
      eapply post_returned; [now apply kept_port_stage|].
      intros v [->|(r & -> & Hr)]; [now left|right].
      exists r. split; [reflexivity|]. rewrite Hr by assumption.
      now apply Hres1. }
    destruct H as [H|(r & H & Hr)]; injection H as ->; [congruence|exact Hr].
  - intros Hno Hd.
    assert (H : exists r, VDict res = VDict r
                          /\ getk k r = overridden info base_record k).
    { apply (Hrun (fun v => exists r, v = VDict r
                      /\ getk k r = overridden info base_record k)).
      unfold rest.
      eapply post_bind; [apply (post_tls_entries E _ base_record _ eq_refl)|].
      intros res1 [Hres1 _].
      eapply post_bind;
        [apply post_any, (post_port_no_detector E _ _ _ _ Hno)|].
      intros port _. eapply post_returned; [apply kept_generic_stage|].
      intros v (r & -> & Hr). exists r. split; [reflexivity|].
      rewrite (Hr Hd k Hs Hp). unfold overridden. fold info.
      destruct (getk k info); [reflexivity|now apply Hres1]. }
    destruct H as (r & H & Hr). now injection H as ->.
Qed.

End PerCall.

(** X4 with a matcher that names the service: on [server_input], which
    takes the generic path, the service is the matcher's and the method
    is the base record's; on [git_plain_input], where the Git detector
    returns the record, the service is [http]. *)
Lemma record_entries_witness :
  (exists res,
     out_result (zgrap_parser_http sample_naming server_input sample_host)
     = Ok (VDict res)
     /\ getk "service_name" res = Some (VStr "http-alt")
     /\ getk "service_method" res = Some (VStr "probed"))
  /\ exists res,
       out_result (zgrap_parser_http sample_naming git_plain_input sample_host)
       = Ok (VDict res)
       /\ getk "service_name" res = Some (VStr "http").
Proof.
  split; eexists; (split; [reflexivity|]); [split|].
  - refine (proj2 (record_entries sample_naming server_input
                     (result_of server_resp) server_resp [] sample_host _
                     "service_name" server_shape server_accepted eq_refl
                     _ _ _ _) (or_introl eq_refl) eq_refl);
      discriminate.
  - refine (proj2 (record_entries sample_naming server_input
                     (result_of server_resp) server_resp [] sample_host _
                     "service_method" server_shape server_accepted eq_refl
                     _ _ _ _) (or_introl eq_refl) eq_refl);
      discriminate.
  - refine (proj1 (record_entries sample_naming git_plain_input
                     (result_of git_plain_resp) git_plain_resp git_plain_req
                     sample_host _ "service_name" git_plain_shape
                     git_plain_accepted eq_refl _ _ _ _) _);
      [discriminate..|].
    eexists. split; [reflexivity|]. left. reflexivity.
Defined.

Lemma forallb_false {A} (f : A -> bool) (l : list A) :
  forallb f l = false -> exists x, In x l /\ f x = false.
Proof.
  induction l as [|x l IH]; [discriminate|]. cbn [forallb].
  destruct (f x) eqn:Hx; [|exists x; split; [now left|exact Hx]].
  intros H. destruct (IH H) as (y & Hy & Hf). exists y. split; [now right|auto].
Qed.

Lemma map_opt_none {A B} (f : A -> option B) (l : list A) (x : A) :
  In x l -> f x = None -> map_opt f l = None.
Proof.
  induction l as [|y l IH]; [contradiction|]. intros [->|Hin] Hx; cbn [map_opt].
  - now rewrite Hx.
  - rewrite (IH Hin Hx). now destruct (f y).
Qed.

Section Limit.

Variable E : collaborators.

Lemma owa_detector_raises (resp url res : dict) (port : Z)
    (stem body : string) (s : state) :
  getk "path" url = Some (VStr (stem ++ "/owa/auth/logon.aspx")) ->
  status_is_200 resp = true ->
  getk "body" resp = Some (VStr body) ->
  set_iter E (finditer _EXPR_OWA_VERSION body) <> [] ->
  sorted_versions (set_iter E (finditer _EXPR_OWA_VERSION body)) = None ->
  owa_detector E (VDict resp) (VDict url) port res s
  = (s, Raises ValueError).
Proof.
  intros Hp Hs Hb Hne Hsort. unfold owa_detector. cbn [py_get].
  rewrite Hp. cbn [lift bind ret py_endswith as_str rbind].
  rewrite endswith_app. cbn [lift bind ret]. unfold status_is_200 in Hs.
  destruct (getk "status_code" resp) as [v|]; [|discriminate].
  rewrite Hs, Hb. cbn [negb lift bind ret owa_versions].
  destruct (set_iter E (finditer _EXPR_OWA_VERSION body)) as [|v0 vs] eqn:Hv;
    [congruence|].
  now rewrite Hsort.
Qed.

(** X18: the OWA detector can be made to raise.  For a path
    [stem/owa/auth/logon.aspx], status 200 and a body in which a version
    is found one part of which has more digits than [int] accepts
    (4300), the key function of line 136 raises [ValueError], nothing
    catches it, and the call ends with that exception instead of a
    record. *)
Theorem long_version_raises (data : value) (d resp req url hostrec : dict)
    (stem body : string) :
  working_shape data d -> accepted d resp req ->
  tls_typed req -> hostnames_typed hostrec ->
  getk "url" req = Some (VDict url) -> host_typed url ->
  getk "path" url = Some (VStr (stem ++ "/owa/auth/logon.aspx")) ->
  status_is_200 resp = true ->
  getk "body" resp = Some (VStr body) ->
  forallb within_limit (finditer _EXPR_OWA_VERSION body) = false ->
  out_result (zgrap_parser_http E data hostrec) = Err ValueError.
Proof.
  intros Hshape Hacc Htls Hh Hurl Hhost Hpath Hs Hb Hlim.
  destruct (typed_prefix E _ _ _ _ _ Hshape Hacc Htls Hh)
    as (h1 & res1 & Hrun & _).
  assert (Hu : url_of req = VDict url) by (unfold url_of; now rewrite Hurl).
  rewrite Hu in Hrun.
  assert (Hne : url <> []) by (intros ->; discriminate).
  apply forallb_false in Hlim as (v & Hv & Hlong).
  assert (Hfound : finditer _EXPR_OWA_VERSION body <> [])
    by (intros H0; now rewrite H0 in Hv).
  assert (Hsort : sorted_versions (set_iter E (finditer _EXPR_OWA_VERSION body))
                  = None).
  { unfold sorted_versions.
    rewrite (map_opt_none version_key _ v); [reflexivity| |].
    - now apply set_iter_in.
    - now apply found_version_long with body. }
  assert (Hport : port_stage E (VDict resp) (VDict req) (VDict url) res1
                    (mk_state (VDict d) h1 [])
                  = (mk_state (VDict d) h1 [], Raises ValueError)).
  { unfold port_stage.
    replace (truthy (VDict url)) with true
      by (destruct url; [congruence|reflexivity]).
    rewrite (infer_port_typed (VDict req) url Hne Hhost).
    cbn [lift bind ret].
    rewrite (bind_normal _ _ _ _ _
               (git_detector_skip E _ _ _ _ _ _ Hpath
                  (owa_path_not_git _ (endswith_app _ _)))).
    now rewrite (bind_raises _ _ _ _ _
                   (owa_detector_raises resp url res1 _ stem body
                      (mk_state (VDict d) h1 [])
                      Hpath Hs Hb (set_iter_nonempty E _ Hfound) Hsort)). }
  rewrite (bind_raises _ _ _ _ _ Hport) in Hrun.
  now rewrite (run_result E _ _ _ _ Hrun).
Qed.

End Limit.

(** X19: a port written with more digits than [int] accepts is not read:
    for a host [name:w], where [name] has no colon and [w] is a run of
    more than 4300 digits, [int] raises [ValueError], line 101 passes,
    and the port is the default of the scheme. *)
Theorem long_port_falls_back (url : dict) (name w : string) :
  getk "host" url = Some (VStr (name ++ ":" ++ w)) ->
  lacks ":" name = true ->
  all_digits w = true -> int_sized w = false ->
  infer_port (VDict url) = Ok (default_port url).
Proof.
  intros Hh Hn Hd Hs. unfold infer_port, default_port.
  cbn [py_get rbind]. rewrite Hh. cbn [py_in rbind].
  rewrite (str_contains_app name (":" ++ w) ":" (str_contains_head ":" w)).
  cbn [getitem]. rewrite Hh. cbn [rbind as_str].
  change (":" ++ w) with (String ":" w).
  rewrite (split_once_lacks _ _ Hn). cbn [nth_error rbind].
  rewrite (py_int_long _ Hd Hs).
  destruct (getk "scheme" url); reflexivity.
Qed.

Lemma owa_long_shape : working_shape owa_long_input (result_of owa_long_resp).
Proof.
  eexists. split; [reflexivity|]. split; [discriminate|reflexivity].
Defined.

Lemma owa_long_accepted :
  accepted (result_of owa_long_resp) owa_long_resp owa_req.
Proof. split; reflexivity. Defined.

(** X18 on [owa_long_input]. *)
Lemma long_version_raises_witness :
  out_result (zgrap_parser_http sample owa_long_input sample_host)
  = Err ValueError.
Proof.
  apply (long_version_raises sample owa_long_input (result_of owa_long_resp)
           owa_long_resp owa_req owa_url sample_host "" owa_long_body
           owa_long_shape owa_long_accepted owa_tls sample_hostnames eq_refl
           owa_host eq_refl eq_refl eq_refl).
  vm_compute. reflexivity.
Defined.

(** X19 on a port of 4301 digits and scheme [https]. *)
Lemma long_port_falls_back_witness :
  infer_port (obj [("host", VStr ("example.com" ++ ":" ++ ones 4301));
                   ("scheme", VStr "https")])
  = Ok 443%Z.
Proof.
  apply (long_port_falls_back
           (entries [("host", VStr ("example.com" ++ ":" ++ ones 4301));
                     ("scheme", VStr "https")]) "example.com" (ones 4301));
    [reflexivity|reflexivity|vm_compute; reflexivity..].
Defined.
